(** * A two-pass assembler for a small teaching VM: model and verification

    The development embeds [assembler.py] (class [Assembler] and the
    enumeration [Opcode]) and proves properties of its line parser, its label
    resolver and its encoder.

    Conventions of the embedding.
    - A Python [str] is a [string]; a character stands for the code point of
      the same number, so the texts covered are those whose code points are
      below 256.
    - A Python [int] is a [Z].
    - The dictionary [self.labels] is a [gmap string Z].
    - An instruction dictionary [cmd] is the record [Cmd]; the keys that are
      only sometimes present (['value'], ['address_arg'], ['label']) are
      fields of type [option].
    - A raised [ValueError] is a value of [result]; the methods that read or
      write [self] are functions from the instance to an outcome and the
      instance afterwards. *)

From Stdlib Require Import ZArith Ascii String List Bool Lia.
From Stdlib Require Strings.Byte.
From stdpp Require Import base option gmap strings list.

Open Scope Z_scope.

(** ** Python string operations used by the assembler *)

Module Str.

Definition nl : string := String "010"%char "".

(** [str.isspace] on one character, as used by [strip()] and [split()]:
    the white space code points below 256. *)
Definition isspace (c : ascii) : bool :=
  match c with
  | "009" | "010" | "011" | "012" | "013"
  | "028" | "029" | "030" | "031" | " " | "133" | "160" => true
  | _ => false
  end%char.

(** [str.lower] on one character: A-Z and the upper-case letters
    U+00C0-U+00DE (all but the multiplication sign U+00D7). *)
Definition lower_char (c : ascii) : ascii :=
  let n := N_of_ascii c in
  if ((65 <=? n) && (n <=? 90) ||
      (192 <=? n) && (n <=? 222) && negb (n =? 215))%N
  then ascii_of_N (n + 32) else c.

Fixpoint lower (s : string) : string :=
  match s with
  | EmptyString => EmptyString
  | String c s' => String (lower_char c) (lower s')
  end.

(** [c in s] for a one-character [c]. *)
Fixpoint contains (c : ascii) (s : string) : bool :=
  match s with
  | EmptyString => false
  | String d s' => if Ascii.eqb d c then true else contains c s'
  end.

(** [s.split(sep)] for a one-character separator: never an empty list. *)
Fixpoint split (sep : ascii) (s : string) : list string :=
  match s with
  | EmptyString => [EmptyString]
  | String c s' =>
      if Ascii.eqb c sep then EmptyString :: split sep s'
      else match split sep s' with
           | w :: ws => String c w :: ws
           | [] => [String c EmptyString]
           end
  end.

Fixpoint lstrip (s : string) : string :=
  match s with
  | EmptyString => EmptyString
  | String c s' => if isspace c then lstrip s' else s
  end.

Fixpoint rstrip (s : string) : string :=
  match s with
  | EmptyString => EmptyString
  | String c s' =>
      match rstrip s' with
      | EmptyString => if isspace c then EmptyString else String c EmptyString
      | r => String c r
      end
  end.

(** [s.strip()] *)
Definition strip (s : string) : string := rstrip (lstrip s).

(** [s.split()]: the maximal runs of characters that are not white space. *)
Fixpoint split_ws (s : string) : list string :=
  match s with
  | EmptyString => []
  | String c s' =>
      if isspace c then split_ws s'
      else match s' with
           | EmptyString => [String c EmptyString]
           | String c' _ =>
               if isspace c' then String c EmptyString :: split_ws s'
               else match split_ws s' with
                    | w :: ws => String c w :: ws
                    | [] => [String c EmptyString]
                    end
           end
  end.

(** [s.endswith(c)] for a one-character [c]. *)
Fixpoint endswith (s : string) (c : ascii) : bool :=
  match s with
  | EmptyString => false
  | String d EmptyString => Ascii.eqb d c
  | String _ s' => endswith s' c
  end.

(** [s[:-1]] *)
Fixpoint init (s : string) : string :=
  match s with
  | EmptyString => EmptyString
  | String _ EmptyString => EmptyString
  | String c s' => String c (init s')
  end.

(** [s.startswith(p)] *)
Definition startswith (s p : string) : bool := String.prefix p s.

(** [s[n:]] *)
Fixpoint drop (n : nat) (s : string) : string :=
  match n, s with
  | O, _ => s
  | S n', String _ s' => drop n' s'
  | S _, EmptyString => EmptyString
  end.

Fixpoint all (p : ascii -> bool) (s : string) : bool :=
  match s with
  | EmptyString => true
  | String c s' => p c && all p s'
  end.

(** [sep.join(l)] *)
Fixpoint join (sep : string) (l : list string) : string :=
  match l with
  | [] => EmptyString
  | [w] => w
  | w :: ws => w +:+ sep +:+ join sep ws
  end.

End Str.

(** ** Errors *)

(** The opcodes of the machine, [class Opcode(IntEnum)]. *)
Inductive Opcode : Set := STORE | LOAD | CONST | BITREV.

Definition opcode_id (o : Opcode) : Z :=
  match o with
  | STORE => 1
  | LOAD => 23
  | CONST => 42
  | BITREV => 60
  end.

Global Instance Opcode_eq_dec : EqDecision Opcode.
Proof. solve_decision. Defined.

(** Every failure of the assembler is a Python [ValueError]; the constructors
    stand for the messages. *)
Inductive ValueError : Type :=
| InvalidLiteral (base : Z) (s : string)
    (* int(): invalid literal for int() with base ... *)
| DigitLimit (digits : nat)
    (* int(): Exceeds the limit for integer string conversion *)
| FormatLimit
    (* str(), format(): Exceeds the limit for integer string conversion *)
| DuplicateLabel (label : string)
| UnknownMnemonic (mnemonic : string)
| ArityError (opcode : Opcode) (line : string)
| ValueOutOfRange (opcode : Opcode) (value : Z)
| UnknownLabel (label : string)
| AtLine (line_num : Z) (e : ValueError).
    (* assemble: the message of [e] after the line number *)

Inductive result (A : Type) : Type :=
| Ok (a : A)
| Raise (e : ValueError).
Arguments Ok {A} a.
Arguments Raise {A} e.

(** A statement after one that raised is not run. *)
#[global] Instance result_ret : MRet result := @Ok.
#[global] Instance result_bind : MBind result :=
  fun A B f r => match r with Ok a => f a | Raise e => Raise e end.

(** ** The builtin [int(s, base)] on a [str] *)

Module PyInt.

(** The C-locale [Py_ISSPACE]. *)
Definition c_isspace (c : ascii) : bool :=
  match c with
  | "009" | "010" | "011" | "012" | "013" | " " => true
  | _ => false
  end%char.

(** [_PyLong_DigitValue]: 37 marks a character that is no digit. *)
Definition digit_value (c : ascii) : Z :=
  let n := Z.of_N (N_of_ascii c) in
  if (48 <=? n) && (n <=? 57) then n - 48
  else if (97 <=? n) && (n <=? 122) then n - 87
  else if (65 <=? n) && (n <=? 90) then n - 55
  else 37.

Definition is_ascii (c : ascii) : bool := (N_of_ascii c <? 128)%N.

(** [_PyUnicode_TransformDecimalAndSpaceToASCII] for a text that is not
    plain ASCII: white space becomes a blank, and a code point from 127 on
    that is neither white space nor a decimal digit (there is no decimal
    digit between 127 and 255) becomes a question mark that ends the
    buffer. *)
Fixpoint transform_slow (s : string) : string :=
  match s with
  | EmptyString => EmptyString
  | String c s' =>
      if (N_of_ascii c <? 127)%N then String c (transform_slow s')
      else if Str.isspace c then String " "%char (transform_slow s')
      else String "?"%char EmptyString
  end.

Definition transform (s : string) : string :=
  if Str.all is_ascii s then s else transform_slow s.

Fixpoint skip_spaces (s : string) : string :=
  match s with
  | EmptyString => EmptyString
  | String c s' => if c_isspace c then skip_spaces s' else s
  end.

(** The digit loop of [long_from_string_base]: digits of the base with
    single underscores between them.  [prev] is the character read last,
    [acc] the value and [digits] the number of digits read so far.  [None]
    is the syntax error for a doubled or trailing underscore; otherwise the
    value, the number of digits and the unread rest are returned. *)
Fixpoint scan (base : Z) (p : string) (prev : ascii) (acc : Z) (digits : nat)
  : option (Z * nat * string) :=
  match p with
  | String c p' =>
      if Ascii.eqb c "_" then
        if Ascii.eqb prev "_" then None else scan base p' c acc digits
      else if digit_value c <? base then
        scan base p' c (acc * base + digit_value c) (S digits)
      else if Ascii.eqb prev "_" then None else Some (acc, digits, p)
  | EmptyString =>
      if Ascii.eqb prev "_" then None else Some (acc, digits, p)
  end.

(** The letter that may follow a leading zero for an explicit base. *)
Definition prefix_letter (base : Z) (c : ascii) : bool :=
  ((base =? 16) && (Ascii.eqb c "x" || Ascii.eqb c "X")) ||
  ((base =? 8) && (Ascii.eqb c "o" || Ascii.eqb c "O")) ||
  ((base =? 2) && (Ascii.eqb c "b" || Ascii.eqb c "B")).

Definition is_power_of_two (base : Z) : bool :=
  Z.land base (base - 1) =? 0.

(** The optional sign: the factor and the text behind it. *)
Definition take_sign (str : string) : Z * string :=
  match str with
  | String c r =>
      if Ascii.eqb c "+" then (1, r)
      else if Ascii.eqb c "-" then (-1, r)
      else (1, str)
  | EmptyString => (1, str)
  end.

(** The optional prefix of an explicit base, a zero and the letter of the
    base, with one underscore allowed behind it. *)
Definition skip_prefix (base : Z) (str : string) : string :=
  match str with
  | String c0 (String c1 r) =>
      if Ascii.eqb c0 "0" && prefix_letter base c1 then
        match r with
        | String c2 r' => if Ascii.eqb c2 "_" then r' else r
        | EmptyString => r
        end
      else str
  | _ => str
  end.

Definition starts_with_underscore (str : string) : bool :=
  match str with
  | String c _ => Ascii.eqb c "_"
  | EmptyString => false
  end.

Section Limit.

(** [sys.get_int_max_str_digits()]: 4300 unless configured otherwise, 0
    for no limit.  Only texts of more than 640 digits in a base that is
    no power of two are limited. *)
Variable max_str_digits : nat.

Definition over_limit (base : Z) (digits : nat) : bool :=
  (640 <? digits)%nat && negb (is_power_of_two base) &&
  (0 <? max_str_digits)%nat && (max_str_digits <? digits)%nat.

(** [PyLong_FromString] for an explicit base between 2 and 36, on the
    buffer made by [transform]. *)
Definition from_string (text : string) (base : Z) : result Z :=
  let str := skip_spaces (transform text) in
  let '(sign, str) := take_sign str in
  let str := skip_prefix base str in
  if starts_with_underscore str then Raise (InvalidLiteral base text)
  else
    match scan base str "000" 0 O with
    | None => Raise (InvalidLiteral base text)
    | Some (z, digits, rest) =>
        if over_limit base digits then Raise (DigitLimit digits)
        else if (digits =? 0)%nat then Raise (InvalidLiteral base text)
        else
          match skip_spaces rest with
          | EmptyString => Ok (sign * z)
          | _ => Raise (InvalidLiteral base text)
          end
    end.

End Limit.

End PyInt.

(** ** Instructions, the assembler instance *)

(** The intermediate representation of one instruction: the dictionary [cmd]
    built by [parse_line].  [value], [address_arg] and [label] are [None]
    when the key is absent. *)
Record Cmd : Type := mkCmd {
  address : Z;
  opcode : Opcode;
  mnemonic : string;
  args : list string;
  raw_line : string;
  value : option Z;
  address_arg : option Z;
  label : option string
}.

(** [cmd['value'] = v] *)
Definition set_value (cmd : Cmd) (v : Z) : Cmd :=
  mkCmd (address cmd) (opcode cmd) (mnemonic cmd) (args cmd) (raw_line cmd)
        (Some v) (address_arg cmd) (label cmd).

(** [cmd['address_arg'] = a] *)
Definition set_address_arg (cmd : Cmd) (a : Z) : Cmd :=
  mkCmd (address cmd) (opcode cmd) (mnemonic cmd) (args cmd) (raw_line cmd)
        (value cmd) (Some a) (label cmd).

(** [cmd['label'] = l] *)
Definition set_label (cmd : Cmd) (l : string) : Cmd :=
  mkCmd (address cmd) (opcode cmd) (mnemonic cmd) (args cmd) (raw_line cmd)
        (value cmd) (address_arg cmd) (Some l).

(** [del cmd['label']] *)
Definition del_label (cmd : Cmd) : Cmd :=
  mkCmd (address cmd) (opcode cmd) (mnemonic cmd) (args cmd) (raw_line cmd)
        (value cmd) (address_arg cmd) None.

(** The instance state of [class Assembler]. *)
Record Assembler : Type := mkAssembler {
  program : list Cmd;
  labels : gmap string Z;
  current_address : Z
}.

(** [Assembler.__init__] *)
Definition Assembler_init : Assembler := mkAssembler [] ∅ 0.

(** The class attribute [MNEMONICS]. *)
Definition MNEMONICS : gmap string Opcode :=
  list_to_map
    [("store", STORE); ("load", LOAD); ("const", CONST); ("bitrev", BITREV)].

(** ** The encoder *)

Definition byte_of_Z (n : Z) : Byte.byte :=
  default Byte.x00 (Byte.of_N (Z.to_N (n mod 256))).

(** [struct.pack('<I', n)]: the four bytes of an unsigned 32-bit integer, the
    least significant first.  [None] stands for the [struct.error] raised for
    a number out of range. *)
Definition struct_pack_I (n : Z) : option (list Byte.byte) :=
  if (0 <=? n) && (n <? 2 ^ 32) then
    Some [byte_of_Z n; byte_of_Z (Z.shiftr n 8);
          byte_of_Z (Z.shiftr n 16); byte_of_Z (Z.shiftr n 24)]
  else None.

(** [struct.unpack('<I', b)[0]], as the tests of the repository read a word
    back. *)
Definition struct_unpack_I (b : list Byte.byte) : option Z :=
  match b with
  | [b0; b1; b2; b3] =>
      Some (Z.of_N (Byte.to_N b0) + Z.shiftl (Z.of_N (Byte.to_N b1)) 8
            + Z.shiftl (Z.of_N (Byte.to_N b2)) 16
            + Z.shiftl (Z.of_N (Byte.to_N b3)) 24)
  | _ => None
  end.

(** [Assembler.encode_instruction].  The final [else] of the source cannot be
    reached: [Opcode] has no fifth member. *)
Definition encode_instruction (cmd : Cmd) : option (list Byte.byte) :=
  match opcode cmd with
  | CONST =>
      let value := default 0 (value cmd) in
      struct_pack_I (Z.lor (Z.shiftl value 6) (opcode_id CONST))
  | LOAD =>
      let addr := default 0 (address_arg cmd) in
      struct_pack_I (Z.lor (Z.shiftl addr 6) (opcode_id LOAD))
  | STORE => struct_pack_I (opcode_id STORE)
  | BITREV => struct_pack_I (opcode_id BITREV)
  end.

(** [Assembler.to_binary] *)
Fixpoint to_binary (program : list Cmd) : option (list Byte.byte) :=
  match program with
  | [] => Some []
  | cmd :: rest =>
      match encode_instruction cmd, to_binary rest with
      | Some b, Some bs => Some (b ++ bs)
      | _, _ => None
      end
  end.

(** ** The debugging dump *)

(** The formatting of integers by the replacement fields of
    [format_intermediate]. *)
Module Fmt.

(** The character of a digit below 36, in lower or in upper case. *)
Definition digit_char (upper : bool) (d : N) : ascii :=
  if (d <? 10)%N then ascii_of_N (48 + d)
  else ascii_of_N ((if upper then 55 else 87) + d).

(** The digits of [n] in a base, the most significant first, put before
    [acc].  A digit is produced as long as the quotient is not zero; [fuel]
    bounds their number. *)
Fixpoint digits_of (fuel : nat) (base : N) (upper : bool) (n : N)
         (acc : string) : string :=
  match fuel with
  | O => acc
  | S fuel' =>
      let acc' := String (digit_char upper (n mod base)) acc in
      if (n / base =? 0)%N then acc'
      else digits_of fuel' base upper (n / base) acc'
  end.

(** The digits of a natural number: there are at most as many as it has
    bits. *)
Definition magnitude (base : N) (upper : bool) (n : N) : string :=
  digits_of (S (N.to_nat (N.log2 n))) base upper n EmptyString.

Fixpoint zeros (n : nat) : string :=
  match n with
  | O => EmptyString
  | S n' => String "0" (zeros n')
  end.

(** [format(n, spec)] for an integer and a spec made of an optional [0] with
    a width and a type: the sign comes first and the zeros fill the width
    behind it. *)
Definition format_int (base : N) (upper : bool) (width : nat) (n : Z)
  : string :=
  let body := magnitude base upper (Z.abs_N n) in
  if n <? 0 then
    String "-" (zeros (width - 1 - String.length body) +:+ body)
  else zeros (width - String.length body) +:+ body.

(** [f"{n:X}"] *)
Definition format_X (n : Z) : string := format_int 16 true 0 n.

(** [f"{n:0<width>b}"] *)
Definition format_b (width : nat) (n : Z) : string :=
  format_int 2 false width n.

Section Limit.

(** [sys.get_int_max_str_digits()], as in [PyInt.over_limit]. *)
Variable max_str_digits : nat.

(** The decimal text of an integer is refused when, sign included, it is
    longer than 640 characters and it has more digits than the limit, if
    there is one.  The zeros that fill a width do not count, and the texts in
    base 16 and 2 have no limit.  (The interpreter also tests the size of
    the number before it makes the digits; that test only refuses numbers
    which this one refuses.) *)
Definition over_limit (n : Z) : bool :=
  let digits := String.length (magnitude 10 false (Z.abs_N n)) in
  (640 <? (if (n <? 0)%Z then S digits else digits))%nat &&
  (0 <? max_str_digits)%nat && (max_str_digits <? digits)%nat.

(** [f"{n}"] and [f"{n:0<width>d}"] *)
Definition format_d (width : nat) (n : Z) : result string :=
  if over_limit n then Raise FormatLimit
  else Ok (format_int 10 false width n).

End Limit.

End Fmt.

(** The result of [format_intermediate] holds Cyrillic letters, so it is a
    list of code points; the texts made of the characters of a [string] are
    written with [code_points]. *)
Definition code_points (s : string) : list N :=
  N_of_ascii <$> list_ascii_of_string s.

(** [str.upper] on one character of a [string]; three characters have their
    upper case beyond the code points of a [string], or in two letters. *)
Definition upper_char (c : ascii) : list N :=
  let n := N_of_ascii c in
  if ((97 <=? n) && (n <=? 122) ||
      (224 <=? n) && (n <=? 254) && negb (n =? 247))%N then [(n - 32)%N]
  else if (n =? 223)%N then [83; 83]%N
  else if (n =? 181)%N then [924%N]
  else if (n =? 255)%N then [376%N]
  else [n].

Definition upper (s : string) : list N :=
  concat (upper_char <$> list_ascii_of_string s).

(** The word between the letter of a field and its bits. *)
Definition bits_word : list N := [1073; 1080; 1090; 1099]%N.

(** ['\n'.join(result)] *)
Fixpoint join_lines (result : list (list N)) : list N :=
  match result with
  | [] => []
  | [line] => line
  | line :: rest => line ++ 10%N :: join_lines rest
  end.

Section Format.

(** The integer string conversion limit of the interpreter that makes the
    dump (see [Fmt.over_limit]): a number that is beyond it stops
    [format_intermediate] with a [ValueError], and no dump is made. *)
Variable max_str_digits : nat.

(** The line of an instruction: its address, its mnemonic and, if it has
    one, its operand in decimal and in hexadecimal. *)
Definition head_line (addr : Z) (mnemonic : list N) (operand : option Z)
  : result (list N) :=
  a ← Fmt.format_d max_str_digits 4 addr;
  rest ← match operand with
         | Some v =>
             d ← Fmt.format_d max_str_digits 0 v;
             mret (code_points " " ++ code_points d ++
                   code_points " (0x" ++ code_points (Fmt.format_X v) ++
                   code_points ")")
         | None => mret []
         end;
  mret (code_points "[" ++ code_points a ++ code_points "] " ++
        mnemonic ++ rest).

(** The line of a bit field: its letter, its range, its bits and its
    value. *)
Definition field_line (letter range bits : string) (v : Z)
  : result (list N) :=
  d ← Fmt.format_d max_str_digits 0 v;
  mret (code_points "  " ++ code_points letter ++ code_points " " ++
        bits_word ++ code_points " " ++ code_points range ++
        code_points ": " ++ code_points bits ++ code_points " = " ++
        code_points d).

(** The lines that the loop of [format_intermediate] appends to [result] for
    one instruction. *)
Definition format_cmd (cmd : Cmd) : result (list (list N)) :=
  let addr := address cmd in
  let mnemonic := upper (mnemonic cmd) in
  if bool_decide (mnemonic = code_points "CONST") then
    let value := default 0 (value cmd) in
    h ← head_line addr mnemonic (Some value);
    a ← field_line "A" "0-5" (Fmt.format_b 6 (opcode_id CONST))
                   (opcode_id CONST);
    b ← field_line "B" "6-21" (Fmt.format_b 16 value) value;
    mret [h; a; b; []]
  else if bool_decide (mnemonic = code_points "LOAD") then
    let addr_arg := default 0 (address_arg cmd) in
    h ← head_line addr mnemonic (Some addr_arg);
    a ← field_line "A" "0-5" (Fmt.format_b 6 (opcode_id LOAD))
                   (opcode_id LOAD);
    b ← field_line "B" "6-29" (Fmt.format_b 24 addr_arg) addr_arg;
    mret [h; a; b; []]
  else if bool_decide (mnemonic = code_points "STORE") then
    h ← head_line addr mnemonic None;
    a ← field_line "A" "0-5" (Fmt.format_b 6 (opcode_id STORE))
                   (opcode_id STORE);
    mret [h; a; []]
  else if bool_decide (mnemonic = code_points "BITREV") then
    h ← head_line addr mnemonic None;
    a ← field_line "A" "0-5" (Fmt.format_b 6 (opcode_id BITREV))
                   (opcode_id BITREV);
    mret [h; a; []]
  else mret [[]].

(** [Assembler.format_intermediate] *)
Definition format_intermediate (program : list Cmd) : result (list N) :=
  lines ← mapM format_cmd program;
  mret (join_lines (concat lines)).

End Format.

(** ** Vocabulary of the properties *)

(** The text of a line once its comment and the surrounding white space are
    removed: the value of [line] when [parse_line] starts to look at it. *)
Definition clean (line : string) : string :=
  Str.strip (if Str.contains ";" line then hd EmptyString (Str.split ";" line)
             else line).

(** The label a line declares, if it is a label definition. *)
Definition declares (line : string) : option string :=
  if Str.endswith (clean line) ":" then Some (Str.strip (Str.init (clean line)))
  else None.

(** The lines that hold an instruction: neither blank nor a label
    definition. *)
Definition is_instruction (line : string) : bool :=
  negb (String.eqb (clean line) "") && negb (Str.endswith (clean line) ":").

(** A source text given by its lines. *)
Definition source_of (lines : list string) : string := Str.join Str.nl lines.

(** The instance after assembling some sources one after the other. *)
Definition after_calls (assemble : string -> Assembler -> result (list Cmd) * Assembler)
    (history : list string) : Assembler :=
  fold_left (fun self source => snd (assemble source self)) history
            Assembler_init.

(** The number of instruction lines among some lines: the address of the
    instruction that follows them. *)
Fixpoint count_instructions (lines : list string) : Z :=
  match lines with
  | [] => 0
  | line :: rest =>
      (if is_instruction line then 1 else 0) + count_instructions rest
  end.

(** The instructions of [n] lines [store] from the address [a] on. *)
Fixpoint store_cmds (a : Z) (n : nat) : list Cmd :=
  match n with
  | O => []
  | S n' =>
      mkCmd a STORE "store" [] "store" None None None :: store_cmds (a + 1) n'
  end.

(** A program of 65536 STORE instructions, then a label and a CONST
    instruction that refers to it. *)
Definition overflow_lines : list string :=
  replicate (Z.to_nat 65536) "store" ++ ["l:"; "const l"].

(** The base [parse_number] detects in a token, and the text that it hands
    to [int] for that base: the token without its prefix. *)
Definition literal_base (token : string) : Z :=
  let s := Str.lower (Str.strip token) in
  if Str.startswith s "0x" then 16
  else if Str.startswith s "0b" then 2
  else if Str.startswith s "0o" then 8
  else 10.

Definition literal_digits (token : string) : string :=
  let s := Str.lower (Str.strip token) in
  if Str.startswith s "0x" || Str.startswith s "0b" || Str.startswith s "0o"
  then Str.drop 2 s else s.

(** The characters that [int] admits besides the digits of the base: a sign,
    an underscore, white space and the letter of the base prefix. *)
Definition tolerated (base : Z) (c : ascii) : bool :=
  Ascii.eqb c "+" || Ascii.eqb c "-" || Ascii.eqb c "_" ||
  Str.isspace c || PyInt.prefix_letter base c.

Definition is_digit (base : Z) (c : ascii) : bool :=
  PyInt.digit_value c <? base.

(** The characters a text may hold for [int] to accept it in a base. *)
Definition acceptable (base : Z) (c : ascii) : bool :=
  is_digit base c || tolerated base c.

(** The state of the first pass once the lines [done] are read: the address
    counter is the number of instruction lines, a label is bound exactly when
    one of the lines declares it, its address is the number of instruction
    lines before its declaration, and only CONST and LOAD instructions carry
    a label reference. *)
Record first_pass_inv (done : list string) (self : Assembler) : Prop := {
  inv_address : current_address self = count_instructions done;
  inv_declared :
    forall (k : nat) def l,
      done !! k = Some def -> declares def = Some l ->
      labels self !! l = Some (count_instructions (take k done));
  inv_bound :
    forall l a,
      labels self !! l = Some a ->
      exists (k : nat) def, done !! k = Some def /\ declares def = Some l;
  inv_program :
    Forall (fun cmd => forall l, label cmd = Some l ->
                                 opcode cmd = CONST \/ opcode cmd = LOAD)
           (program self)
}.

(** The operand of a resolved instruction, in the slot of its opcode. *)
Definition operand (cmd : Cmd) : option Z :=
  match opcode cmd with
  | CONST => value cmd
  | LOAD => address_arg cmd
  | _ => None
  end.

(** The number of arguments [parse_line] asks of an opcode. *)
Definition arity (op : Opcode) : nat :=
  match op with
  | CONST | LOAD => 1
  | STORE | BITREV => 0
  end.

(** The three failures of [parse_line]. *)
Inductive line_error : ValueError -> Prop :=
| line_error_duplicate l : line_error (DuplicateLabel l)
| line_error_mnemonic m : line_error (UnknownMnemonic m)
| line_error_arity op line : line_error (ArityError op line).

(** The keys of an instruction as the first pass leaves it: the mnemonic is
    that of the opcode, the arguments are as many as the opcode takes, and a
    CONST or LOAD instruction holds either an immediate operand within its
    range, in the slot of its opcode, or the label named by its argument. *)
Definition raw_shape (cmd : Cmd) : Prop :=
  MNEMONICS !! mnemonic cmd = Some (opcode cmd) /\
  length (args cmd) = arity (opcode cmd) /\
  match opcode cmd with
  | CONST =>
      address_arg cmd = None /\
      ((exists v, value cmd = Some v /\ label cmd = None /\ 0 <= v <= 65535) \/
       (value cmd = None /\ args cmd = option_list (label cmd) /\
        label cmd <> None))
  | LOAD =>
      value cmd = None /\
      ((exists v, address_arg cmd = Some v /\ label cmd = None /\
                  0 <= v <= 16777215) \/
       (address_arg cmd = None /\ args cmd = option_list (label cmd) /\
        label cmd <> None))
  | _ => value cmd = None /\ address_arg cmd = None /\ label cmd = None
  end.

(** The state of the first pass as far as the program goes: there are as many
    instructions as the address counter says, each sits at its index and has
    the shape above, and no label is bound beyond the address counter. *)
Record program_inv (self : Assembler) : Prop := {
  inv_length : Z.of_nat (length (program self)) = current_address self;
  inv_cmds :
    forall (i : nat) cmd,
      program self !! i = Some cmd -> address cmd = Z.of_nat i /\ raw_shape cmd;
  inv_labels :
    forall l a, labels self !! l = Some a -> 0 <= a <= current_address self
}.

(** The operand [encode_instruction] packs: the value of a CONST
    instruction and the address of a LOAD instruction, 0 when the key is
    absent, and nothing, which is 0 as well, for STORE and BITREV. *)
Definition encoded_operand (cmd : Cmd) : Z :=
  match opcode cmd with
  | CONST => default 0 (value cmd)
  | LOAD => default 0 (address_arg cmd)
  | _ => 0
  end.

(** The number a text of digits spells in a base, read from the left behind
    the number [acc]. *)
Fixpoint positional (base : Z) (s : string) (acc : Z) : Z :=
  match s with
  | EmptyString => acc
  | String c s' => positional base s' (acc * base + PyInt.digit_value c)
  end.

(** What the digits of a number in a base are: digits of the base, at
    least one, that spell the number, with no zero in front of another
    digit. *)
Record digits_spec (base : Z) (n : Z) (ds : string) : Prop := {
  digits_valid : Str.all (is_digit base) ds = true;
  digits_nonempty : ds <> EmptyString;
  digits_value : positional base ds 0 = n;
  digits_minimal :
    (2 <= String.length ds)%nat ->
    base ^ (Z.of_nat (String.length ds) - 1) <= n
}.

(** The width of the operand field of an opcode, in bits; STORE and BITREV
    have none. *)
Definition field_width (op : Opcode) : nat :=
  match op with
  | CONST => 16
  | LOAD => 24
  | STORE | BITREV => 0
  end.

(** The bits of the operand as the dump shows them in its line B; the dump
    has no such line for STORE and BITREV. *)
Definition field_bits (cmd : Cmd) : string :=
  match opcode cmd with
  | CONST | LOAD =>
      Fmt.format_b (field_width (opcode cmd)) (encoded_operand cmd)
  | STORE | BITREV => EmptyString
  end.

(** A disjunction of booleans one of which has been rewritten to [true]. *)
Ltac orb_true :=
  repeat first [reflexivity | rewrite orb_true_r | rewrite orb_true_l
               | progress simpl].

Section Assemble.

(** The integer string conversion limit of the interpreter that runs the
    assembler (see [PyInt.over_limit]). *)
Variable max_str_digits : nat.

(** [Assembler.parse_number] *)
Definition parse_number (s : string) : result Z :=
  let s := Str.lower (Str.strip s) in
  if Str.startswith s "0x" then
    PyInt.from_string max_str_digits (Str.drop 2 s) 16
  else if Str.startswith s "0b" then
    PyInt.from_string max_str_digits (Str.drop 2 s) 2
  else if Str.startswith s "0o" then
    PyInt.from_string max_str_digits (Str.drop 2 s) 8
  else
    PyInt.from_string max_str_digits s 10.

(** The body of the [try] statement of a CONST or LOAD line: the number is
    parsed and then checked against the largest value of the field. *)
Definition try_number (op : Opcode) (max : Z) (arg : string) : result Z :=
  match parse_number arg with
  | Ok n =>
      if negb ((0 <=? n) && (n <=? max)) then Raise (ValueOutOfRange op n)
      else Ok n
  | Raise e => Raise e
  end.

(** [Assembler.parse_line]: the outcome ([None] when the line yields no
    instruction) and the instance afterwards. *)
Definition parse_line (line : string) (self : Assembler)
  : result (option Cmd) * Assembler :=
  let line :=
    if Str.contains ";" line then hd EmptyString (Str.split ";" line)
    else line in
  let line := Str.strip line in
  if String.eqb line "" then (Ok None, self)
  else if Str.endswith line ":" then
    let label := Str.strip (Str.init line) in
    match labels self !! label with
    | Some _ => (Raise (DuplicateLabel label), self)
    | None =>
        (Ok None,
         mkAssembler (program self)
                     (<[label := current_address self]> (labels self))
                     (current_address self))
    end
  else
    match Str.split_ws line with
    | [] => (Ok None, self)
    | part0 :: args =>
        let mnemonic := Str.lower part0 in
        match MNEMONICS !! mnemonic with
        | None => (Raise (UnknownMnemonic mnemonic), self)
        | Some opcode =>
            let cmd :=
              mkCmd (current_address self) opcode mnemonic args line
                    None None None in
            let advanced :=
              mkAssembler (program self) (labels self)
                          (current_address self + 1) in
            match opcode with
            | CONST =>
                match args with
                | [arg] =>
                    match try_number CONST 0xFFFF arg with
                    | Ok value => (Ok (Some (set_value cmd value)), advanced)
                    | Raise _ => (Ok (Some (set_label cmd arg)), advanced)
                    end
                | _ => (Raise (ArityError CONST line), self)
                end
            | LOAD =>
                match args with
                | [arg] =>
                    match try_number LOAD 0xFFFFFF arg with
                    | Ok addr =>
                        (Ok (Some (set_address_arg cmd addr)), advanced)
                    | Raise _ => (Ok (Some (set_label cmd arg)), advanced)
                    end
                | _ => (Raise (ArityError LOAD line), self)
                end
            | STORE =>
                match args with
                | [] => (Ok (Some cmd), advanced)
                | _ => (Raise (ArityError STORE line), self)
                end
            | BITREV =>
                match args with
                | [] => (Ok (Some cmd), advanced)
                | _ => (Raise (ArityError BITREV line), self)
                end
            end
        end
    end.

(** The first loop of [assemble]: every line is parsed, the instructions
    yielded are appended to [self.program], and an error is re-raised with
    the number of its line. *)
Fixpoint first_pass (lines : list string) (line_num : Z) (self : Assembler)
  : result unit * Assembler :=
  match lines with
  | [] => (Ok tt, self)
  | line :: rest =>
      match parse_line line self with
      | (Ok (Some cmd), self) =>
          first_pass rest (line_num + 1)
            (mkAssembler (program self ++ [cmd]) (labels self)
                         (current_address self))
      | (Ok None, self) => first_pass rest (line_num + 1) self
      | (Raise e, self) => (Raise (AtLine line_num e), self)
      end
  end.

(** One step of the second loop of [assemble] on an instruction whose label
    is known to be bound to [a]. *)
Definition resolve (cmd : Cmd) (a : Z) : Cmd :=
  match opcode cmd with
  | CONST => del_label (set_value cmd a)
  | LOAD => del_label (set_address_arg cmd a)
  | _ => cmd
  end.

(** The second loop of [assemble].  The instructions are updated in place,
    so the list returned is [self.program] as the loop leaves it: when an
    unknown label stops the loop, the instructions before it are already
    resolved. *)
Fixpoint second_pass (labels : gmap string Z) (prog : list Cmd)
  : result unit * list Cmd :=
  match prog with
  | [] => (Ok tt, [])
  | cmd :: rest =>
      match label cmd with
      | Some l =>
          match labels !! l with
          | None => (Raise (UnknownLabel l), cmd :: rest)
          | Some a =>
              let '(r, rest') := second_pass labels rest in
              (r, resolve cmd a :: rest')
          end
      | None =>
          let '(r, rest') := second_pass labels rest in
          (r, cmd :: rest')
      end
  end.

(** [Assembler.assemble] *)
Definition assemble (source : string) (self : Assembler)
  : result (list Cmd) * Assembler :=
  let self := mkAssembler [] (labels self) (current_address self) in
  let self := mkAssembler (program self) ∅ (current_address self) in
  let self := mkAssembler (program self) (labels self) 0 in
  let lines := Str.split "010" source in
  match first_pass lines 1 self with
  | (Raise e, self) => (Raise e, self)
  | (Ok _, self) =>
      match second_pass (labels self) (program self) with
      | (Raise e, prog) =>
          (Raise e, mkAssembler prog (labels self) (current_address self))
      | (Ok _, prog) =>
          (Ok prog, mkAssembler prog (labels self) (current_address self))
      end
  end.

(** The label an instruction line refers to: the argument of a CONST or
    LOAD line that is not read as a number within the range of the
    operand. *)
Definition refers (line : string) : option string :=
  if is_instruction line then
    match Str.split_ws (clean line) with
    | [part0; arg] =>
        match MNEMONICS !! Str.lower part0 with
        | Some CONST =>
            match try_number CONST 0xFFFF arg with
            | Ok _ => None
            | Raise _ => Some arg
            end
        | Some LOAD =>
            match try_number LOAD 0xFFFFFF arg with
            | Ok _ => None
            | Raise _ => Some arg
            end
        | _ => None
        end
    | _ => None
    end
  else None.

(** The lines that [parse_line] reads without error whatever the labels
    bound so far: the lines that hold no instruction, and the instructions
    whose first word is a mnemonic of the table, with as many arguments as
    its opcode takes. *)
Definition well_shaped (line : string) : bool :=
  negb (is_instruction line) ||
  match Str.split_ws (clean line) with
  | part0 :: args =>
      match MNEMONICS !! Str.lower part0 with
      | Some op => (length args =? arity op)%nat
      | None => false
      end
  | [] => true
  end.

(** The sources without an error of their own: every line is well shaped
    and no label is declared twice. *)
Definition well_formed (lines : list string) : Prop :=
  Forall (fun line => well_shaped line = true) lines /\
  NoDup (omap declares lines).

(** The first reference, in the order of the lines, to a label that no line
    declares. *)
Definition undeclared (lines : list string) : option string :=
  List.find (fun l => bool_decide (l ∉ omap declares lines))
            (omap refers lines).

(** The state of the first pass as far as the references go: the
    instruction of an instruction line sits at the index that is the number
    of instruction lines before it, and it carries a label exactly when the
    line refers to one. *)
Record reference_inv (done : list string) (self : Assembler) : Prop := {
  ref_length : Z.of_nat (length (program self)) = count_instructions done;
  ref_labels : omap label (program self) = omap refers done;
  ref_cmds :
    forall (i : nat) line,
      done !! i = Some line -> is_instruction line = true ->
      exists raw,
        program self !! Z.to_nat (count_instructions (take i done)) =
          Some raw /\
        label raw = refers line
}.

(** ** The line parser *)

Lemma endswith_nonempty (s : string) (c : ascii) :
  Str.endswith s c = true -> s <> EmptyString.
Proof. destruct s; [discriminate|congruence]. Qed.

Lemma eqb_empty_false (s : string) :
  s <> EmptyString -> String.eqb s "" = false.
Proof. intros H. apply String.eqb_neq. exact H. Qed.

(** A blank line or a line that holds only a comment yields nothing. *)
Lemma parse_line_blank (line : string) (self : Assembler) :
  clean line = EmptyString -> parse_line line self = (Ok None, self).
Proof.
  intros H. unfold parse_line. fold (clean line). rewrite H.
  reflexivity.
Qed.

(** A label definition, for a name that is free and for one that is
    taken. *)
Lemma parse_line_label (line : string) (self : Assembler) :
  Str.endswith (clean line) ":" = true ->
  parse_line line self =
    let name := Str.strip (Str.init (clean line)) in
    match labels self !! name with
    | Some _ => (Raise (DuplicateLabel name), self)
    | None =>
        (Ok None,
         mkAssembler (program self)
                     (<[name := current_address self]> (labels self))
                     (current_address self))
    end.
Proof.
  intros H. unfold parse_line. fold (clean line).
  rewrite (eqb_empty_false _ (endswith_nonempty _ _ H)), H. reflexivity.
Qed.

(** A CONST or LOAD line with one argument always yields an instruction:
    the argument is an immediate value when the [try] body accepts it and a
    label reference otherwise. *)
Lemma parse_line_operand (line part0 arg : string) (op : Opcode)
      (self : Assembler) :
  is_instruction line = true ->
  Str.split_ws (clean line) = [part0; arg] ->
  MNEMONICS !! Str.lower part0 = Some op ->
  op = CONST \/ op = LOAD ->
  parse_line line self =
    let cmd := mkCmd (current_address self) op (Str.lower part0) [arg]
                     (clean line) None None None in
    (Ok (Some
           match op with
           | CONST =>
               match try_number CONST 0xFFFF arg with
               | Ok v => set_value cmd v
               | Raise _ => set_label cmd arg
               end
           | _ =>
               match try_number LOAD 0xFFFFFF arg with
               | Ok v => set_address_arg cmd v
               | Raise _ => set_label cmd arg
               end
           end),
     mkAssembler (program self) (labels self) (current_address self + 1)).
Proof.
  unfold is_instruction. intros Hi Hs Hm Hop.
  apply andb_prop in Hi as [He Hl].
  apply negb_true_iff in He, Hl.
  unfold parse_line. fold (clean line). rewrite He, Hl, Hs, Hm.
  destruct Hop as [-> | ->]; cbv zeta;
    match goal with |- context [try_number ?o ?m ?a] =>
      destruct (try_number o m a) end; reflexivity.
Qed.

Lemma lstrip_head (s t : string) (c : ascii) :
  Str.lstrip s = String c t -> Str.isspace c = false.
Proof.
  induction s as [|d s IH]; simpl; [discriminate|].
  destruct (Str.isspace d) eqn:Hd; [exact IH|].
  intros H. inversion H; subst. exact Hd.
Qed.

Lemma rstrip_head (s t : string) (c d : ascii) :
  Str.rstrip (String c s) = String d t -> d = c.
Proof.
  simpl. destruct (Str.rstrip s); [destruct (Str.isspace c)|];
    intros H; inversion H; reflexivity.
Qed.

Lemma strip_head (s t : string) (c : ascii) :
  Str.strip s = String c t -> Str.isspace c = false.
Proof.
  unfold Str.strip. destruct (Str.lstrip s) as [|d u] eqn:Hl; [discriminate|].
  intros H. apply rstrip_head in H. subst. exact (lstrip_head _ _ _ Hl).
Qed.

(** A text that starts with a character that is no white space has a first
    word. *)
Lemma split_ws_nonempty (t : string) (c : ascii) :
  Str.isspace c = false -> Str.split_ws (String c t) <> [].
Proof.
  intros H. simpl. rewrite H. destruct t as [|d t]; [discriminate|].
  destruct (Str.isspace d); [discriminate|].
  destruct (Str.split_ws (String d t)); discriminate.
Qed.

Lemma split_ws_clean (line : string) :
  clean line <> EmptyString -> Str.split_ws (clean line) <> [].
Proof.
  unfold clean. intros H.
  destruct (Str.strip _) as [|c t] eqn:Hs; [congruence|].
  apply split_ws_nonempty. exact (strip_head _ _ _ Hs).
Qed.

Lemma declares_instruction (line : string) :
  is_instruction line = true -> declares line = None.
Proof.
  unfold is_instruction, declares. intros H.
  apply andb_prop in H as [_ H]. apply negb_true_iff in H. rewrite H.
  reflexivity.
Qed.

(** What a line that yields an instruction does: the instruction takes the
    current address, the address counter advances, nothing else changes,
    and only CONST and LOAD instructions refer to a label. *)
Lemma parse_line_yields (line : string) (self self' : Assembler) (cmd : Cmd) :
  parse_line line self = (Ok (Some cmd), self') ->
  is_instruction line = true /\
  address cmd = current_address self /\
  self' = mkAssembler (program self) (labels self) (current_address self + 1) /\
  (forall l, label cmd = Some l -> opcode cmd = CONST \/ opcode cmd = LOAD).
Proof.
  unfold parse_line, is_instruction. fold (clean line).
  destruct (String.eqb (clean line) "") eqn:He; [discriminate|].
  destruct (Str.endswith (clean line) ":") eqn:Hl.
  { destruct (labels self !! _); discriminate. }
  destruct (Str.split_ws (clean line)) as [|part0 args]; [discriminate|].
  destruct (MNEMONICS !! Str.lower part0) as [op|]; [|discriminate].
  destruct op; destruct args as [|arg [|]]; try discriminate;
    try destruct (try_number _ _ arg);
    intros H; inversion H; subst; clear H; simpl;
    (repeat split; try reflexivity; try discriminate; auto).
Qed.

(** What a line that yields nothing does: it is blank, or it declares a
    label that was free and is now bound to the current address. *)
Lemma parse_line_nothing (line : string) (self self' : Assembler) :
  parse_line line self = (Ok None, self') ->
  is_instruction line = false /\
  match declares line with
  | Some l =>
      labels self !! l = None /\
      self' = mkAssembler (program self)
                          (<[l := current_address self]> (labels self))
                          (current_address self)
  | None => self' = self
  end.
Proof.
  unfold parse_line, is_instruction, declares. fold (clean line).
  destruct (String.eqb (clean line) "") eqn:He.
  { apply String.eqb_eq in He. rewrite He. simpl.
    intros H; inversion H; auto. }
  destruct (Str.endswith (clean line) ":") eqn:Hl.
  { destruct (labels self !! _) eqn:Hf; [discriminate|].
    intros H; inversion H; auto. }
  apply String.eqb_neq in He. pose proof (split_ws_clean _ He) as Hne.
  destruct (Str.split_ws (clean line)) as [|part0 args]; [congruence|].
  destruct (MNEMONICS !! Str.lower part0) as [op|]; [|discriminate].
  destruct op; destruct args as [|arg [|]]; try discriminate;
    destruct (try_number _ _ arg); discriminate.
Qed.

(** A line that fails leaves the instance as it was. *)
Lemma parse_line_raises (line : string) (self self' : Assembler)
      (e : ValueError) :
  parse_line line self = (Raise e, self') -> self' = self.
Proof.
  unfold parse_line. fold (clean line).
  destruct (String.eqb (clean line) ""); [discriminate|].
  destruct (Str.endswith (clean line) ":").
  { destruct (labels self !! _); intros H; inversion H; reflexivity. }
  destruct (Str.split_ws (clean line)) as [|part0 args]; [discriminate|].
  destruct (MNEMONICS !! Str.lower part0) as [op|];
    [|intros H; inversion H; reflexivity].
  destruct op; destruct args as [|arg [|]];
    try destruct (try_number _ _ arg);
    intros H; inversion H; reflexivity.
Qed.

(** The names of the mnemonic table. *)
Lemma MNEMONICS_names (m : string) (op : Opcode) :
  MNEMONICS !! m = Some op ->
  m = "store" \/ m = "load" \/ m = "const" \/ m = "bitrev".
Proof.
  unfold MNEMONICS. intros H. apply elem_of_list_to_map_2 in H.
  repeat (apply elem_of_cons in H as [H|H]; [inversion H; auto|]).
  apply elem_of_nil in H. destruct H.
Qed.

(** ** Claims about the assembly driver *)

(** C1.  What the code does with a numeric literal that is out of range:
    [parse_line] never fails with ValueOutOfRange, since the error is raised
    inside the [try] statement whose handler turns the argument into a
    label reference: a CONST or LOAD line whose argument is a number out of
    range yields an instruction that refers to a label named like the
    argument.  The source [const 70000] is therefore rejected as a reference
    to the unknown label 70000, and it is accepted, with the address of the
    label as its value, once a label 70000 is declared. *)
Theorem out_of_range_literal_is_a_label_reference (self : Assembler) :
  (forall line op v,
      fst (parse_line line self) <> Raise (ValueOutOfRange op v)) /\
  (forall line part0 arg op n,
      is_instruction line = true ->
      Str.split_ws (clean line) = [part0; arg] ->
      MNEMONICS !! Str.lower part0 = Some op ->
      parse_number arg = Ok n ->
      op = CONST /\ ~ 0 <= n <= 65535 \/ op = LOAD /\ ~ 0 <= n <= 16777215 ->
      parse_line line self =
        (Ok (Some (mkCmd (current_address self) op (Str.lower part0) [arg]
                         (clean line) None None (Some arg))),
         mkAssembler (program self) (labels self)
                     (current_address self + 1))) /\
  try_number CONST 0xFFFF "70000" = Raise (ValueOutOfRange CONST 70000) /\
  fst (assemble "const 70000" self) = Raise (UnknownLabel "70000") /\
  fst (assemble (source_of ["70000:"; "const 70000"]) self) =
    Ok [mkCmd 0 CONST "const" ["70000"] "const 70000" (Some 0) None None].
Proof.
  split; [|split; [|repeat split; vm_compute; reflexivity]].
  - intros line op v. unfold parse_line.
    repeat match goal with
           | |- context [match ?x with _ => _ end] => destruct x
           | |- context [if ?x then _ else _] => destruct x
           end; simpl; discriminate.
  - intros line part0 arg op n Hi Hs Hm Hn Hop.
    rewrite (parse_line_operand line part0 arg op self Hi Hs Hm)
      by (destruct Hop as [[-> _] | [-> _]]; auto).
    cbv zeta. unfold try_number. rewrite Hn.
    destruct Hop as [[-> Hr] | [-> Hr]].
    + replace ((0 <=? n) && (n <=? 65535)) with false; [reflexivity|].
      symmetry. apply andb_false_iff.
      destruct (Z.leb_spec 0 n); [right; apply Z.leb_gt; lia | left; reflexivity].
    + replace ((0 <=? n) && (n <=? 16777215)) with false; [reflexivity|].
      symmetry. apply andb_false_iff.
      destruct (Z.leb_spec 0 n); [right; apply Z.leb_gt; lia | left; reflexivity].
Qed.

(** C2.  What the code does with the three-line source [const 0x64],
    [const 0b1100100], [const 0144]: the third literal has no [0o] prefix
    and is read as the decimal number 144, so the third instruction and its
    word differ from the first two.  Octal 144, which is 100, has to be
    written [0o144]. *)
Theorem leading_zero_literal_is_decimal (self : Assembler) :
  fst (assemble (source_of ["const 0x64"; "const 0b1100100"; "const 0144"])
                self) =
    Ok [mkCmd 0 CONST "const" ["0x64"] "const 0x64" (Some 100) None None;
        mkCmd 1 CONST "const" ["0b1100100"] "const 0b1100100" (Some 100)
              None None;
        mkCmd 2 CONST "const" ["0144"] "const 0144" (Some 144) None None] /\
  to_binary
    [mkCmd 0 CONST "const" ["0x64"] "const 0x64" (Some 100) None None;
     mkCmd 1 CONST "const" ["0b1100100"] "const 0b1100100" (Some 100)
           None None;
     mkCmd 2 CONST "const" ["0144"] "const 0144" (Some 144) None None] =
    Some [Byte.x2a; Byte.x19; Byte.x00; Byte.x00;
          Byte.x2a; Byte.x19; Byte.x00; Byte.x00;
          Byte.x2a; Byte.x24; Byte.x00; Byte.x00] /\
  parse_number "0144" = Ok 144 /\
  parse_number "0o144" = Ok 100.
Proof. repeat split; vm_compute; reflexivity. Qed.

(** C9.  The outcome of [assemble] and the instance it leaves depend on the
    source text only: on any instance, in particular on one that has
    assembled other sources before, the call gives what it gives on a new
    instance. *)
Theorem assemble_starts_afresh (source : string) (self : Assembler)
        (history : list string) :
  assemble source self = assemble source Assembler_init /\
  fst (assemble source (after_calls assemble history)) =
    fst (assemble source Assembler_init).
Proof. split; reflexivity. Qed.

(** C7 (amended).  A label definition for a free name binds exactly that
    name to the current address, yields no instruction and leaves the
    address counter and the program as they are, so that the instruction
    parsed next sits at the bound address; a name that is already bound is
    rejected.  Assembling [start:], [const 42], [load start] yields two
    instructions, binds [start] to 0 and resolves the operand of LOAD to 0;
    the bytes are AA 0A 00 00 17 00 00 00, the word of CONST 42 being
    (42 << 6) | 42 = 0xAAA. *)
Theorem label_definition_binds_next_address (line : string)
        (self : Assembler) :
  Str.endswith (clean line) ":" = true ->
  labels self !! Str.strip (Str.init (clean line)) = None ->
  let name := Str.strip (Str.init (clean line)) in
  let self' :=
    mkAssembler (program self)
                (<[name := current_address self]> (labels self))
                (current_address self) in
  parse_line line self = (Ok None, self') /\
  (forall other, other <> name -> labels self' !! other = labels self !! other) /\
  (forall next cmd self'',
      parse_line next self' = (Ok (Some cmd), self'') ->
      address cmd = current_address self /\
      labels self'' !! name = Some (address cmd)) /\
  parse_line line self' = (Raise (DuplicateLabel name), self') /\
  let run := assemble (source_of ["start:"; "const 42"; "load start"]) self in
  let prog :=
    [mkCmd 0 CONST "const" ["42"] "const 42" (Some 42) None None;
     mkCmd 1 LOAD "load" ["start"] "load start" None (Some 0) None] in
  fst run = Ok prog /\
  labels (snd run) !! "start" = Some 0 /\
  to_binary prog =
    Some [Byte.xaa; Byte.x0a; Byte.x00; Byte.x00;
          Byte.x17; Byte.x00; Byte.x00; Byte.x00].
Proof.
  intros Hl Hfree name self'. subst name self'.
  split; [|split; [|split; [|split]]].
  - rewrite (parse_line_label _ _ Hl). cbv zeta. rewrite Hfree. reflexivity.
  - intros other Hne. simpl. apply lookup_insert_ne. congruence.
  - intros next cmd self'' H.
    apply parse_line_yields in H as (_ & Ha & -> & _).
    simpl in *. rewrite Ha. split; [reflexivity|].
    apply lookup_insert_eq.
  - rewrite (parse_line_label _ _ Hl). cbv zeta.
    simpl. rewrite lookup_insert_eq. reflexivity.
  - repeat split; vm_compute; reflexivity.
Qed.

(** C10.  A label may carry the name of a mnemonic: its definition is
    accepted like any other, the name is no numeric literal, and a CONST or
    LOAD argument equal to it is resolved to the address the label is bound
    to. *)
Theorem label_named_like_a_mnemonic (m : string) (op : Opcode)
        (self : Assembler) :
  MNEMONICS !! m = Some op ->
  (labels self !! m = None ->
   parse_line (m +:+ ":") self =
     (Ok None,
      mkAssembler (program self)
                  (<[m := current_address self]> (labels self))
                  (current_address self))) /\
  parse_number m = Raise (InvalidLiteral 10 m) /\
  fst (assemble (source_of ["bitrev"; m +:+ ":"; "const " +:+ m;
                            "load " +:+ m]) self) =
    Ok [mkCmd 0 BITREV "bitrev" [] "bitrev" None None None;
        mkCmd 1 CONST "const" [m] ("const " +:+ m) (Some 1) None None;
        mkCmd 2 LOAD "load" [m] ("load " +:+ m) None (Some 1) None].
Proof.
  intros Hm.
  apply MNEMONICS_names in Hm as [-> | [-> | [-> | ->]]];
    (split; [|split; vm_compute; reflexivity]);
    intros Hfree;
    (rewrite parse_line_label; [|vm_compute; reflexivity]);
    match goal with
    | |- context [Str.strip (Str.init (clean ?l))] =>
        let n := eval vm_compute in (Str.strip (Str.init (clean l))) in
        change (Str.strip (Str.init (clean l))) with n
    end; cbv zeta; rewrite Hfree; reflexivity.
Qed.

(** ** The two passes *)

Lemma count_instructions_app (l1 l2 : list string) :
  count_instructions (l1 ++ l2) =
    count_instructions l1 + count_instructions l2.
Proof. induction l1 as [|x l1 IH]; simpl; [reflexivity|]. rewrite IH. lia. Qed.

Lemma first_pass_inv_init : first_pass_inv [] Assembler_init.
Proof.
  split; simpl.
  - reflexivity.
  - intros k def l H. rewrite lookup_nil in H. discriminate.
  - intros l a H. rewrite lookup_empty in H. discriminate.
  - constructor.
Qed.

(** An instruction line keeps the invariant. *)
Lemma first_pass_inv_instruction (done : list string) (line : string)
      (self : Assembler) (cmd : Cmd) :
  first_pass_inv done self ->
  is_instruction line = true ->
  (forall l, label cmd = Some l -> opcode cmd = CONST \/ opcode cmd = LOAD) ->
  first_pass_inv (done ++ [line])
    (mkAssembler (program self ++ [cmd]) (labels self)
                 (current_address self + 1)).
Proof.
  intros [Ha Hd Hb Hp] Hi Hc. split; simpl.
  - rewrite count_instructions_app. simpl. rewrite Hi. lia.
  - intros k def l Hk Hdef.
    apply lookup_app_Some in Hk as [Hk | [_ Hk]].
    + rewrite take_app_le by (apply Nat.lt_le_incl; exact (lookup_lt_Some _ _ _ Hk)).
      exact (Hd k def l Hk Hdef).
    + apply list_lookup_singleton_Some in Hk as [_ <-].
      rewrite (declares_instruction _ Hi) in Hdef. discriminate.
  - intros l a Hl. destruct (Hb l a Hl) as (k & def & Hk & Hdef).
    exists k, def. split; [apply lookup_app_l_Some; exact Hk|exact Hdef].
  - apply Forall_app. split; [exact Hp|]. constructor; [exact Hc|constructor].
Qed.

(** A line that yields nothing keeps the invariant. *)
Lemma first_pass_inv_nothing (done : list string) (line : string)
      (self self' : Assembler) :
  first_pass_inv done self ->
  parse_line line self = (Ok None, self') ->
  first_pass_inv (done ++ [line]) self'.
Proof.
  intros [Ha Hd Hb Hp] H.
  apply parse_line_nothing in H as [Hi H].
  assert (Hcount : count_instructions (done ++ [line]) =
                   count_instructions done).
  { rewrite count_instructions_app. simpl. rewrite Hi. lia. }
  destruct (declares line) as [name|] eqn:Hname.
  - destruct H as [Hfree ->]. split; simpl.
    + rewrite Hcount. exact Ha.
    + intros k def l Hk Hdef.
      apply lookup_app_Some in Hk as [Hk | [Hlen Hk]].
      * rewrite take_app_le
          by (apply Nat.lt_le_incl; exact (lookup_lt_Some _ _ _ Hk)).
        pose proof (Hd k def l Hk Hdef) as Hl.
        rewrite lookup_insert_ne; [exact Hl|]. congruence.
      * apply list_lookup_singleton_Some in Hk as [Hk <-].
        assert (k = length done) as -> by lia.
        rewrite take_app_length.
        assert (l = name) as -> by congruence.
        rewrite lookup_insert_eq, Ha. reflexivity.
    + intros l a Hl. destruct (decide (name = l)) as [<-|Hne].
      * exists (length done), line. split; [|exact Hname].
        apply list_lookup_middle. reflexivity.
      * rewrite lookup_insert_ne in Hl by exact Hne.
        destruct (Hb l a Hl) as (k & def & Hk & Hdef).
        exists k, def. split; [apply lookup_app_l_Some; exact Hk|exact Hdef].
    + exact Hp.
  - subst self'. split.
    + rewrite Hcount. exact Ha.
    + intros k def l Hk Hdef.
      apply lookup_app_Some in Hk as [Hk | [_ Hk]].
      * rewrite take_app_le
          by (apply Nat.lt_le_incl; exact (lookup_lt_Some _ _ _ Hk)).
        exact (Hd k def l Hk Hdef).
      * apply list_lookup_singleton_Some in Hk as [_ <-]. congruence.
    + intros l a Hl. destruct (Hb l a Hl) as (k & def & Hk & Hdef).
      exists k, def. split; [apply lookup_app_l_Some; exact Hk|exact Hdef].
    + exact Hp.
Qed.

(** A first pass that completes establishes the invariant for all the
    lines. *)
Lemma first_pass_completes (rest : list string) :
  forall (done : list string) (line_num : Z) (self self' : Assembler) u,
    first_pass_inv done self ->
    first_pass rest line_num self = (Ok u, self') ->
    first_pass_inv (done ++ rest) self'.
Proof.
  induction rest as [|line rest IH]; intros done line_num self self' u Hinv H.
  - simpl in H. inversion H; subst. rewrite app_nil_r. exact Hinv.
  - simpl in H.
    destruct (parse_line line self) as [[[cmd|]|e] s1] eqn:Hp.
    + apply parse_line_yields in Hp as (Hi & _ & -> & Hc). simpl in H.
      replace (done ++ line :: rest) with ((done ++ [line]) ++ rest)
        by (rewrite <- app_assoc; reflexivity).
      eapply IH; [|exact H].
      apply first_pass_inv_instruction; assumption.
    + replace (done ++ line :: rest) with ((done ++ [line]) ++ rest)
        by (rewrite <- app_assoc; reflexivity).
      eapply IH; [|exact H].
      eapply first_pass_inv_nothing; eassumption.
    + discriminate.
Qed.

(** An error of the first pass carries the number of its line. *)
Lemma first_pass_raises (lines : list string) :
  forall (line_num : Z) (self self' : Assembler) e,
    first_pass lines line_num self = (Raise e, self') ->
    exists n e', e = AtLine n e'.
Proof.
  induction lines as [|line rest IH]; intros line_num self self' e H;
    simpl in H; [discriminate|].
  destruct (parse_line line self) as [[[cmd|]|e0] s1];
    [eapply IH; exact H|eapply IH; exact H|].
  inversion H; subst. eauto.
Qed.

Lemma resolve_operand (cmd : Cmd) (a : Z) :
  opcode cmd = CONST \/ opcode cmd = LOAD ->
  label (resolve cmd a) = None /\ operand (resolve cmd a) = Some a /\
  opcode (resolve cmd a) = opcode cmd.
Proof.
  unfold resolve, operand. intros [H | H]; rewrite H; simpl; rewrite ?H; auto.
Qed.

(** A second pass that completes has replaced every label reference by the
    address of the label and has left the other instructions alone. *)
Lemma second_pass_completes (L : gmap string Z) (prog : list Cmd) :
  forall prog' u,
    second_pass L prog = (Ok u, prog') ->
    length prog' = length prog /\
    forall (i : nat) raw,
      prog !! i = Some raw ->
      match label raw with
      | Some l => exists a, L !! l = Some a /\
                            prog' !! i = Some (resolve raw a)
      | None => prog' !! i = Some raw
      end.
Proof.
  induction prog as [|cmd rest IH]; intros prog' u H; simpl in H.
  - inversion H; subst. split; [reflexivity|].
    intros i raw Hi. rewrite lookup_nil in Hi. discriminate.
  - destruct (label cmd) as [l|] eqn:Hl.
    + destruct (L !! l) as [a|] eqn:Ha; [|discriminate].
      destruct (second_pass L rest) as [r rest'] eqn:Hr.
      inversion H; subst. destruct (IH _ _ eq_refl) as [Hlen Hall].
      split; [simpl; rewrite Hlen; reflexivity|].
      intros [|i] raw Hi; simpl in Hi.
      * inversion Hi; subst. rewrite Hl. exists a. split; [exact Ha|reflexivity].
      * exact (Hall i raw Hi).
    + destruct (second_pass L rest) as [r rest'] eqn:Hr.
      inversion H; subst. destruct (IH _ _ eq_refl) as [Hlen Hall].
      split; [simpl; rewrite Hlen; reflexivity|].
      intros [|i] raw Hi; simpl in Hi.
      * inversion Hi; subst. rewrite Hl. reflexivity.
      * exact (Hall i raw Hi).
Qed.

(** A second pass that fails has met a reference to a label that is not in
    the table. *)
Lemma second_pass_raises (L : gmap string Z) (prog : list Cmd) :
  forall prog' e,
    second_pass L prog = (Raise e, prog') ->
    exists l raw, e = UnknownLabel l /\ L !! l = None /\
                  raw ∈ prog /\ label raw = Some l.
Proof.
  induction prog as [|cmd rest IH]; intros prog' e H; simpl in H;
    [discriminate|].
  destruct (label cmd) as [l|] eqn:Hl.
  - destruct (L !! l) as [a|] eqn:Ha.
    + destruct (second_pass L rest) as [r rest'] eqn:Hr.
      inversion H; subst.
      destruct (IH _ _ eq_refl) as (l' & raw & -> & Hn & Hin & Hraw).
      exists l', raw. repeat split; auto. apply elem_of_cons. auto.
    + inversion H; subst. exists l, cmd. repeat split; auto.
      apply elem_of_cons. auto.
  - destruct (second_pass L rest) as [r rest'] eqn:Hr.
    inversion H; subst.
    destruct (IH _ _ eq_refl) as (l' & raw & -> & Hn & Hin & Hraw).
    exists l', raw. repeat split; auto. apply elem_of_cons. auto.
Qed.

Lemma assemble_unfold (source : string) (self : Assembler) :
  assemble source self =
    match first_pass (Str.split "010" source) 1 Assembler_init with
    | (Raise e, self) => (Raise e, self)
    | (Ok _, self) =>
        match second_pass (labels self) (program self) with
        | (Raise e, prog) =>
            (Raise e, mkAssembler prog (labels self) (current_address self))
        | (Ok _, prog) =>
            (Ok prog, mkAssembler prog (labels self) (current_address self))
        end
    end.
Proof. reflexivity. Qed.

(** ** Sources given line by line *)

Lemma split_no_separator (sep : ascii) (w : string) :
  Str.contains sep w = false -> Str.split sep w = [w].
Proof.
  induction w as [|c w IH]; simpl; [reflexivity|].
  destruct (Ascii.eqb c sep); [discriminate|].
  intros H. rewrite (IH H). reflexivity.
Qed.

Lemma split_append (sep : ascii) (w rest : string) :
  Str.contains sep w = false ->
  Str.split sep (w +:+ String sep rest) = w :: Str.split sep rest.
Proof.
  induction w as [|c w IH]; intros H.
  - change (Str.split sep (String sep rest) = "" :: Str.split sep rest).
    simpl. rewrite Ascii.eqb_refl. reflexivity.
  - change (Str.split sep (String c (w +:+ String sep rest)) =
            String c w :: Str.split sep rest).
    simpl in *. destruct (Ascii.eqb c sep); [discriminate|].
    rewrite (IH H). reflexivity.
Qed.

(** Splitting a source at the line breaks gives back its lines. *)
Lemma split_source_of (lines : list string) :
  lines <> [] ->
  Forall (fun w => Str.contains "010" w = false) lines ->
  Str.split "010" (source_of lines) = lines.
Proof.
  unfold source_of. induction lines as [|w ws IH]; [congruence|].
  intros _ Hall. inversion Hall as [|? ? Hw Hws]; subst.
  destruct ws as [|w' ws].
  - simpl. apply split_no_separator. exact Hw.
  - change (Str.join Str.nl (w :: w' :: ws))
      with (w +:+ String "010" (Str.join Str.nl (w' :: ws))).
    rewrite (split_append _ _ _ Hw). f_equal. apply IH; [discriminate|exact Hws].
Qed.

Lemma first_pass_cons (line : string) (rest : list string) (line_num : Z)
      (self : Assembler) :
  first_pass (line :: rest) line_num self =
    match parse_line line self with
    | (Ok (Some cmd), self) =>
        first_pass rest (line_num + 1)
          (mkAssembler (program self ++ [cmd]) (labels self)
                       (current_address self))
    | (Ok None, self) => first_pass rest (line_num + 1) self
    | (Raise e, self) => (Raise (AtLine line_num e), self)
    end.
Proof. reflexivity. Qed.

Lemma parse_line_store (self : Assembler) :
  parse_line "store" self =
    (Ok (Some (mkCmd (current_address self) STORE "store" [] "store"
                     None None None)),
     mkAssembler (program self) (labels self) (current_address self + 1)).
Proof. reflexivity. Qed.

Lemma parse_line_const_l (self : Assembler) :
  parse_line "const l" self =
    (Ok (Some (mkCmd (current_address self) CONST "const" ["l"] "const l"
                     None None (Some "l"))),
     mkAssembler (program self) (labels self) (current_address self + 1)).
Proof. reflexivity. Qed.

(** The first pass over [n] lines [store]. *)
Lemma first_pass_stores (n : nat) :
  forall (rest : list string) (line_num : Z) (self : Assembler),
    first_pass (replicate n "store" ++ rest) line_num self =
      first_pass rest (line_num + Z.of_nat n)
        (mkAssembler (program self ++ store_cmds (current_address self) n)
                     (labels self) (current_address self + Z.of_nat n)).
Proof.
  induction n as [|n IH]; intros rest line_num self.
  - destruct self as [p L a]. simpl.
    rewrite app_nil_r, !Z.add_0_r. reflexivity.
  - change (replicate (S n) "store" ++ rest)
      with ("store" :: (replicate n "store" ++ rest)).
    rewrite first_pass_cons, parse_line_store, IH. simpl.
    rewrite <- app_assoc. simpl.
    f_equal; [lia|]. f_equal. lia.
Qed.

(** The second pass leaves STORE instructions alone. *)
Lemma second_pass_stores (L : gmap string Z) (n : nat) :
  forall (a : Z) (rest : list Cmd),
    second_pass L (store_cmds a n ++ rest) =
      (fst (second_pass L rest), store_cmds a n ++ snd (second_pass L rest)).
Proof.
  induction n as [|n IH]; intros a rest; simpl.
  - destruct (second_pass L rest). reflexivity.
  - rewrite IH. reflexivity.
Qed.

(** A label behind [n] STORE instructions, used by a CONST instruction: the
    value of the instruction is [n], whatever [n] is. *)
Lemma assemble_label_behind_stores (n : nat) (self : Assembler) :
  fst (assemble (source_of (replicate n "store" ++ ["l:"; "const l"])) self) =
    Ok (store_cmds 0 n ++
        [mkCmd (Z.of_nat n) CONST "const" ["l"] "const l"
               (Some (Z.of_nat n)) None None]).
Proof.
  rewrite assemble_unfold, split_source_of.
  - rewrite first_pass_stores.
    rewrite first_pass_cons, parse_line_label by reflexivity.
    change (Str.strip (Str.init (clean "l:"))) with "l". cbv zeta.
    cbn [labels program current_address Assembler_init].
    rewrite lookup_empty, first_pass_cons, parse_line_const_l.
    cbn [labels program current_address first_pass app].
    rewrite second_pass_stores. cbn [second_pass label fst snd].
    rewrite lookup_insert_eq. reflexivity.
  - destruct n; discriminate.
  - apply Forall_app. split.
    + apply Forall_replicate. reflexivity.
    + repeat constructor.
Qed.

(** C4.  What the code does with a label whose address has more than 16
    bits: the second pass stores the address without a range check.  For
    the source made of 65536 lines [store], the label [l] and the line
    [const l], assembly succeeds and the CONST instruction carries the
    value 65536, which the encoder packs into bit 22 of the word, above the
    value field. *)
Theorem label_address_is_not_range_checked (self : Assembler) :
  fst (assemble (source_of overflow_lines) self) =
    Ok (store_cmds 0 (Z.to_nat 65536) ++
        [mkCmd 65536 CONST "const" ["l"] "const l" (Some 65536) None None]) /\
  encode_instruction
    (mkCmd 65536 CONST "const" ["l"] "const l" (Some 65536) None None) =
    Some [Byte.x2a; Byte.x00; Byte.x40; Byte.x00].
Proof.
  split; [|reflexivity].
  pose proof (assemble_label_behind_stores (Z.to_nat 65536) self) as H.
  rewrite Z2Nat.id in H by lia. exact H.
Qed.

(** ** Numeric literals *)

Lemma c_isspace_isspace (c : ascii) :
  PyInt.c_isspace c = true -> Str.isspace c = true.
Proof. destruct c as [[] [] [] [] [] [] [] []]; simpl; auto. Qed.

Lemma acceptable_space (base : Z) (c : ascii) :
  Str.isspace c = true -> acceptable base c = true.
Proof.
  intros H. unfold acceptable, tolerated. rewrite H. orb_true.
Qed.

Lemma acceptable_underscore (base : Z) (c : ascii) :
  Ascii.eqb c "_" = true -> acceptable base c = true.
Proof.
  intros H. unfold acceptable, tolerated. rewrite H. orb_true.
Qed.

Lemma not_acceptable_question_mark (base : Z) :
  base <= 36 -> acceptable base "?" = false.
Proof.
  intros H. unfold acceptable, tolerated, is_digit, PyInt.prefix_letter.
  simpl. rewrite !andb_false_r. simpl. rewrite orb_false_r.
  apply Z.ltb_ge. change (PyInt.digit_value "?") with 37. lia.
Qed.

Lemma all_contains (p : ascii -> bool) (s : string) (c : ascii) :
  Str.all p s = true -> Str.contains c s = true -> p c = true.
Proof.
  induction s as [|d s IH]; simpl; [discriminate|].
  intros Ha Hc. apply andb_prop in Ha as [Hd Hs].
  destruct (Ascii.eqb d c) eqn:He; [|exact (IH Hs Hc)].
  apply Ascii.eqb_eq in He. subst. exact Hd.
Qed.

Lemma all_transform_slow (base : Z) (s : string) :
  base <= 36 ->
  Str.all (acceptable base) (PyInt.transform_slow s) = true ->
  Str.all (acceptable base) s = true.
Proof.
  intros Hb. induction s as [|c s IH]; simpl; [reflexivity|].
  destruct (N_of_ascii c <? 127)%N.
  - simpl. intros H. apply andb_prop in H as [Hc Hs].
    rewrite Hc, (IH Hs). reflexivity.
  - destruct (Str.isspace c) eqn:Hsp.
    + simpl. intros H. apply andb_prop in H as [_ Hs].
      rewrite (acceptable_space _ _ Hsp), (IH Hs). reflexivity.
    + simpl. rewrite (not_acceptable_question_mark _ Hb). discriminate.
Qed.

Lemma all_transform (base : Z) (s : string) :
  base <= 36 ->
  Str.all (acceptable base) (PyInt.transform s) = true ->
  Str.all (acceptable base) s = true.
Proof.
  intros Hb. unfold PyInt.transform.
  destruct (Str.all PyInt.is_ascii s); [auto|].
  apply all_transform_slow. exact Hb.
Qed.

Lemma all_skip_spaces (base : Z) (s : string) :
  Str.all (acceptable base) (PyInt.skip_spaces s) = true ->
  Str.all (acceptable base) s = true.
Proof.
  induction s as [|c s IH]; simpl; [reflexivity|].
  destruct (PyInt.c_isspace c) eqn:Hc; [|auto].
  intros H. rewrite (IH H).
  rewrite (acceptable_space _ _ (c_isspace_isspace _ Hc)). reflexivity.
Qed.

Lemma all_only_spaces (base : Z) (s : string) :
  PyInt.skip_spaces s = EmptyString -> Str.all (acceptable base) s = true.
Proof.
  induction s as [|c s IH]; simpl; [reflexivity|].
  destruct (PyInt.c_isspace c) eqn:Hc; [|discriminate].
  intros H. rewrite (IH H).
  rewrite (acceptable_space _ _ (c_isspace_isspace _ Hc)). reflexivity.
Qed.

Lemma all_take_sign (base : Z) (s : string) :
  Str.all (acceptable base) (snd (PyInt.take_sign s)) = true ->
  Str.all (acceptable base) s = true.
Proof.
  destruct s as [|c s]; [auto|]. unfold PyInt.take_sign.
  destruct (Ascii.eqb c "+") eqn:Hp; simpl.
  { intros ->. unfold acceptable, tolerated. rewrite Hp. orb_true. }
  destruct (Ascii.eqb c "-") eqn:Hm; simpl; [|auto].
  intros ->. unfold acceptable, tolerated. rewrite Hp, Hm. orb_true.
Qed.

Lemma all_skip_prefix (base : Z) (s : string) :
  1 <= base ->
  Str.all (acceptable base) (PyInt.skip_prefix base s) = true ->
  Str.all (acceptable base) s = true.
Proof.
  intros Hb. destruct s as [|c0 [|c1 r]]; [auto|auto|].
  unfold PyInt.skip_prefix.
  destruct (Ascii.eqb c0 "0") eqn:H0; [|auto].
  destruct (PyInt.prefix_letter base c1) eqn:H1; [|auto].
  cbn [andb]. apply Ascii.eqb_eq in H0. subst c0.
  assert (Hz : acceptable base "0" = true).
  { unfold acceptable, is_digit. change (PyInt.digit_value "0") with 0.
    rewrite (proj2 (Z.ltb_lt 0 base)) by lia. reflexivity. }
  assert (Hl : acceptable base c1 = true).
  { unfold acceptable, tolerated. rewrite H1. orb_true. }
  intros H. cbn [Str.all]. rewrite Hz, Hl. cbn [andb].
  destruct r as [|c2 r']; [reflexivity|].
  destruct (Ascii.eqb c2 "_") eqn:H2; [|exact H].
  cbn [Str.all]. rewrite (acceptable_underscore _ _ H2), H. reflexivity.
Qed.

Lemma all_scan (base : Z) (p : string) :
  forall prev acc digits z m rest,
    PyInt.scan base p prev acc digits = Some (z, m, rest) ->
    Str.all (acceptable base) rest = true ->
    Str.all (acceptable base) p = true.
Proof.
  induction p as [|c p IH]; intros prev acc digits z m rest; simpl.
  - destruct (Ascii.eqb prev "_"); [discriminate|].
    intros H; inversion H; subst. auto.
  - destruct (Ascii.eqb c "_") eqn:Hu.
    + destruct (Ascii.eqb prev "_"); [discriminate|].
      intros H Hr. rewrite (IH _ _ _ _ _ _ H Hr).
      rewrite (acceptable_underscore _ _ Hu). reflexivity.
    + destruct (PyInt.digit_value c <? base) eqn:Hd.
      * intros H Hr. rewrite (IH _ _ _ _ _ _ H Hr).
        unfold acceptable, is_digit. rewrite Hd. reflexivity.
      * destruct (Ascii.eqb prev "_"); [discriminate|].
        intros H; inversion H; subst. auto.
Qed.

(** A text that [int] accepts holds nothing but digits of the base and
    tolerated characters. *)
Lemma from_string_accepts (base : Z) (text : string) (z : Z) :
  2 <= base <= 36 ->
  PyInt.from_string max_str_digits text base = Ok z ->
  Str.all (acceptable base) text = true.
Proof.
  intros Hb. unfold PyInt.from_string.
  destruct (PyInt.take_sign (PyInt.skip_spaces (PyInt.transform text)))
    as [sign str] eqn:Hs.
  destruct (PyInt.starts_with_underscore _); [discriminate|].
  destruct (PyInt.scan base _ "000" 0 0) as [[[v digits] rest]|] eqn:Hscan;
    [|discriminate].
  destruct (PyInt.over_limit _ _ _); [discriminate|].
  destruct (digits =? 0)%nat; [discriminate|].
  destruct (PyInt.skip_spaces rest) eqn:Hrest; [|discriminate].
  intros _. apply all_transform; [lia|]. apply all_skip_spaces.
  apply all_take_sign. rewrite Hs. simpl.
  apply all_skip_prefix; [lia|].
  eapply all_scan; [exact Hscan|]. apply all_only_spaces. exact Hrest.
Qed.

Lemma from_string_empty (base : Z) :
  PyInt.from_string max_str_digits "" base = Raise (InvalidLiteral base "").
Proof. reflexivity. Qed.

(** [parse_number] is [int] in the detected base on the text behind the
    prefix. *)
Lemma parse_number_literal (token : string) :
  parse_number token =
    PyInt.from_string max_str_digits (literal_digits token)
                      (literal_base token).
Proof.
  unfold parse_number, literal_digits, literal_base. cbv zeta.
  destruct (Str.startswith _ "0x"); [reflexivity|].
  destruct (Str.startswith _ "0b"); [reflexivity|].
  destruct (Str.startswith _ "0o"); reflexivity.
Qed.

Lemma literal_base_range (token : string) : 2 <= literal_base token <= 36.
Proof.
  unfold literal_base. cbv zeta.
  destruct (Str.startswith _ "0x"); [lia|].
  destruct (Str.startswith _ "0b"); [lia|].
  destruct (Str.startswith _ "0o"); lia.
Qed.

(** C3 (amended).  Numeric-literal parsing fails, and a CONST or LOAD line
    takes the token as a label reference, whenever the text behind the
    detected prefix is empty or holds a character that is neither a digit
    of the detected base nor one of the characters that [int] admits
    besides digits: a sign, an underscore, white space, the letter of the
    base prefix.  A token with a leading sign or with single underscores
    between its digits is a numeric literal: [+5] is the number 5, [-5] the
    number -5 and [1_0] the number 10. *)
Theorem ill_formed_literal_is_a_label_reference (token : string)
        (c : ascii) :
  Str.contains c (literal_digits token) = true /\
  is_digit (literal_base token) c = false /\
  tolerated (literal_base token) c = false \/
  literal_digits token = EmptyString ->
  (exists e, parse_number token = Raise e) /\
  (forall line part0 op self,
      is_instruction line = true ->
      Str.split_ws (clean line) = [part0; token] ->
      MNEMONICS !! Str.lower part0 = Some op ->
      op = CONST \/ op = LOAD ->
      parse_line line self =
        (Ok (Some (mkCmd (current_address self) op (Str.lower part0) [token]
                         (clean line) None None (Some token))),
         mkAssembler (program self) (labels self)
                     (current_address self + 1))) /\
  parse_number "+5" = Ok 5 /\
  parse_number "-5" = Ok (-5) /\
  parse_number "1_0" = Ok 10.
Proof.
  intros H.
  assert (Hraise : exists e, parse_number token = Raise e).
  { rewrite parse_number_literal. destruct H as [(Hc & Hd & Ht) | He].
    - destruct (PyInt.from_string _ _ _) as [z|e] eqn:Hf; [|eauto].
      apply from_string_accepts in Hf; [|apply literal_base_range].
      pose proof (all_contains _ _ _ Hf Hc) as Ha.
      unfold acceptable in Ha. rewrite Hd, Ht in Ha. discriminate.
    - rewrite He, from_string_empty. eauto. }
  split; [exact Hraise|]. split; [|repeat split; reflexivity].
  intros line part0 op self Hi Hs Hm Hop.
  rewrite (parse_line_operand _ _ _ _ _ Hi Hs Hm Hop). cbv zeta.
  destruct Hraise as [e He]. unfold try_number. rewrite He.
  destruct Hop as [-> | ->]; reflexivity.
Qed.

(** ** Further properties of the line parser *)

(** [parse_line] looks at a line only through the text left once the
    comment and the surrounding white space are removed. *)
Lemma parse_line_clean (line line' : string) (self : Assembler) :
  clean line = clean line' -> parse_line line self = parse_line line' self.
Proof.
  intros H. unfold parse_line. fold (clean line) (clean line'). rewrite H.
  reflexivity.
Qed.

Lemma contains_append (c : ascii) (s t : string) :
  Str.contains c (s +:+ t) = Str.contains c s || Str.contains c t.
Proof.
  induction s as [|d s IH]; [reflexivity|].
  change (String d s +:+ t) with (String d (s +:+ t)). simpl.
  destruct (Ascii.eqb d c); [reflexivity|exact IH].
Qed.

Lemma contains_here (c : ascii) (t : string) :
  Str.contains c (String c t) = true.
Proof. simpl. rewrite Ascii.eqb_refl. reflexivity. Qed.

Lemma split_nonempty (sep : ascii) (s : string) : Str.split sep s <> [].
Proof.
  destruct s as [|c s]; simpl; [discriminate|].
  destruct (Ascii.eqb c sep); [discriminate|].
  destruct (Str.split sep s); discriminate.
Qed.

(** Everything from the first semicolon of a line on is ignored. *)
Theorem comment_is_ignored (code comment : string) (self : Assembler) :
  Str.contains ";" code = false ->
  parse_line (code +:+ String ";" comment) self = parse_line code self.
Proof.
  intros H. apply parse_line_clean. unfold clean.
  rewrite contains_append, contains_here, orb_true_r, H.
  rewrite (split_append _ _ _ H). reflexivity.
Qed.

Lemma try_number_ok (op : Opcode) (max : Z) (arg : string) (n : Z) :
  try_number op max arg = Ok n -> parse_number arg = Ok n /\ 0 <= n <= max.
Proof.
  unfold try_number. destruct (parse_number arg) as [m|e]; [|discriminate].
  destruct ((0 <=? m) && (m <=? max)) eqn:Hr; simpl; [|discriminate].
  intros H; inversion H; subst. split; [reflexivity|].
  apply andb_prop in Hr as [H1 H2]. apply Z.leb_le in H1, H2. lia.
Qed.

Lemma parse_line_raise_iff (line : string) (self : Assembler)
      (e : ValueError) :
  fst (parse_line line self) = Raise e <->
  (exists l, declares line = Some l /\ is_Some (labels self !! l) /\
             e = DuplicateLabel l) \/
  (is_instruction line = true /\
   exists part0 args,
     Str.split_ws (clean line) = part0 :: args /\
     (MNEMONICS !! Str.lower part0 = None /\
      e = UnknownMnemonic (Str.lower part0) \/
      exists op, MNEMONICS !! Str.lower part0 = Some op /\
                 length args <> arity op /\
                 e = ArityError op (clean line))).
Proof.
  unfold parse_line, declares, is_instruction. fold (clean line).
  destruct (String.eqb (clean line) "") eqn:He.
  { apply String.eqb_eq in He. rewrite He. simpl. split; [discriminate|].
    intros [(l & H & _) | [H _]]; discriminate. }
  destruct (Str.endswith (clean line) ":") eqn:Hl.
  { simpl. destruct (labels self !! _) eqn:Hf; simpl.
    - split.
      + intros H; inversion H; subst. left. eexists. split; [reflexivity|].
        rewrite Hf. split; [eauto|reflexivity].
      + intros [(l & Hd & _ & ->) | [H _]]; [|discriminate].
        inversion Hd; subst. reflexivity.
    - split; [discriminate|].
      intros [(l & Hd & [v Hv] & _) | [H _]]; [|discriminate].
      inversion Hd; subst. congruence. }
  simpl. split.
  - intros H. right. split; [reflexivity|].
    destruct (Str.split_ws (clean line)) as [|part0 args]; [discriminate|].
    exists part0, args. split; [reflexivity|].
    destruct (MNEMONICS !! Str.lower part0) as [op|].
    + right. exists op. split; [reflexivity|].
      destruct op; destruct args as [|arg [|]]; simpl in *;
        try destruct (try_number _ _ arg); try discriminate;
        inversion H; subst; split; (discriminate || reflexivity).
    + left. inversion H; subst. auto.
  - intros [(l & H & _) | [_ (part0 & args & -> & H)]]; [discriminate|].
    destruct H as [[-> ->] | (op & -> & Hn & ->)]; [reflexivity|].
    destruct op; destruct args as [|arg [|]]; simpl in *;
      try congruence; reflexivity.
Qed.

(** The failures of [parse_line], exactly: a label that is already bound, a
    first word that is no mnemonic, a number of arguments that is not the one
    of the opcode.  A line that fails leaves the instance as it was. *)
Theorem parse_line_failures (line : string) (self : Assembler)
        (e : ValueError) :
  (fst (parse_line line self) = Raise e <->
   (exists l, declares line = Some l /\ is_Some (labels self !! l) /\
              e = DuplicateLabel l) \/
   (is_instruction line = true /\
    exists part0 args,
      Str.split_ws (clean line) = part0 :: args /\
      (MNEMONICS !! Str.lower part0 = None /\
       e = UnknownMnemonic (Str.lower part0) \/
       exists op, MNEMONICS !! Str.lower part0 = Some op /\
                  length args <> arity op /\
                  e = ArityError op (clean line)))) /\
  (fst (parse_line line self) = Raise e -> snd (parse_line line self) = self).
Proof.
  split; [apply parse_line_raise_iff|].
  destruct (parse_line line self) as [r s1] eqn:Hp. simpl. intros ->.
  exact (parse_line_raises _ _ _ _ Hp).
Qed.

Lemma parse_line_line_error (line : string) (self self' : Assembler)
      (e : ValueError) :
  parse_line line self = (Raise e, self') -> line_error e.
Proof.
  intros H. pose proof (f_equal fst H) as Hf. simpl in Hf.
  apply parse_line_raise_iff in Hf
    as [(l & _ & _ & ->) | (_ & p & a & _ & [[_ ->] | (op & _ & _ & ->)])];
    constructor.
Qed.

(** ** Further properties of the first pass *)

(** The first pass over two runs of lines is the pass over the first run
    and then, unless that fails, the pass over the second. *)
Lemma first_pass_app (l1 l2 : list string) :
  forall (line_num : Z) (self : Assembler),
    first_pass (l1 ++ l2) line_num self =
      match first_pass l1 line_num self with
      | (Ok _, self') =>
          first_pass l2 (line_num + Z.of_nat (length l1)) self'
      | (Raise e, self') => (Raise e, self')
      end.
Proof.
  induction l1 as [|line l1 IH]; intros line_num self.
  - simpl. rewrite Z.add_0_r. reflexivity.
  - change ((line :: l1) ++ l2) with (line :: (l1 ++ l2)).
    rewrite !first_pass_cons.
    destruct (parse_line line self) as [[[cmd|]|e] s1]; [| |reflexivity];
      rewrite IH; destruct (first_pass l1 _ _) as [[u|e] s2];
      try reflexivity; f_equal; simpl length; lia.
Qed.

(** A first pass that fails has stopped at its first failing line: the lines
    before it were read without error, and the error carries the number of
    the line. *)
Lemma first_pass_fails (lines : list string) :
  forall (line_num : Z) (self self' : Assembler) (e : ValueError),
    first_pass lines line_num self = (Raise e, self') ->
    exists (k : nat) line e',
      lines !! k = Some line /\ e = AtLine (line_num + Z.of_nat k) e' /\
      first_pass (take k lines) line_num self = (Ok tt, self') /\
      parse_line line self' = (Raise e', self').
Proof.
  induction lines as [|line rest IH]; intros line_num self self' e H;
    [discriminate|].
  rewrite first_pass_cons in H.
  destruct (parse_line line self) as [[[cmd|]|e0] s1] eqn:Hp.
  - destruct (IH _ _ _ _ H) as (k & l & e' & Hk & -> & Hpre & Hl).
    exists (S k), l, e'. split; [exact Hk|]. split; [f_equal; lia|].
    split; [|exact Hl].
    change (take (S k) (line :: rest)) with (line :: take k rest).
    rewrite first_pass_cons, Hp. exact Hpre.
  - destruct (IH _ _ _ _ H) as (k & l & e' & Hk & -> & Hpre & Hl).
    exists (S k), l, e'. split; [exact Hk|]. split; [f_equal; lia|].
    split; [|exact Hl].
    change (take (S k) (line :: rest)) with (line :: take k rest).
    rewrite first_pass_cons, Hp. exact Hpre.
  - inversion H; subst. pose proof (parse_line_raises _ _ _ _ Hp) as ->.
    exists O, line, e0. rewrite Z.add_0_r. repeat split; auto.
Qed.

(** Conversely, a line that fails behind lines read without error stops the
    first pass. *)
Lemma first_pass_stops (lines : list string) (k : nat) (line : string)
      (line_num : Z) (self self' : Assembler) (e : ValueError) u :
  lines !! k = Some line ->
  first_pass (take k lines) line_num self = (Ok u, self') ->
  fst (parse_line line self') = Raise e ->
  first_pass lines line_num self =
    (Raise (AtLine (line_num + Z.of_nat k) e), self').
Proof.
  intros Hk Hpre Hl.
  rewrite <- (take_drop_middle _ _ _ Hk), first_pass_app.
  rewrite Hpre, first_pass_cons.
  rewrite length_take_le
    by (apply Nat.lt_le_incl; exact (lookup_lt_Some _ _ _ Hk)).
  destruct (parse_line line self') as [[c|e0] s2] eqn:Hp; simpl in Hl;
    [discriminate|].
  inversion Hl; subst. rewrite (parse_line_raises _ _ _ _ Hp). reflexivity.
Qed.

Lemma parse_line_yields_shape (line : string) (self self' : Assembler)
      (cmd : Cmd) :
  parse_line line self = (Ok (Some cmd), self') -> raw_shape cmd.
Proof.
  unfold parse_line. fold (clean line).
  destruct (String.eqb (clean line) ""); [discriminate|].
  destruct (Str.endswith (clean line) ":").
  { destruct (labels self !! _); discriminate. }
  destruct (Str.split_ws (clean line)) as [|part0 args]; [discriminate|].
  destruct (MNEMONICS !! Str.lower part0) as [op|] eqn:Hm; [|discriminate].
  destruct op; destruct args as [|arg [|]]; try discriminate;
    try (destruct (try_number _ _ arg) as [v|e] eqn:Ht;
         [apply try_number_ok in Ht as [_ Hr]|]);
    intros H; inversion H; subst; clear H; unfold raw_shape; simpl;
    (split; [exact Hm|]); (split; [reflexivity|]);
    repeat split; try reflexivity;
    try (left; exists v; repeat split; (reflexivity || lia));
    try (right; repeat split; (reflexivity || discriminate)).
Qed.

Lemma program_inv_init : program_inv Assembler_init.
Proof.
  split; simpl.
  - reflexivity.
  - intros i cmd H. rewrite lookup_nil in H. discriminate.
  - intros l a H. rewrite lookup_empty in H. discriminate.
Qed.

Lemma program_inv_step (line : string) (self self' : Assembler) r :
  program_inv self ->
  parse_line line self = (r, self') ->
  program_inv
    match r with
    | Ok (Some cmd) =>
        mkAssembler (program self' ++ [cmd]) (labels self')
                    (current_address self')
    | _ => self'
    end.
Proof.
  intros [Hlen Hcmds Hlab] H. destruct r as [[cmd|]|e].
  - pose proof (parse_line_yields_shape _ _ _ _ H) as Hshape.
    apply parse_line_yields in H as (_ & Ha & -> & _). split; simpl.
    + rewrite length_app. simpl. lia.
    + intros i c Hi. apply lookup_app_Some in Hi as [Hi | [Hge Hi]].
      * exact (Hcmds i c Hi).
      * apply list_lookup_singleton_Some in Hi as [Hi <-].
        split; [|exact Hshape]. rewrite Ha. lia.
    + intros l a Hl. specialize (Hlab l a Hl). lia.
  - apply parse_line_nothing in H as [_ H].
    destruct (declares line) as [name|]; [|subst; split; assumption].
    destruct H as [_ ->]. split; simpl; [exact Hlen|exact Hcmds|].
    intros l a Hl. destruct (decide (name = l)) as [<-|Hne].
    + rewrite lookup_insert_eq in Hl. inversion Hl; subst. lia.
    + rewrite lookup_insert_ne in Hl by exact Hne. exact (Hlab l a Hl).
  - apply parse_line_raises in H. subst. split; assumption.
Qed.

(** The first pass keeps the program invariant, whether it completes or
    not. *)
Lemma first_pass_program_inv (lines : list string) :
  forall (line_num : Z) (self self' : Assembler) r,
    program_inv self ->
    first_pass lines line_num self = (r, self') ->
    program_inv self'.
Proof.
  induction lines as [|line rest IH]; intros line_num self self' r Hinv H.
  - inversion H; subst. exact Hinv.
  - rewrite first_pass_cons in H.
    destruct (parse_line line self) as [r1 s1] eqn:Hp.
    pose proof (program_inv_step _ _ _ _ Hinv Hp) as Hstep.
    destruct r1 as [[cmd|]|e].
    + exact (IH _ _ _ _ Hstep H).
    + exact (IH _ _ _ _ Hstep H).
    + inversion H; subst. exact Hstep.
Qed.

(** ** Further properties of the assembly driver *)

(** A failure of [assemble] is an unknown label, or one of the three
    failures of [parse_line] with the number of a line of the source; no
    other error ever comes out of it, in particular none about a number. *)
Theorem assemble_failures (source : string) (self : Assembler)
        (e : ValueError) :
  fst (assemble source self) = Raise e ->
  (exists l, e = UnknownLabel l) \/
  (exists n e', e = AtLine n e' /\ line_error e' /\
                1 <= n <= Z.of_nat (length (Str.split "010" source))).
Proof.
  rewrite assemble_unfold.
  destruct (first_pass _ 1 Assembler_init) as [[u|e1] s1] eqn:Hp1.
  - destruct (second_pass (labels s1) (program s1)) as [[u'|e2] prog] eqn:Hp2;
      simpl; [discriminate|].
    intros H; inversion H; subst.
    apply second_pass_raises in Hp2 as (l & raw & -> & _). left. eauto.
  - simpl. intros H; inversion H; subst.
    apply first_pass_fails in Hp1 as (k & line & e' & Hk & -> & _ & Hl).
    right. exists (1 + Z.of_nat k), e'. split; [reflexivity|].
    split; [exact (parse_line_line_error _ _ _ _ Hl)|].
    apply lookup_lt_Some in Hk. lia.
Qed.

(** The error of the first pass is that of the first line that fails, with
    its number counted from 1: [assemble] fails at line [n] with [e] exactly
    when the lines before line [n] are read without error and line [n], in
    the state they leave, fails with [e]. *)
Theorem first_failing_line_is_reported (source : string) (self : Assembler)
        (n : Z) (e : ValueError) :
  fst (assemble source self) = Raise (AtLine n e) <->
  exists (k : nat) line s,
    n = Z.of_nat k + 1 /\
    Str.split "010" source !! k = Some line /\
    first_pass (take k (Str.split "010" source)) 1 Assembler_init =
      (Ok tt, s) /\
    fst (parse_line line s) = Raise e.
Proof.
  rewrite assemble_unfold. split.
  - destruct (first_pass _ 1 Assembler_init) as [[u|e1] s1] eqn:Hp1.
    + destruct (second_pass (labels s1) (program s1)) as [[u'|e2] prog] eqn:Hp2;
        simpl; [discriminate|].
      apply second_pass_raises in Hp2 as (l & raw & -> & _). discriminate.
    + simpl. intros H; inversion H; subst.
      apply first_pass_fails in Hp1 as (k & line & e' & Hk & He & Hpre & Hl).
      inversion He; subst. exists k, line, s1.
      split; [lia|]. split; [exact Hk|]. split; [exact Hpre|].
      rewrite Hl. reflexivity.
  - intros (k & line & s & -> & Hk & Hpre & Hl).
    rewrite (first_pass_stops _ _ _ _ _ _ _ _ Hk Hpre Hl). simpl.
    do 2 f_equal. lia.
Qed.

(** A label declared twice is always rejected, referenced or not: when two
    lines declare the same label, [assemble] fails in the first pass, at the
    second declaration at the latest, and if it gets that far the error is
    the duplicate label. *)
Theorem duplicate_label_is_rejected (source : string) (self : Assembler)
        (j k : nat) (first second l : string) :
  (j < k)%nat ->
  Str.split "010" source !! j = Some first ->
  Str.split "010" source !! k = Some second ->
  declares first = Some l ->
  declares second = Some l ->
  exists n e,
    fst (assemble source self) = Raise (AtLine n e) /\
    1 <= n <= Z.of_nat k + 1 /\
    (n = Z.of_nat k + 1 -> e = DuplicateLabel l).
Proof.
  intros Hjk Hj Hk Hdj Hdk. set (lines := Str.split "010" source) in *.
  rewrite assemble_unfold. fold lines.
  destruct (first_pass (take k lines) 1 Assembler_init) as [[u|e0] s] eqn:Hpre.
  - pose proof (first_pass_completes _ _ _ _ _ _ first_pass_inv_init Hpre)
      as [_ Hd _ _]. simpl in Hd.
    assert (Hbound : is_Some (labels s !! l)).
    { eexists. apply (Hd j first l); [|exact Hdj].
      rewrite lookup_take_lt by exact Hjk. exact Hj. }
    assert (Hl : fst (parse_line second s) = Raise (DuplicateLabel l)).
    { apply parse_line_raise_iff. left. exists l. auto. }
    rewrite (first_pass_stops _ _ _ _ _ _ _ _ Hk Hpre Hl). simpl.
    eexists _, _. split; [reflexivity|]. split; [lia|]. reflexivity.
  - rewrite <- (take_drop k lines), first_pass_app, Hpre. simpl.
    apply first_pass_fails in Hpre as (k' & line & e' & Hk' & -> & _).
    apply lookup_lt_Some in Hk'. rewrite length_take in Hk'.
    eexists _, _. split; [reflexivity|]. split; lia.
Qed.

(** What a successful assembly is made of: the first pass completes, and
    each instruction returned is the one the first pass made at that place,
    with its label, if it had one, replaced by the address the label is
    bound to. *)
Lemma assemble_ok_records (source : string) (self : Assembler)
      (prog : list Cmd) :
  fst (assemble source self) = Ok prog ->
  exists s1,
    first_pass (Str.split "010" source) 1 Assembler_init = (Ok tt, s1) /\
    length prog = length (program s1) /\
    forall (i : nat) cmd,
      prog !! i = Some cmd ->
      exists raw,
        program s1 !! i = Some raw /\ raw_shape raw /\
        address raw = Z.of_nat i /\
        (label raw = None /\ cmd = raw \/
         exists l a, label raw = Some l /\ labels s1 !! l = Some a /\
                     0 <= a <= Z.of_nat (length prog) /\
                     cmd = resolve raw a).
Proof.
  rewrite assemble_unfold.
  destruct (first_pass _ 1 Assembler_init) as [[[]|e1] s1] eqn:Hp1;
    [|discriminate].
  destruct (second_pass (labels s1) (program s1)) as [[[]|e2] prog'] eqn:Hp2;
    simpl; [|discriminate].
  intros H; inversion H; subst prog'. exists s1. split; [reflexivity|].
  pose proof (first_pass_program_inv _ _ _ _ _ program_inv_init Hp1)
    as [Hlen Hcmds Hlab].
  apply second_pass_completes in Hp2 as [Hl Hall].
  split; [exact Hl|]. intros i cmd Hi.
  destruct (lookup_lt_is_Some_2 (program s1) i) as [raw Hraw].
  { rewrite <- Hl. exact (lookup_lt_Some _ _ _ Hi). }
  exists raw. destruct (Hcmds i raw Hraw) as [Ha Hs].
  split; [exact Hraw|]. split; [exact Hs|]. split; [exact Ha|].
  specialize (Hall i raw Hraw). destruct (label raw) as [l|].
  - destruct Hall as (a & Hla & Hres). right. exists l, a.
    split; [reflexivity|]. split; [exact Hla|].
    split; [|congruence]. specialize (Hlab l a Hla). lia.
  - left. split; [reflexivity|congruence].
Qed.

Lemma assembled_cmd_address (source : string) (self : Assembler)
      (prog : list Cmd) :
  fst (assemble source self) = Ok prog ->
  Z.of_nat (length prog) = count_instructions (Str.split "010" source) /\
  forall (i : nat) cmd, prog !! i = Some cmd -> address cmd = Z.of_nat i.
Proof.
  intros H. destruct (assemble_ok_records _ _ _ H) as (s1 & Hp1 & Hlen & Hall).
  split.
  - pose proof (first_pass_completes _ _ _ _ _ _ first_pass_inv_init Hp1)
      as [Ha _ _ _].
    pose proof (first_pass_program_inv _ _ _ _ _ program_inv_init Hp1)
      as [Hl _ _].
    simpl in Ha. rewrite Hlen. congruence.
  - intros i cmd Hi.
    destruct (Hall i cmd Hi) as (raw & _ & _ & Ha & [[_ ->] | Hres]);
      [exact Ha|].
    destruct Hres as (l & a & _ & _ & _ & ->). rewrite <- Ha.
    unfold resolve. destruct (opcode raw); reflexivity.
Qed.

(** Addresses are contiguous: a successful assembly returns as many
    instructions as the source has instruction lines, and the instruction at
    index [i] has the address [i]. *)
Theorem assembled_addresses (source : string) (self : Assembler)
        (prog : list Cmd) :
  fst (assemble source self) = Ok prog ->
  Z.of_nat (length prog) = count_instructions (Str.split "010" source) /\
  forall (i : nat) cmd, prog !! i = Some cmd -> address cmd = Z.of_nat i.
Proof. apply assembled_cmd_address. Qed.

Lemma assembled_cmd_keys (source : string) (self : Assembler)
      (prog : list Cmd) (i : nat) (cmd : Cmd) :
  fst (assemble source self) = Ok prog ->
  prog !! i = Some cmd ->
  label cmd = None /\
  MNEMONICS !! mnemonic cmd = Some (opcode cmd) /\
  length (args cmd) = arity (opcode cmd) /\
  match opcode cmd with
  | CONST => is_Some (value cmd) /\ address_arg cmd = None
  | LOAD => is_Some (address_arg cmd) /\ value cmd = None
  | _ => value cmd = None /\ address_arg cmd = None
  end.
Proof.
  intros H Hi. destruct (assemble_ok_records _ _ _ H) as (s1 & _ & _ & Hall).
  destruct (Hall i cmd Hi) as (raw & _ & (Hm & Hn & Hs) & _ & Hres).
  destruct Hres as [[Hl ->] | (l & a & Hl & _ & _ & ->)].
  - split; [exact Hl|]. split; [exact Hm|]. split; [exact Hn|].
    destruct (opcode raw);
      try (destruct Hs as (? & ? & ?); auto);
      destruct Hs as [Hz [(v & Hv & _) | (_ & _ & Hne)]];
      try congruence; rewrite Hv; eauto.
  - unfold resolve.
    destruct (opcode raw) eqn:Hop; simpl; rewrite ?Hop;
      try (destruct Hs as (_ & _ & Hnone); congruence);
      destruct Hs as [Hz _]; repeat split; eauto.
Qed.

(** The keys of the instructions returned: no label reference is left, the
    mnemonic is the lower-case name of the opcode, a CONST instruction has a
    value and no address, a LOAD instruction an address and no value, and a
    STORE or BITREV instruction neither. *)
Theorem assembled_keys (source : string) (self : Assembler)
        (prog : list Cmd) (i : nat) (cmd : Cmd) :
  fst (assemble source self) = Ok prog ->
  prog !! i = Some cmd ->
  label cmd = None /\
  MNEMONICS !! mnemonic cmd = Some (opcode cmd) /\
  length (args cmd) = arity (opcode cmd) /\
  match opcode cmd with
  | CONST => is_Some (value cmd) /\ address_arg cmd = None
  | LOAD => is_Some (address_arg cmd) /\ value cmd = None
  | _ => value cmd = None /\ address_arg cmd = None
  end.
Proof. apply assembled_cmd_keys. Qed.

Lemma assembled_operand_bound (source : string) (self : Assembler)
      (prog : list Cmd) (i : nat) (cmd : Cmd) (v : Z) :
  fst (assemble source self) = Ok prog ->
  prog !! i = Some cmd ->
  operand cmd = Some v ->
  0 <= v <= Z.of_nat (length prog) \/
  match opcode cmd with
  | CONST => 0 <= v <= 65535
  | _ => 0 <= v <= 16777215
  end.
Proof.
  intros H Hi Hv. destruct (assemble_ok_records _ _ _ H) as (s1 & _ & _ & Hall).
  destruct (Hall i cmd Hi) as (raw & _ & (_ & _ & Hs) & _ & Hres).
  destruct Hres as [[Hl ->] | (l & a & Hl & _ & Ha & ->)].
  - right. unfold operand in Hv.
    destruct (opcode raw); try discriminate;
      destruct Hs as [_ [(w & Hw & _ & Hr) | (Hn & _)]]; congruence.
  - left. unfold operand, resolve in Hv.
    destruct (opcode raw) eqn:Hop; simpl in Hv; rewrite ?Hop in Hv;
      try (destruct Hs as (_ & _ & Hnone); congruence);
      inversion Hv; subst; exact Ha.
Qed.

(** The operands of the instructions returned: an operand is an immediate
    value within the range of its field or the address of a label, which lies
    between 0 and the number of instructions.  So in a program of at most
    65535 instructions every operand lies within its field: a CONST value has
    16 bits and a LOAD address 24. *)
Theorem assembled_operands (source : string) (self : Assembler)
        (prog : list Cmd) (i : nat) (cmd : Cmd) (v : Z) :
  fst (assemble source self) = Ok prog ->
  prog !! i = Some cmd ->
  operand cmd = Some v ->
  (0 <= v <= Z.of_nat (length prog) \/
   match opcode cmd with
   | CONST => 0 <= v <= 65535
   | _ => 0 <= v <= 16777215
   end) /\
  (Z.of_nat (length prog) <= 65535 ->
   match opcode cmd with
   | CONST => 0 <= v <= 65535
   | _ => 0 <= v <= 16777215
   end).
Proof.
  intros H Hi Hv.
  pose proof (assembled_operand_bound _ _ _ _ _ _ H Hi Hv) as Hb.
  split; [exact Hb|]. intros Hsmall.
  destruct Hb as [Hr | Hr]; destruct (opcode cmd); lia.
Qed.

(** The operand the encoder packs for an instruction returned lies between 0
    and the larger of 16777215 and the number of instructions. *)
Lemma assembled_encoded_operand (source : string) (self : Assembler)
      (prog : list Cmd) (cmd : Cmd) :
  fst (assemble source self) = Ok prog ->
  cmd ∈ prog ->
  0 <= encoded_operand cmd <= Z.max 16777215 (Z.of_nat (length prog)).
Proof.
  intros H Hin. apply list_elem_of_lookup_1 in Hin as [i Hi].
  destruct (assemble_ok_records _ _ _ H) as (s1 & _ & _ & Hall).
  destruct (Hall i cmd Hi) as (raw & _ & (_ & _ & Hs) & _ & Hres).
  destruct Hres as [[Hl ->] | (l & a & Hl & _ & Ha & ->)].
  - unfold encoded_operand.
    destruct (opcode raw); try lia;
      destruct Hs as [_ [(w & -> & _ & Hr) | (-> & _)]]; simpl; lia.
  - unfold encoded_operand, resolve.
    destruct (opcode raw) eqn:Hop; simpl; rewrite ?Hop; simpl; lia.
Qed.

(** The number of a line does not matter to the first pass but for the
    number in its error. *)
Lemma first_pass_shift (lines : list string) (d : Z) :
  forall (line_num : Z) (self : Assembler),
    first_pass lines (line_num + d) self =
      match first_pass lines line_num self with
      | (Raise (AtLine n e), self') => (Raise (AtLine (n + d) e), self')
      | other => other
      end.
Proof.
  induction lines as [|line rest IH]; intros line_num self; [reflexivity|].
  rewrite !first_pass_cons.
  destruct (parse_line line self) as [[[cmd|]|e] s1]; [| |reflexivity];
    replace (line_num + d + 1) with (line_num + 1 + d) by lia; apply IH.
Qed.

(** A blank line, or one that holds only a comment, changes nothing but the
    numbers of the lines behind it: with the line put in anywhere, assembly
    gives the same instructions or the same unknown label, and an error of
    the first pass keeps its line if that stands before the new line and
    moves one line down otherwise. *)
Theorem blank_line_is_neutral (before after : list string) (blank : string)
        (self : Assembler) :
  clean blank = EmptyString ->
  Forall (fun w => Str.contains "010" w = false) (before ++ blank :: after) ->
  before ++ after <> [] ->
  fst (assemble (source_of (before ++ blank :: after)) self) =
    match fst (assemble (source_of (before ++ after)) self) with
    | Raise (AtLine n e) =>
        Raise (AtLine (if n <=? Z.of_nat (length before) then n else n + 1) e)
    | other => other
    end.
Proof.
  intros Hb Hall Hne.
  assert (Hall' : Forall (fun w => Str.contains "010" w = false)
                         (before ++ after)).
  { apply Forall_app in Hall as [H1 H2]. apply Forall_app. split; [exact H1|].
    inversion H2; assumption. }
  rewrite !assemble_unfold.
  rewrite (split_source_of _ Hne Hall').
  rewrite split_source_of by (try exact Hall; destruct before; discriminate).
  rewrite !first_pass_app.
  destruct (first_pass before 1 Assembler_init) as [[u|e0] s] eqn:Hpre.
  - rewrite first_pass_cons, (parse_line_blank _ _ Hb).
    rewrite (first_pass_shift after 1 (1 + Z.of_nat (length before)) s).
    destruct (first_pass after (1 + Z.of_nat (length before)) s)
      as [[u'|e1] s'] eqn:Hpost.
    + destruct (second_pass (labels s') (program s')) as [[?|e2] prog] eqn:Hp2;
        simpl; [reflexivity|].
      apply second_pass_raises in Hp2 as (l & raw & -> & _). reflexivity.
    + apply first_pass_fails in Hpost as (k & line & e' & _ & -> & _). simpl.
      replace (1 + Z.of_nat (length before) + Z.of_nat k
               <=? Z.of_nat (length before)) with false
        by (symmetry; apply Z.leb_gt; lia).
      reflexivity.
  - apply first_pass_fails in Hpre as (k & line & e' & Hk & -> & _). simpl.
    apply lookup_lt_Some in Hk.
    replace (1 + Z.of_nat k <=? Z.of_nat (length before)) with true
      by (symmetry; apply Z.leb_le; lia).
    reflexivity.
Qed.

(** ** Further properties of numeric literals *)

Lemma isspace_lower_char (c : ascii) :
  Str.isspace (Str.lower_char c) = Str.isspace c.
Proof. destruct c as [[] [] [] [] [] [] [] []]; reflexivity. Qed.

Lemma lower_char_idempotent (c : ascii) :
  Str.lower_char (Str.lower_char c) = Str.lower_char c.
Proof. destruct c as [[] [] [] [] [] [] [] []]; reflexivity. Qed.

Lemma lower_idempotent (s : string) : Str.lower (Str.lower s) = Str.lower s.
Proof.
  induction s as [|c s IH]; simpl; [reflexivity|].
  rewrite lower_char_idempotent, IH. reflexivity.
Qed.

Lemma lstrip_lower (s : string) :
  Str.lstrip (Str.lower s) = Str.lower (Str.lstrip s).
Proof.
  induction s as [|c s IH]; simpl; [reflexivity|].
  rewrite isspace_lower_char. destruct (Str.isspace c); [exact IH|reflexivity].
Qed.

Lemma rstrip_lower (s : string) :
  Str.rstrip (Str.lower s) = Str.lower (Str.rstrip s).
Proof.
  induction s as [|c s IH]; simpl; [reflexivity|].
  rewrite IH, isspace_lower_char.
  destruct (Str.rstrip s); simpl; [destruct (Str.isspace c)|]; reflexivity.
Qed.

Lemma strip_lower (s : string) :
  Str.strip (Str.lower s) = Str.lower (Str.strip s).
Proof. unfold Str.strip. rewrite lstrip_lower, rstrip_lower. reflexivity. Qed.

(** Numeric literals are read without regard to case: two tokens that are
    equal once put in lower case, such as [0XFF] and [0xff], are the same
    number or fail alike. *)
Theorem parse_number_ignores_case (s t : string) :
  Str.lower s = Str.lower t -> parse_number s = parse_number t.
Proof.
  intros H. unfold parse_number. cbv zeta.
  assert (Hst : Str.lower (Str.strip s) = Str.lower (Str.strip t))
    by (rewrite <- !strip_lower, H; reflexivity).
  rewrite Hst. reflexivity.
Qed.

(** ** References and declarations *)

Lemma refers_instruction (line : string) :
  is_instruction line = false -> refers line = None.
Proof. intros H. unfold refers. rewrite H. reflexivity. Qed.

Lemma well_shaped_nothing (line : string) :
  is_instruction line = false -> well_shaped line = true.
Proof. intros H. unfold well_shaped. rewrite H. reflexivity. Qed.

(** The instruction of a line carries the label the line refers to. *)
Lemma parse_line_yields_refers (line : string) (self self' : Assembler)
      (cmd : Cmd) :
  parse_line line self = (Ok (Some cmd), self') ->
  label cmd = refers line /\ well_shaped line = true.
Proof.
  intros H. pose proof (parse_line_yields _ _ _ _ H) as (Hi & _).
  revert H. unfold parse_line, refers, well_shaped. rewrite Hi.
  fold (clean line). unfold is_instruction in Hi.
  apply andb_prop in Hi as [He Hl].
  apply negb_true_iff in He. apply negb_true_iff in Hl. rewrite He, Hl.
  destruct (Str.split_ws (clean line)) as [|part0 args]; [discriminate|].
  destruct (MNEMONICS !! Str.lower part0) as [op|]; [|discriminate].
  destruct op; destruct args as [|arg [|]]; try discriminate;
    try destruct (try_number _ _ arg);
    intros H; inversion H; subst; clear H; simpl; split; reflexivity.
Qed.

(** A line that fails declares a label again or is not well shaped. *)
Lemma parse_line_raises_ill (line : string) (self : Assembler)
      (e : ValueError) :
  fst (parse_line line self) = Raise e ->
  (exists l, declares line = Some l /\ is_Some (labels self !! l)) \/
  well_shaped line = false.
Proof.
  intros H. apply parse_line_raise_iff in H
    as [(l & Hd & Hl & _) | (Hi & part0 & args & Hs & H)].
  - left. exists l. auto.
  - right. unfold well_shaped. rewrite Hi, Hs. simpl.
    destruct H as [[-> _] | (op & -> & Hn & _)]; [reflexivity|].
    apply Nat.eqb_neq. exact Hn.
Qed.

Lemma omap_cons_declares (line : string) (rest : list string) :
  omap declares (line :: rest) =
    match declares line with
    | Some l => l :: omap declares rest
    | None => omap declares rest
    end.
Proof. reflexivity. Qed.

(** The first pass reads some lines to the end exactly when they are well
    shaped and declare no label twice, nor a label that is already bound. *)
Lemma first_pass_ok_iff (rest : list string) :
  forall (line_num : Z) (self : Assembler),
    (exists self', first_pass rest line_num self = (Ok tt, self')) <->
    Forall (fun line => well_shaped line = true) rest /\
    NoDup (omap declares rest) /\
    forall l, l ∈ omap declares rest -> labels self !! l = None.
Proof.
  induction rest as [|line rest IH]; intros line_num self.
  - simpl. split; [intros _|intros _; eexists; reflexivity].
    split; [constructor|]. split; [constructor|].
    intros l Hl. apply elem_of_nil in Hl. destruct Hl.
  - rewrite first_pass_cons, omap_cons_declares.
    destruct (parse_line line self) as [[[cmd|]|e] s1] eqn:Hp.
    + destruct (parse_line_yields_refers _ _ _ _ Hp) as [_ Hws].
      apply parse_line_yields in Hp as (Hi & _ & -> & _).
      rewrite (declares_instruction _ Hi), IH. simpl.
      split; intros (HF & HN & HL); (split; [|split; assumption]).
      * constructor; assumption.
      * inversion HF; assumption.
    + apply parse_line_nothing in Hp as [Hi Hd].
      pose proof (well_shaped_nothing _ Hi) as Hws.
      destruct (declares line) as [name|].
      * destruct Hd as [Hfree ->]. rewrite IH. simpl.
        split; intros (HF & HN & HL).
        { split; [constructor; assumption|]. split.
          - apply NoDup_cons. split; [|exact HN]. intros Hin.
            specialize (HL name Hin). rewrite lookup_insert_eq in HL.
            discriminate.
          - intros l Hl. apply elem_of_cons in Hl as [-> | Hl];
              [exact Hfree|].
            specialize (HL l Hl).
            destruct (decide (name = l)) as [<-|Hne];
              [rewrite lookup_insert_eq in HL; discriminate|].
            rewrite lookup_insert_ne in HL by exact Hne. exact HL. }
        { apply NoDup_cons in HN as [Hnin HN].
          split; [inversion HF; assumption|]. split; [exact HN|].
          intros l Hl. rewrite lookup_insert_ne.
          - apply HL. apply elem_of_cons. right. exact Hl.
          - intros <-. exact (Hnin Hl). }
      * subst s1. rewrite IH.
        split; intros (HF & HN & HL); (split; [|split; assumption]).
        { constructor; assumption. }
        { inversion HF; assumption. }
    + split; [intros [s' H]; discriminate H|].
      intros (HF & HN & HL). exfalso.
      assert (He : fst (parse_line line self) = Raise e) by (rewrite Hp; reflexivity).
      apply parse_line_raises_ill in He as [(l & Hd & [a Ha]) | Hws].
      * rewrite Hd in HL. rewrite (HL l) in Ha; [discriminate|].
        apply elem_of_cons. left. reflexivity.
      * inversion HF; subst. congruence.
Qed.

Lemma reference_inv_init : reference_inv [] Assembler_init.
Proof.
  split; simpl; [reflexivity|reflexivity|].
  intros i line H. rewrite lookup_nil in H. discriminate.
Qed.

(** A line keeps the invariant of the references, whether it yields an
    instruction or not. *)
Lemma reference_inv_step (done : list string) (line : string)
      (self self' : Assembler) (r : option Cmd) :
  reference_inv done self ->
  parse_line line self = (Ok r, self') ->
  reference_inv (done ++ [line])
    (mkAssembler (program self' ++ option_list r) (labels self')
                 (current_address self')).
Proof.
  intros [Hlen Hlab Hcmd] Hp.
  assert (Hprog : program self' = program self).
  { destruct r as [cmd|].
    - apply parse_line_yields in Hp as (_ & _ & -> & _). reflexivity.
    - apply parse_line_nothing in Hp as [_ Hd].
      destruct (declares line); [destruct Hd as [_ ->]|subst]; reflexivity. }
  assert (Hr : is_instruction line = bool_decide (is_Some r) /\
               from_option label None r = refers line).
  { destruct r as [cmd|].
    - destruct (parse_line_yields_refers _ _ _ _ Hp) as [Hl _].
      apply parse_line_yields in Hp as (Hi & _). split; [exact Hi|exact Hl].
    - apply parse_line_nothing in Hp as [Hi _].
      split; [exact Hi|]. symmetry. exact (refers_instruction _ Hi). }
  destruct Hr as [Hi Hl]. simpl. rewrite Hprog.
  assert (Hcount : count_instructions (done ++ [line]) =
                   count_instructions done + Z.of_nat (length (option_list r))).
  { rewrite count_instructions_app. simpl. rewrite Hi.
    destruct r; simpl; reflexivity. }
  split; simpl.
  - rewrite length_app, Nat2Z.inj_add, Hlen, Hcount. reflexivity.
  - rewrite !omap_app, Hlab. f_equal. simpl. rewrite <- Hl.
    destruct r as [cmd|]; reflexivity.
  - intros i ln Hk Hins.
    apply lookup_app_Some in Hk as [Hk | [Hge Hk]].
    + rewrite take_app_le
        by (apply Nat.lt_le_incl; exact (lookup_lt_Some _ _ _ Hk)).
      destruct (Hcmd i ln Hk Hins) as (raw & Hraw & Hrl).
      exists raw. split; [apply lookup_app_l_Some; exact Hraw|exact Hrl].
    + apply list_lookup_singleton_Some in Hk as [Hk <-].
      assert (i = length done) as -> by lia.
      rewrite take_app_length, <- Hlen, Nat2Z.id.
      rewrite Hins in Hi. destruct r as [cmd|]; [|discriminate Hi].
      exists cmd. split; [|exact Hl].
      apply list_lookup_middle. reflexivity.
Qed.

Lemma reference_inv_completes (rest : list string) :
  forall (done : list string) (line_num : Z) (self self' : Assembler) u,
    reference_inv done self ->
    first_pass rest line_num self = (Ok u, self') ->
    reference_inv (done ++ rest) self'.
Proof.
  induction rest as [|line rest IH]; intros done line_num self self' u Hinv H.
  - simpl in H. inversion H; subst. rewrite app_nil_r. exact Hinv.
  - rewrite first_pass_cons in H.
    destruct (parse_line line self) as [[r|e] s1] eqn:Hp; [|discriminate].
    pose proof (reference_inv_step _ _ _ _ _ Hinv Hp) as Hstep.
    replace (done ++ line :: rest) with ((done ++ [line]) ++ rest)
      by (rewrite <- app_assoc; reflexivity).
    destruct r as [cmd|]; simpl in Hstep.
    + eapply IH; [exact Hstep|exact H].
    + rewrite app_nil_r in Hstep. eapply IH; [|exact H].
      destruct s1; exact Hstep.
Qed.

Lemma find_agree {A : Type} (f g : A -> bool) (l : list A) :
  (forall x, f x = g x) -> List.find f l = List.find g l.
Proof.
  intros H. induction l as [|x l IH]; simpl; [reflexivity|].
  rewrite H, IH. reflexivity.
Qed.

(** The second pass stops at the first label reference that is not in the
    table, and only there. *)
Lemma second_pass_result (L : gmap string Z) (prog : list Cmd) :
  fst (second_pass L prog) =
    match List.find (fun l => bool_decide (L !! l = None))
                    (omap label prog) with
    | Some l => Raise (UnknownLabel l)
    | None => Ok tt
    end.
Proof.
  induction prog as [|cmd rest IH]; simpl; [reflexivity|].
  destruct (label cmd) as [l|]; simpl.
  - destruct (L !! l) as [a|] eqn:Ha; simpl.
    + destruct (second_pass L rest). exact IH.
    + reflexivity.
  - destruct (second_pass L rest). exact IH.
Qed.

(** What [assemble] does with a source: the first pass reads the lines to
    the end exactly when they are well formed, and the second pass then
    fails at the first reference to a label that no line declares. *)
Lemma assemble_outcome (source : string) (self : Assembler) :
  let lines := Str.split "010" source in
  (well_formed lines /\
   exists s1 r prog,
     first_pass lines 1 Assembler_init = (Ok tt, s1) /\
     first_pass_inv lines s1 /\ reference_inv lines s1 /\
     second_pass (labels s1) (program s1) = (r, prog) /\
     r = match undeclared lines with
         | Some l => Raise (UnknownLabel l)
         | None => Ok tt
         end /\
     fst (assemble source self) =
       match undeclared lines with
       | Some l => Raise (UnknownLabel l)
       | None => Ok prog
       end) \/
  (~ well_formed lines /\
   exists s1 n e,
     first_pass lines 1 Assembler_init = (Raise (AtLine n e), s1) /\
     line_error e /\
     fst (assemble source self) = Raise (AtLine n e)).
Proof.
  intros lines. rewrite assemble_unfold. fold lines.
  pose proof (first_pass_ok_iff lines 1 Assembler_init) as Hiff.
  destruct (first_pass lines 1 Assembler_init) as [[[]|e] s1] eqn:Hp1.
  - left.
    destruct (proj1 Hiff (ex_intro _ s1 eq_refl)) as (HF & HN & _).
    split; [split; assumption|].
    pose proof (first_pass_completes _ _ _ _ _ _ first_pass_inv_init Hp1)
      as Hinv.
    pose proof (reference_inv_completes _ _ _ _ _ _ reference_inv_init Hp1)
      as Href.
    simpl in Hinv, Href.
    pose proof (second_pass_result (labels s1) (program s1)) as Hsp.
    rewrite (ref_labels _ _ Href) in Hsp.
    rewrite (find_agree _ (fun l => bool_decide (l ∉ omap declares lines)))
      in Hsp.
    + fold (undeclared lines) in Hsp.
      destruct (second_pass (labels s1) (program s1)) as [r prog] eqn:Hp2.
      simpl in Hsp. exists s1, r, prog.
      split; [reflexivity|]. split; [exact Hinv|]. split; [exact Href|].
      split; [exact Hp2|]. split; [exact Hsp|].
      rewrite Hsp. destruct (undeclared lines); reflexivity.
    + intros l. apply bool_decide_ext. split.
      * intros Hnone Hin. apply list_elem_of_omap in Hin as (def & Hdef & Hd).
        apply list_elem_of_lookup_1 in Hdef as [k Hk].
        rewrite (inv_declared _ _ Hinv k def l Hk Hd) in Hnone. discriminate.
      * intros Hnin. destruct (labels s1 !! l) as [a|] eqn:Ha; [|reflexivity].
        destruct (inv_bound _ _ Hinv l a Ha) as (k & def & Hk & Hd).
        exfalso. apply Hnin. apply list_elem_of_omap. exists def.
        split; [exact (list_elem_of_lookup_2 _ _ _ Hk)|exact Hd].
  - right. split.
    + intros [HF HN].
      destruct (proj2 Hiff) as [s' Hs']; [|discriminate Hs'].
      split; [exact HF|]. split; [exact HN|].
      intros l _. apply lookup_empty.
    + destruct (first_pass_fails _ _ _ _ _ Hp1)
        as (k & line & e' & _ & -> & _ & Hraise).
      exists s1, (1 + Z.of_nat k), e'.
      split; [reflexivity|]. split; [|reflexivity].
      exact (parse_line_line_error _ _ _ _ Hraise).
Qed.

(** C8.  Label references are resolved from the table of the completed
    first pass.  The first pass reads every line without error exactly when
    the source is well formed: every line is well shaped and no label is
    declared twice.  [assemble] succeeds exactly when the source is well
    formed and every label referred to is declared by some line, before or
    after the reference.  It fails with UnknownLabel exactly when the source
    is well formed, lines behind the reference included, and some line
    refers to a label that no line declares; the label reported is the first
    such reference.  Any other failure is the failure of a line in the first
    pass, with its number, for a source that is not well formed; it is never
    an unknown label.  When assembly succeeds, the instruction of a line that
    refers to a label [l] gets as its operand the number of instruction lines
    before the line that declares [l], wherever that line stands with respect
    to the reference: a reference before the declaration and one after it
    resolve to the same address, and all the references to one label get the
    same operand. *)
Theorem label_references_resolve_after_first_pass (source : string)
        (self : Assembler) :
  let lines := Str.split "010" source in
  (fst (first_pass lines 1 Assembler_init) = Ok tt <-> well_formed lines) /\
  ((exists prog, fst (assemble source self) = Ok prog) <->
   well_formed lines /\ undeclared lines = None) /\
  (forall l,
      fst (assemble source self) = Raise (UnknownLabel l) <->
      well_formed lines /\ undeclared lines = Some l) /\
  (forall e,
      fst (assemble source self) = Raise e ->
      (exists l, e = UnknownLabel l) \/
      (exists n e', e = AtLine n e' /\ line_error e' /\
                    ~ well_formed lines)) /\
  (forall prog,
      fst (assemble source self) = Ok prog ->
      (forall (i : nat) line l,
          lines !! i = Some line -> refers line = Some l ->
          (exists (k : nat) def,
              lines !! k = Some def /\ declares def = Some l) /\
          forall (k : nat) def,
            lines !! k = Some def -> declares def = Some l ->
            exists cmd,
              prog !! Z.to_nat (count_instructions (take i lines)) =
                Some cmd /\
              label cmd = None /\
              operand cmd = Some (count_instructions (take k lines))) /\
      (forall (i j : nat) line line' l,
          lines !! i = Some line -> refers line = Some l ->
          lines !! j = Some line' -> refers line' = Some l ->
          exists a cmd cmd',
            prog !! Z.to_nat (count_instructions (take i lines)) =
              Some cmd /\
            prog !! Z.to_nat (count_instructions (take j lines)) =
              Some cmd' /\
            operand cmd = Some a /\ operand cmd' = Some a)).
Proof.
  intros lines.
  destruct (assemble_outcome source self)
    as [(Hwf & s1 & r & prog & Hp1 & Hinv & Href & Hp2 & Hr & Hres)
       | (Hwf & s1 & n & e & Hp1 & He & Hres)];
    fold lines in Hwf, Hp1, Hres; try fold lines in Hinv, Href, Hr;
    rewrite Hres, Hp1; simpl.
  - split; [split; [intros _; exact Hwf|reflexivity]|].
    destruct (undeclared lines) as [l0|] eqn:Hu.
    + split; [split; [intros [p H]; discriminate H
                     |intros [_ H]; discriminate H]|].
      split.
      { intros l. split.
        - intros H. inversion H; subst. split; [exact Hwf|reflexivity].
        - intros [_ H]. inversion H; subst. reflexivity. }
      split; [intros e H; inversion H; subst; left; eauto|].
      intros p H. discriminate H.
    + split; [split; [intros _; split; [exact Hwf|reflexivity]
                     |intros _; eexists; reflexivity]|].
      split; [intros l; split; [intros H; discriminate H
                               |intros [_ H]; discriminate H]|].
      split; [intros e H; discriminate H|].
      intros p H. inversion H; subst p; clear H.
      subst r. apply second_pass_completes in Hp2 as [_ Hall].
      assert (Hone : forall (i : nat) line l,
                 lines !! i = Some line -> refers line = Some l ->
                 (exists (k : nat) def,
                     lines !! k = Some def /\ declares def = Some l) /\
                 forall (k : nat) def,
                   lines !! k = Some def -> declares def = Some l ->
                   exists cmd,
                     prog !! Z.to_nat (count_instructions (take i lines)) =
                       Some cmd /\
                     label cmd = None /\
                     operand cmd = Some (count_instructions (take k lines)));
        [|split; [exact Hone|];
          intros i j line line' l Hi Hl Hj Hl';
          destruct (Hone i line l Hi Hl) as [(k & def & Hk & Hd) Hr];
          destruct (Hr k def Hk Hd) as (cmd & Hc & _ & Ho);
          destruct (Hone j line' l Hj Hl') as [_ Hr'];
          destruct (Hr' k def Hk Hd) as (cmd' & Hc' & _ & Ho');
          exists (count_instructions (take k lines)), cmd, cmd'; auto].
      intros i line l Hi Hl.
      assert (Hins : is_instruction line = true).
      { destruct (is_instruction line) eqn:Hins; [reflexivity|].
        rewrite (refers_instruction _ Hins) in Hl. discriminate. }
      destruct (ref_cmds _ _ Href i line Hi Hins) as (raw & Hraw & Hrl).
      rewrite Hl in Hrl.
      specialize (Hall _ raw Hraw). rewrite Hrl in Hall.
      destruct Hall as (a & Hla & Hcmd).
      split; [exact (inv_bound _ _ Hinv l a Hla)|].
      intros k def Hk Hd.
      rewrite (inv_declared _ _ Hinv k def l Hk Hd) in Hla.
      inversion Hla; subst a.
      pose proof (proj1 (Forall_lookup _ _) (inv_program _ _ Hinv) _ raw Hraw
                    l Hrl) as Hop.
      destruct (resolve_operand raw (count_instructions (take k lines)) Hop)
        as (H1 & H2 & _).
      eexists. split; [exact Hcmd|]. split; [exact H1|exact H2].
  - split; [split; [intros H; discriminate H
                   |intros H; exfalso; exact (Hwf H)]|].
    split; [split; [intros [p H]; discriminate H
                   |intros [H _]; exfalso; exact (Hwf H)]|].
    split; [intros l; split; [intros H; discriminate H
                             |intros [H _]; exfalso; exact (Hwf H)]|].
    split.
    + intros e0 H. inversion H; subst. right. exists n, e. auto.
    + intros p H. discriminate H.
Qed.

End Assemble.

(** ** Properties of the encoder *)

Section Encoder.

Lemma byte_of_Z_to_N (n : Z) :
  Z.of_N (Byte.to_N (byte_of_Z n)) = n mod 256.
Proof.
  unfold byte_of_Z.
  assert (Hr : 0 <= n mod 256 < 256) by (apply Z.mod_pos_bound; lia).
  destruct (Byte.of_N (Z.to_N (n mod 256))) as [b|] eqn:Hb; simpl.
  - apply Byte.to_of_N in Hb. rewrite Hb. lia.
  - apply Byte.of_N_None_iff in Hb. lia.
Qed.

Lemma struct_pack_I_length (n : Z) (b : list Byte.byte) :
  struct_pack_I n = Some b -> length b = 4%nat.
Proof.
  unfold struct_pack_I. destruct (_ && _); intros H; inversion H. reflexivity.
Qed.

(** Packing a number of 32 bits and reading the four bytes back gives the
    number. *)
Lemma struct_pack_unpack (n : Z) :
  0 <= n < 2 ^ 32 ->
  exists b, struct_pack_I n = Some b /\ struct_unpack_I b = Some n.
Proof.
  intros Hn. unfold struct_pack_I.
  replace ((0 <=? n) && (n <? 2 ^ 32)) with true
    by (symmetry; apply andb_true_intro; split; [apply Z.leb_le|apply Z.ltb_lt]; lia).
  eexists. split; [reflexivity|]. unfold struct_unpack_I.
  rewrite !byte_of_Z_to_N. f_equal.
  rewrite !Z.shiftr_div_pow2, !Z.shiftl_mul_pow2 by lia.
  change (2 ^ 8) with 256. change (2 ^ 16) with 65536.
  change (2 ^ 24) with 16777216. change (2 ^ 32) with 4294967296 in Hn.
  pose proof (Z.div_mod n 256 ltac:(lia)).
  pose proof (Z.div_mod (n / 256) 256 ltac:(lia)).
  pose proof (Z.div_mod (n / 256 / 256) 256 ltac:(lia)).
  pose proof (Z.div_mod (n / 256 / 256 / 256) 256 ltac:(lia)).
  replace (n / 65536) with (n / 256 / 256)
    by (rewrite Z.div_div by lia; reflexivity).
  replace (n / 16777216) with (n / 256 / 256 / 256)
    by (rewrite !Z.div_div by lia; reflexivity).
  assert (n / 256 / 256 / 256 / 256 = 0).
  { rewrite !Z.div_div by lia. apply Z.div_small. lia. }
  lia.
Qed.

(** The word of an operand [x] packed above an opcode id [k] of six bits. *)
Lemma field_low (x k : Z) :
  0 <= k < 64 -> Z.land (Z.lor (Z.shiftl x 6) k) 0x3F = k.
Proof.
  intros Hk. change 0x3F with (Z.ones 6).
  apply Z.bits_inj'. intros i Hi.
  rewrite Z.land_spec, Z.lor_spec.
  destruct (Z.ltb_spec i 6).
  - rewrite Z.shiftl_spec_low by lia. rewrite Z.ones_spec_low by lia.
    simpl. apply andb_true_r.
  - rewrite Z.ones_spec_high by lia. rewrite andb_false_r.
    symmetry. apply Z.bits_above_log2; [lia|].
    destruct (Z.eq_dec k 0) as [->|]; [simpl; lia|].
    apply Z.log2_lt_pow2; [lia|]. apply Z.lt_le_trans with (2 ^ 6); [lia|].
    apply Z.pow_le_mono_r; lia.
Qed.

Lemma field_high (x k : Z) :
  0 <= k < 64 -> Z.shiftr (Z.lor (Z.shiftl x 6) k) 6 = x.
Proof.
  intros Hk. rewrite Z.shiftr_lor, Z.shiftr_shiftl_l by lia.
  change (6 - 6) with 0. rewrite Z.shiftl_0_r.
  rewrite Z.shiftr_div_pow2 by lia. rewrite Z.div_small by lia.
  apply Z.lor_0_r.
Qed.

Lemma field_value (x k : Z) :
  0 <= x -> 0 <= k < 64 -> Z.lor (Z.shiftl x 6) k = x * 64 + k.
Proof.
  intros Hx Hk.
  pose proof (field_low x k Hk) as Hl. pose proof (field_high x k Hk) as Hh.
  set (w := Z.lor (Z.shiftl x 6) k) in *.
  change 0x3F with (Z.ones 6) in Hl. rewrite Z.land_ones in Hl by lia.
  rewrite Z.shiftr_div_pow2 in Hh by lia. change (2 ^ 6) with 64 in *.
  pose proof (Z.div_mod w 64 ltac:(lia)). lia.
Qed.

Lemma field_mask (x width : Z) :
  0 <= width -> 0 <= x < 2 ^ width ->
  Z.land x (Z.ones width) = x /\ Z.shiftr x width = 0.
Proof.
  intros Hw Hx. split.
  - rewrite Z.land_ones by lia. apply Z.mod_small. lia.
  - rewrite Z.shiftr_div_pow2 by lia. apply Z.div_small. lia.
Qed.

(** C5.  Bit-field round trip: for a CONST instruction with value [x]
    between 0 and 65535, and for a LOAD instruction with address [x] between
    0 and 16777215, the encoder yields four bytes; read back as a
    little-endian 32-bit word [w], the low six bits of [w] are the opcode id
    (42 for CONST, 23 for LOAD), bits 6-21 (CONST) or 6-29 (LOAD) are [x],
    and every higher bit is zero. *)
Theorem encode_bit_fields (cmd : Cmd) (x : Z) :
  opcode cmd = CONST /\ value cmd = Some x /\ 0 <= x <= 65535 \/
  opcode cmd = LOAD /\ address_arg cmd = Some x /\ 0 <= x <= 16777215 ->
  exists (word : list Byte.byte) (w : Z),
    encode_instruction cmd = Some word /\
    length word = 4%nat /\
    struct_unpack_I word = Some w /\
    (opcode cmd = CONST ->
     Z.land w 0x3F = 42 /\
     Z.land (Z.shiftr w 6) 0xFFFF = x /\ Z.shiftr w 22 = 0) /\
    (opcode cmd = LOAD ->
     Z.land w 0x3F = 23 /\
     Z.land (Z.shiftr w 6) 0xFFFFFF = x /\ Z.shiftr w 30 = 0).
Proof.
  intros [(Hop & Hx & Hr) | (Hop & Hx & Hr)];
    unfold encode_instruction; rewrite Hop, Hx; simpl default;
    [ set (k := opcode_id CONST); set (width := 16)
    | set (k := opcode_id LOAD); set (width := 24) ];
    assert (Hk : 0 <= k < 64) by (subst k; simpl; lia);
    pose proof (field_value x k ltac:(lia) Hk) as Hv;
    destruct (struct_pack_unpack (Z.lor (Z.shiftl x 6) k)) as (b & Hb & Hu);
    try (rewrite Hv; change (2 ^ 32) with 4294967296; lia);
    exists b, (Z.lor (Z.shiftl x 6) k);
    (split; [exact Hb|]);
    (split; [exact (struct_pack_I_length _ _ Hb)|]);
    (split; [exact Hu|]);
    destruct (field_mask x width ltac:(subst width; lia)
                ltac:(subst width; simpl; lia)) as [Hm Hs];
    (split; intros Hop'; try discriminate Hop');
    (split; [exact (field_low x k Hk)|]);
    rewrite field_high by exact Hk;
    (split; [exact Hm|]).
  - change 22 with (6 + 16). rewrite <- Z.shiftr_shiftr by lia.
    rewrite field_high by exact Hk. exact Hs.
  - change 30 with (6 + 24). rewrite <- Z.shiftr_shiftr by lia.
    rewrite field_high by exact Hk. exact Hs.
Qed.

(** C6.  A STORE instruction is encoded as the bytes 01 00 00 00 and a
    BITREV instruction as the bytes 3C 00 00 00, whatever else the
    instruction record holds. *)
Theorem encode_no_operand (cmd : Cmd) :
  match opcode cmd with
  | STORE =>
      encode_instruction cmd = Some [Byte.x01; Byte.x00; Byte.x00; Byte.x00]
  | BITREV =>
      encode_instruction cmd = Some [Byte.x3c; Byte.x00; Byte.x00; Byte.x00]
  | _ => True
  end.
Proof.
  unfold encode_instruction. destruct (opcode cmd); try exact I; reflexivity.
Qed.

(** ** Further properties of the encoder *)

Lemma struct_pack_I_fails (n : Z) :
  struct_pack_I n = None <-> ~ 0 <= n < 2 ^ 32.
Proof.
  unfold struct_pack_I.
  destruct ((0 <=? n) && (n <? 2 ^ 32)) eqn:H.
  - apply andb_prop in H as [H1 H2].
    apply Z.leb_le in H1. apply Z.ltb_lt in H2. split; [discriminate|lia].
  - split; [|reflexivity]. intros _ [H1 H2].
    apply Z.leb_le in H1. apply Z.ltb_lt in H2. rewrite H1, H2 in H.
    discriminate.
Qed.

(** The word of every instruction is its operand above its opcode id. *)
Lemma encode_instruction_word (cmd : Cmd) :
  encode_instruction cmd =
    struct_pack_I (Z.lor (Z.shiftl (encoded_operand cmd) 6)
                         (opcode_id (opcode cmd))).
Proof.
  unfold encode_instruction, encoded_operand. destruct (opcode cmd); reflexivity.
Qed.

Lemma opcode_id_range (op : Opcode) : 0 <= opcode_id op < 64.
Proof. destruct op; simpl; lia. Qed.

Lemma opcode_id_inj (op op' : Opcode) : opcode_id op = opcode_id op' -> op = op'.
Proof. destruct op, op'; simpl; intros H; (reflexivity || discriminate H). Qed.

Lemma field_range (x k : Z) :
  0 <= k < 64 ->
  0 <= Z.lor (Z.shiftl x 6) k < 2 ^ 32 <-> 0 <= x < 2 ^ 26.
Proof.
  intros Hk. change (2 ^ 32) with 4294967296. change (2 ^ 26) with 67108864.
  destruct (Z.lt_ge_cases x 0) as [Hx | Hx].
  - assert (Z.lor (Z.shiftl x 6) k < 0); [|lia].
    apply Z.lor_neg. left. apply Z.shiftl_neg. exact Hx.
  - rewrite (field_value x k Hx Hk). lia.
Qed.

Lemma encode_instruction_none_iff (cmd : Cmd) :
  encode_instruction cmd = None <->
  (opcode cmd = CONST \/ opcode cmd = LOAD) /\
  ~ 0 <= encoded_operand cmd < 2 ^ 26.
Proof.
  rewrite encode_instruction_word, struct_pack_I_fails.
  rewrite (field_range _ _ (opcode_id_range (opcode cmd))).
  split.
  - intros H. split; [|exact H]. unfold encoded_operand in H.
    destruct (opcode cmd); auto; exfalso; apply H; simpl; lia.
  - intros [_ H]. exact H.
Qed.

Lemma encode_instruction_length (cmd : Cmd) (word : list Byte.byte) :
  encode_instruction cmd = Some word -> length word = 4%nat.
Proof. rewrite encode_instruction_word. apply struct_pack_I_length. Qed.

Lemma to_binary_words (prog : list Cmd) (image : list Byte.byte) :
  to_binary prog = Some image ->
  length image = (4 * length prog)%nat /\
  forall (i : nat) cmd,
    prog !! i = Some cmd ->
    encode_instruction cmd = Some (take 4 (drop (4 * i) image)).
Proof.
  revert image. induction prog as [|c prog IH]; intros image H; simpl in H.
  - inversion H; subst. split; [reflexivity|].
    intros i cmd Hi. rewrite lookup_nil in Hi. discriminate.
  - destruct (encode_instruction c) as [w|] eqn:Hw; [|discriminate].
    destruct (to_binary prog) as [rest|]; [|discriminate].
    inversion H; subst. destruct (IH _ eq_refl) as [Hlen Hall].
    pose proof (encode_instruction_length _ _ Hw) as Hw4.
    split; [rewrite length_app; simpl; lia|].
    intros [|i] cmd Hi; simpl in Hi.
    + inversion Hi; subst. rewrite Hw. f_equal.
      change (4 * 0)%nat with 0%nat. rewrite drop_0.
      rewrite take_app_length'; [reflexivity|]. symmetry. exact Hw4.
    + rewrite (Hall i cmd Hi). f_equal.
      replace (4 * S i)%nat with (length w + 4 * i)%nat by lia.
      rewrite drop_app_add. reflexivity.
Qed.

Lemma to_binary_none_iff (prog : list Cmd) :
  to_binary prog = None <->
  exists cmd, cmd ∈ prog /\ encode_instruction cmd = None.
Proof.
  induction prog as [|c prog IH]; simpl.
  - split; [discriminate|]. intros (cmd & Hin & _).
    apply elem_of_nil in Hin. destruct Hin.
  - destruct (encode_instruction c) as [w|] eqn:Hw.
    + destruct (to_binary prog) as [rest|].
      * split; [discriminate|]. intros (cmd & Hin & Hn).
        apply elem_of_cons in Hin as [-> | Hin]; [congruence|].
        assert (Some rest = None) as Hx by (apply IH; eauto).
        discriminate Hx.
      * split; [|reflexivity]. intros _.
        destruct (proj1 IH eq_refl) as (cmd & Hin & Hn).
        exists cmd. split; [apply elem_of_cons; auto|exact Hn].
    + split; [|reflexivity]. intros _. exists c.
      split; [apply elem_of_cons; auto|exact Hw].
Qed.

(** Encoding is unambiguous: two instructions with the same word have the
    same opcode and the same operand. *)
Theorem encode_instruction_injective (cmd cmd' : Cmd)
        (word : list Byte.byte) :
  encode_instruction cmd = Some word ->
  encode_instruction cmd' = Some word ->
  opcode cmd = opcode cmd' /\ encoded_operand cmd = encoded_operand cmd'.
Proof.
  rewrite !encode_instruction_word.
  set (w := Z.lor (Z.shiftl (encoded_operand cmd) 6) (opcode_id (opcode cmd))).
  set (w' := Z.lor (Z.shiftl (encoded_operand cmd') 6)
                   (opcode_id (opcode cmd'))).
  intros H H'.
  assert (Hr : 0 <= w < 2 ^ 32).
  { destruct (Z.le_gt_cases 0 w) as [H0|H0];
      [destruct (Z.lt_ge_cases w (2 ^ 32)) as [H1|H1]; [lia|]|];
      assert (struct_pack_I w = None) by (apply struct_pack_I_fails; lia);
      congruence. }
  assert (Hr' : 0 <= w' < 2 ^ 32).
  { destruct (Z.le_gt_cases 0 w') as [H0|H0];
      [destruct (Z.lt_ge_cases w' (2 ^ 32)) as [H1|H1]; [lia|]|];
      assert (struct_pack_I w' = None) by (apply struct_pack_I_fails; lia);
      congruence. }
  destruct (struct_pack_unpack w Hr) as (b & Hb & Hu).
  destruct (struct_pack_unpack w' Hr') as (b' & Hb' & Hu').
  assert (Heq : w = w') by congruence.
  pose proof (opcode_id_range (opcode cmd)) as Hk.
  pose proof (opcode_id_range (opcode cmd')) as Hk'.
  split.
  - apply opcode_id_inj.
    rewrite <- (field_low (encoded_operand cmd) _ Hk).
    rewrite <- (field_low (encoded_operand cmd') _ Hk').
    fold w w'. rewrite Heq. reflexivity.
  - rewrite <- (field_high (encoded_operand cmd) _ Hk).
    rewrite <- (field_high (encoded_operand cmd') _ Hk').
    fold w w'. rewrite Heq. reflexivity.
Qed.

(** Encoding fails, with the error of [struct.pack], exactly when the operand
    of a CONST or LOAD instruction is negative or not below 2^26; an absent
    operand counts as 0, and STORE and BITREV instructions never fail. *)
Theorem encode_instruction_fails (cmd : Cmd) :
  encode_instruction cmd = None <->
  (opcode cmd = CONST \/ opcode cmd = LOAD) /\
  ~ 0 <= encoded_operand cmd < 2 ^ 26.
Proof. apply encode_instruction_none_iff. Qed.

(** The binary image holds one word of four bytes per instruction, in the
    order of the program: the bytes from [4 * i] on are the word of the
    instruction at index [i]. *)
Theorem to_binary_layout (prog : list Cmd) (image : list Byte.byte) :
  to_binary prog = Some image ->
  length image = (4 * length prog)%nat /\
  forall (i : nat) cmd,
    prog !! i = Some cmd ->
    encode_instruction cmd = Some (take 4 (drop (4 * i) image)).
Proof. apply to_binary_words. Qed.

(** No image is made, and no part of one, exactly when some instruction of
    the program cannot be encoded: a CONST or LOAD instruction whose operand
    is negative or not below 2^26. *)
Theorem to_binary_fails (prog : list Cmd) :
  to_binary prog = None <->
  exists cmd,
    cmd ∈ prog /\ (opcode cmd = CONST \/ opcode cmd = LOAD) /\
    ~ 0 <= encoded_operand cmd < 2 ^ 26.
Proof.
  rewrite to_binary_none_iff. split; intros (cmd & Hin & H); exists cmd;
    (split; [exact Hin|]); apply encode_instruction_none_iff; exact H.
Qed.

End Encoder.

(** ** From the source to the image *)

Section Image.

Variable max_str_digits : nat.

(** Assembling and encoding compose: the program of a successful assembly
    with fewer than 2^26 instructions is always encoded, into four bytes per
    instruction. *)
Theorem assembled_program_is_encodable (source : string) (self : Assembler)
        (prog : list Cmd) :
  fst (assemble max_str_digits source self) = Ok prog ->
  Z.of_nat (length prog) < 2 ^ 26 ->
  exists image,
    to_binary prog = Some image /\ length image = (4 * length prog)%nat.
Proof.
  intros H Hlen. destruct (to_binary prog) as [image|] eqn:Hb.
  - exists image. split; [reflexivity|]. exact (proj1 (to_binary_words _ _ Hb)).
  - apply to_binary_none_iff in Hb as (cmd & Hin & Hn).
    apply encode_instruction_none_iff in Hn as [_ Hn].
    pose proof (assembled_encoded_operand _ _ _ _ _ H Hin) as Hr.
    exfalso. apply Hn. change (2 ^ 26) with 67108864 in *. lia.
Qed.

End Image.

(** ** The claims at concrete inputs *)

(** The round trip of the word of [const 125]. *)
Lemma encode_bit_fields_const_125 :
  let cmd := mkCmd 0 CONST "const" ["125"] "const 125" (Some 125) None None in
  (opcode cmd = CONST /\ value cmd = Some 125 /\ 0 <= 125 <= 65535 \/
   opcode cmd = LOAD /\ address_arg cmd = Some 125 /\ 0 <= 125 <= 16777215) /\
  exists (word : list Byte.byte) (w : Z),
    encode_instruction cmd = Some word /\
    length word = 4%nat /\
    struct_unpack_I word = Some w /\
    (opcode cmd = CONST ->
     Z.land w 0x3F = 42 /\
     Z.land (Z.shiftr w 6) 0xFFFF = 125 /\ Z.shiftr w 22 = 0) /\
    (opcode cmd = LOAD ->
     Z.land w 0x3F = 23 /\
     Z.land (Z.shiftr w 6) 0xFFFFFF = 125 /\ Z.shiftr w 30 = 0).
Proof.
  intros cmd.
  assert (H : opcode cmd = CONST /\ value cmd = Some 125 /\ 0 <= 125 <= 65535 \/
              opcode cmd = LOAD /\ address_arg cmd = Some 125 /\
              0 <= 125 <= 16777215).
  { left. repeat split; try reflexivity; discriminate. }
  split; [exact H|]. exact (encode_bit_fields cmd 125 H).
Defined.

(** The definition of the label [start] on a new instance. *)
Lemma label_definition_start :
  Str.endswith (clean "start:") ":" = true /\
  labels Assembler_init !! Str.strip (Str.init (clean "start:")) = None /\
  parse_line 4300 "start:" Assembler_init =
    (Ok None, mkAssembler [] (<["start" := 0]> ∅) 0).
Proof.
  assert (H1 : Str.endswith (clean "start:") ":" = true) by reflexivity.
  assert (H2 : labels Assembler_init !!
                 Str.strip (Str.init (clean "start:")) = None) by reflexivity.
  split; [exact H1|]. split; [exact H2|].
  exact (proj1 (label_definition_binds_next_address 4300 "start:"
                  Assembler_init H1 H2)).
Defined.

(** The label [store] on a new instance. *)
Lemma label_named_store :
  MNEMONICS !! "store" = Some STORE /\
  fst (assemble 4300 (source_of ["bitrev"; "store:"; "const store";
                                  "load store"]) Assembler_init) =
    Ok [mkCmd 0 BITREV "bitrev" [] "bitrev" None None None;
        mkCmd 1 CONST "const" ["store"] "const store" (Some 1) None None;
        mkCmd 2 LOAD "load" ["store"] "load store" None (Some 1) None].
Proof.
  assert (H : MNEMONICS !! "store" = Some STORE) by reflexivity.
  split; [exact H|].
  exact (proj2 (proj2 (label_named_like_a_mnemonic 4300 "store" STORE
                         Assembler_init H))).
Defined.

(** A reference before the declaration and one after it get the same
    address. *)
Lemma label_references_around_declaration :
  let lines := ["load x"; "x:"; "const x"] in
  well_formed lines /\ undeclared 4300 lines = None /\
  exists prog c1 c2,
    fst (assemble 4300 (source_of lines) Assembler_init) = Ok prog /\
    prog !! 0%nat = Some c1 /\ operand c1 = Some 1 /\
    prog !! 1%nat = Some c2 /\ operand c2 = Some 1.
Proof.
  intros lines.
  assert (Hwf : well_formed lines).
  { split; [repeat constructor|].
    change (NoDup ["x"]). apply NoDup_singleton. }
  assert (Hu : undeclared 4300 lines = None) by reflexivity.
  pose proof (label_references_resolve_after_first_pass 4300
                (source_of lines) Assembler_init) as (_ & Hok & _ & _ & Hres).
  destruct (proj2 Hok (conj Hwf Hu)) as [prog Hprog].
  destruct (Hres prog Hprog) as [Hone _].
  destruct (Hone 0%nat "load x" "x" eq_refl eq_refl) as [_ H1].
  destruct (H1 1%nat "x:" eq_refl eq_refl) as (c1 & Hc1 & _ & Ho1).
  destruct (Hone 2%nat "const x" "x" eq_refl eq_refl) as [_ H2].
  destruct (H2 1%nat "x:" eq_refl eq_refl) as (c2 & Hc2 & _ & Ho2).
  split; [exact Hwf|]. split; [exact Hu|].
  exists prog, c1, c2. repeat split; assumption.
Defined.

(** The token [12a] is no decimal literal. *)
Lemma ill_formed_literal_12a :
  (Str.contains "a" (literal_digits "12a") = true /\
   is_digit (literal_base "12a") "a" = false /\
   tolerated (literal_base "12a") "a" = false \/
   literal_digits "12a" = EmptyString) /\
  exists e, parse_number 4300 "12a" = Raise e.
Proof.
  assert (H : Str.contains "a" (literal_digits "12a") = true /\
              is_digit (literal_base "12a") "a" = false /\
              tolerated (literal_base "12a") "a" = false \/
              literal_digits "12a" = EmptyString).
  { left. repeat split; reflexivity. }
  split; [exact H|].
  exact (proj1 (ill_formed_literal_is_a_label_reference 4300 "12a" "a" H)).
Defined.

(** A label used before and after its declaration: [end] is declared behind
    the third instruction and [start] before the second; every reference gets
    the address of the declaration. *)
Example forward_and_backward_references :
  fst (assemble 4300
         (source_of ["load end"; "start:"; "const 1"; "load start"; "end:";
                     "store"; "const end"; "const start"])
         Assembler_init) =
    Ok [mkCmd 0 LOAD "load" ["end"] "load end" None (Some 3) None;
        mkCmd 1 CONST "const" ["1"] "const 1" (Some 1) None None;
        mkCmd 2 LOAD "load" ["start"] "load start" None (Some 1) None;
        mkCmd 3 STORE "store" [] "store" None None None;
        mkCmd 4 CONST "const" ["end"] "const end" (Some 3) None None;
        mkCmd 5 CONST "const" ["start"] "const start" (Some 1) None None].
Proof. vm_compute. reflexivity. Qed.

(** An error of the first pass behind a reference to an undeclared label is
    reported, not the missing label. *)
Example first_pass_error_precedes_unknown_label :
  fst (assemble 4300 (source_of ["const nowhere"; "bogus"]) Assembler_init) =
    Raise (AtLine 2 (UnknownMnemonic "bogus")) /\
  fst (assemble 4300 (source_of ["const nowhere"; "store"]) Assembler_init) =
    Raise (UnknownLabel "nowhere").
Proof. split; vm_compute; reflexivity. Qed.

(** A sign and an underscore are no digits, and yet the tokens [+5] and [1_0]
    are numeric literals; [const +5] is a CONST instruction with the immediate
    value 5, not a reference to a label.  Behind a prefix, [int] also admits
    white space and the prefix once more. *)
Lemma signed_and_underscored_tokens_are_numbers :
  (Str.contains "+" (literal_digits "+5") = true /\
   is_digit (literal_base "+5") "+" = false /\
   parse_number 4300 "+5" = Ok 5) /\
  (Str.contains "_" (literal_digits "1_0") = true /\
   is_digit (literal_base "1_0") "_" = false /\
   parse_number 4300 "1_0" = Ok 10) /\
  fst (assemble 4300 "const +5" Assembler_init) =
    Ok [mkCmd 0 CONST "const" ["+5"] "const +5" (Some 5) None None] /\
  fst (assemble 4300 "load 1_0" Assembler_init) =
    Ok [mkCmd 0 LOAD "load" ["1_0"] "load 1_0" None (Some 10) None] /\
  (Str.contains "x" (literal_digits "0x0x10") = true /\
   is_digit (literal_base "0x0x10") "x" = false /\
   parse_number 4300 "0x0x10" = Ok 16) /\
  (Str.contains " " (literal_digits "0x 5") = true /\
   is_digit (literal_base "0x 5") " " = false /\
   parse_number 4300 "0x 5" = Ok 5).
Proof. repeat split; vm_compute; reflexivity. Qed.

(** The bytes of [start:], [const 42], [load start] are not those that start
    with 2A 0A: the word of CONST 42 is (42 << 6) | 42 = 0xAAA. *)
Lemma label_example_bytes_differ :
  exists prog,
    fst (assemble 4300 (source_of ["start:"; "const 42"; "load start"])
                  Assembler_init) = Ok prog /\
    to_binary prog =
      Some [Byte.xaa; Byte.x0a; Byte.x00; Byte.x00;
            Byte.x17; Byte.x00; Byte.x00; Byte.x00] /\
    to_binary prog <>
      Some [Byte.x2a; Byte.x0a; Byte.x00; Byte.x00;
            Byte.x17; Byte.x00; Byte.x00; Byte.x00].
Proof.
  eexists. split; [vm_compute; reflexivity|].
  split; [vm_compute; reflexivity|]. vm_compute. discriminate.
Qed.

(** ** The dump and the parser of numbers *)

Section Dump.

Variable max_str_digits : nat.

Lemma append_nil_r (s : string) : s +:+ "" = s.
Proof.
  induction s as [|c s IH]; [reflexivity|].
  change (String c s +:+ "") with (String c (s +:+ "")). rewrite IH.
  reflexivity.
Qed.

Lemma append_assoc (s t u : string) : (s +:+ t) +:+ u = s +:+ (t +:+ u).
Proof.
  induction s as [|c s IH]; [reflexivity|].
  change ((String c s +:+ t) +:+ u) with (String c ((s +:+ t) +:+ u)).
  change (String c s +:+ (t +:+ u)) with (String c (s +:+ (t +:+ u))).
  rewrite IH. reflexivity.
Qed.

Lemma length_append (s t : string) :
  String.length (s +:+ t) = (String.length s + String.length t)%nat.
Proof.
  induction s as [|c s IH]; [reflexivity|].
  change (String c s +:+ t) with (String c (s +:+ t)). simpl. rewrite IH.
  reflexivity.
Qed.

Lemma all_append (p : ascii -> bool) (s t : string) :
  Str.all p (s +:+ t) = Str.all p s && Str.all p t.
Proof.
  induction s as [|c s IH]; [reflexivity|].
  change (String c s +:+ t) with (String c (s +:+ t)). simpl. rewrite IH.
  apply andb_assoc.
Qed.

Lemma positional_append (base : Z) (s t : string) (acc : Z) :
  positional base (s +:+ t) acc = positional base t (positional base s acc).
Proof.
  revert acc. induction s as [|c s IH]; intros acc; [reflexivity|].
  change (String c s +:+ t) with (String c (s +:+ t)). simpl. apply IH.
Qed.

(** What [positional] adds to its accumulator does not depend on it. *)
Lemma positional_acc (base : Z) (s : string) (acc : Z) :
  positional base s acc =
    acc * base ^ Z.of_nat (String.length s) + positional base s 0.
Proof.
  revert acc. induction s as [|c s IH]; intros acc.
  - simpl. lia.
  - cbn [positional String.length]. rewrite IH.
    rewrite (IH (0 * base + PyInt.digit_value c)).
    rewrite Nat2Z.inj_succ, Z.pow_succ_r by lia. ring.
Qed.

(** The characters of the digits. *)
Lemma digit_char_value (up : bool) (d : N) :
  (d < 36)%N ->
  PyInt.digit_value (Fmt.digit_char up d) = Z.of_N d /\
  Str.lower_char (Fmt.digit_char up d) = Fmt.digit_char false d.
Proof.
  intros H. assert (Hd : exists k : nat, (k < 36)%nat /\ d = N.of_nat k).
  { exists (N.to_nat d). split; lia. }
  destruct Hd as (k & Hk & ->). clear H.
  do 36 (destruct k as [|k]; [destruct up; split; reflexivity|]). lia.
Qed.

(** A digit of a base up to 36 is a letter or a figure of the ASCII set:
    no white space, no sign, no underscore, and no letter of a prefix of its
    own base. *)
Lemma is_digit_plain (base : Z) (c : ascii) :
  base <= 36 -> is_digit base c = true ->
  PyInt.is_ascii c = true /\ Str.isspace c = false /\
  PyInt.c_isspace c = false /\ Ascii.eqb c "_" = false /\
  Ascii.eqb c "+" = false /\ Ascii.eqb c "-" = false /\
  PyInt.prefix_letter base c = false.
Proof.
  unfold is_digit. intros Hb Hd. apply Z.ltb_lt in Hd.
  assert (H37 : PyInt.digit_value c <> 37) by lia.
  assert (Hp : PyInt.prefix_letter base c = false).
  { unfold PyInt.prefix_letter.
    destruct (Z.eqb_spec base 16) as [->|_];
      [|destruct (Z.eqb_spec base 8) as [->|_];
        [|destruct (Z.eqb_spec base 2) as [->|_]; [|reflexivity]]];
      revert Hd; clear; destruct c as [[] [] [] [] [] [] [] []]; intros Hd;
      try reflexivity; vm_compute in Hd; discriminate Hd. }
  assert (H6 : PyInt.is_ascii c = true /\ Str.isspace c = false /\
               PyInt.c_isspace c = false /\ Ascii.eqb c "_" = false /\
               Ascii.eqb c "+" = false /\ Ascii.eqb c "-" = false).
  { revert H37. clear.
    destruct c as [[] [] [] [] [] [] [] []]; intros H37;
      try (exfalso; apply H37; reflexivity); repeat split; reflexivity. }
  destruct H6 as (H1 & H2 & H3 & H4 & H5 & H6). repeat split; assumption.
Qed.

Lemma digits_of_acc (base : N) (up : bool) (fuel : nat) :
  forall (n : N) (acc : string),
    Fmt.digits_of fuel base up n acc =
      Fmt.digits_of fuel base up n "" +:+ acc.
Proof.
  induction fuel as [|fuel IH]; intros n acc; [reflexivity|].
  cbn [Fmt.digits_of]. cbv zeta.
  destruct (n / base =? 0)%N; [reflexivity|].
  rewrite IH. rewrite (IH _ (String _ "")). rewrite append_assoc. reflexivity.
Qed.

(** With fuel for every digit, [digits_of] gives the digits of the number. *)
Lemma digits_of_spec (base : N) (up : bool) (fuel : nat) :
  (2 <= base <= 36)%N ->
  forall n : N,
    Z.of_N n < Z.of_N base ^ Z.of_nat (S fuel) ->
    digits_spec (Z.of_N base) (Z.of_N n)
                (Fmt.digits_of (S fuel) base up n "").
Proof.
  intros Hb. set (B := Z.of_N base). assert (HB : 2 <= B <= 36) by (subst B; lia).
  assert (Hdigit : forall n : N,
             is_digit B (Fmt.digit_char up (n mod base)) = true /\
             PyInt.digit_value (Fmt.digit_char up (n mod base)) =
               Z.of_N n mod B).
  { intros n. assert (Hm : (n mod base < base)%N) by (apply N.mod_lt; lia).
    destruct (digit_char_value up (n mod base) ltac:(lia)) as [Hv _].
    unfold is_digit. rewrite Hv. rewrite N2Z.inj_mod. fold B.
    split; [apply Z.ltb_lt; apply Z.mod_pos_bound; lia|reflexivity]. }
  induction fuel as [|fuel IH]; intros n Hn.
  - cbn [Fmt.digits_of]. cbv zeta. change (Z.of_nat 1) with 1 in Hn.
    rewrite Z.pow_1_r in Hn.
    replace (n / base =? 0)%N with true
      by (symmetry; apply N.eqb_eq; apply N.div_small; lia).
    destruct (Hdigit n) as [Hd Hv]. rewrite Z.mod_small in Hv by lia.
    split.
    + simpl. rewrite Hd. reflexivity.
    + discriminate.
    + simpl. rewrite Hv. reflexivity.
    + simpl. lia.
  - remember (S fuel) as f eqn:Hf. cbn [Fmt.digits_of]. cbv zeta.
    destruct (Hdigit n) as [Hd Hv].
    destruct (N.eqb_spec (n / base) 0) as [Hq | Hq].
    + apply N.div_small_iff in Hq; [|lia].
      rewrite Z.mod_small in Hv by lia. split.
      * simpl. rewrite Hd. reflexivity.
      * discriminate.
      * simpl. rewrite Hv. reflexivity.
      * simpl. lia.
    + rewrite digits_of_acc.
      assert (Hdiv : Z.of_N (n / base) = Z.of_N n / B)
        by (rewrite N2Z.inj_div; reflexivity).
      assert (Hlt : Z.of_N (n / base) < B ^ Z.of_nat f).
      { rewrite Hdiv. apply Z.div_lt_upper_bound; [lia|].
        rewrite Nat2Z.inj_succ, Z.pow_succ_r in Hn by lia. exact Hn. }
      destruct (IH _ Hlt) as [Hall Hne Hval Hmin].
      set (ds := Fmt.digits_of f base up (n / base) "") in *.
      assert (Hge : B <= Z.of_N n).
      { assert (base <= n)%N; [|subst B; lia].
        destruct (N.le_gt_cases base n) as [H|H]; [exact H|].
        exfalso. apply Hq. apply N.div_small. exact H. }
      split.
      * rewrite all_append, Hall. simpl. rewrite Hd. reflexivity.
      * destruct ds; discriminate.
      * rewrite positional_append, Hval. simpl. rewrite Hv, Hdiv.
        pose proof (Z.div_mod (Z.of_N n) B ltac:(lia)). lia.
      * rewrite length_append. simpl String.length. intros _.
        replace (Z.of_nat (String.length ds + 1) - 1)
          with (Z.of_nat (String.length ds)) by lia.
        destruct (String.length ds) as [|[|len]] eqn:Hlen.
        { destruct ds; [congruence|discriminate]. }
        { change (Z.of_nat 1) with 1. rewrite Z.pow_1_r. exact Hge. }
        { specialize (Hmin ltac:(lia)).
          replace (Z.of_nat (S (S len)) - 1) with (Z.of_nat (S len)) in Hmin
            by lia.
          rewrite (Nat2Z.inj_succ (S len)), Z.pow_succ_r by lia.
          rewrite Hdiv in Hmin.
          pose proof (Z.mul_div_le (Z.of_N n) B ltac:(lia)). nia. }
Qed.

Lemma magnitude_spec (base : N) (up : bool) (n : N) :
  (2 <= base <= 36)%N ->
  digits_spec (Z.of_N base) (Z.of_N n) (Fmt.magnitude base up n).
Proof.
  intros Hb. unfold Fmt.magnitude. apply digits_of_spec; [exact Hb|].
  rewrite Nat2Z.inj_succ, N_nat_Z.
  destruct (N.eq_dec n 0%N) as [->|Hn].
  - simpl. lia.
  - pose proof (N.log2_spec n ltac:(lia)) as [_ Hs].
    apply Z.lt_le_trans with (2 ^ Z.succ (Z.of_N (N.log2 n))).
    + rewrite <- N2Z.inj_succ.
      change 2 with (Z.of_N 2). rewrite <- N2Z.inj_pow. lia.
    + apply Z.pow_le_mono_l. lia.
Qed.

(** The digits of a number below [base ^ width] are at most [width]. *)
Lemma digits_length (base n : Z) (ds : string) (width : nat) :
  2 <= base -> digits_spec base n ds -> (1 <= width)%nat ->
  n < base ^ Z.of_nat width ->
  (String.length ds <= width)%nat.
Proof.
  intros Hb [_ _ _ Hmin] Hw Hn.
  destruct (Nat.le_gt_cases (String.length ds) width) as [H|H]; [exact H|].
  specialize (Hmin ltac:(lia)).
  assert (base ^ Z.of_nat width <= base ^ (Z.of_nat (String.length ds) - 1))
    by (apply Z.pow_le_mono_r; lia).
  lia.
Qed.

Lemma all_impl (p q : ascii -> bool) (s : string) :
  (forall c, p c = true -> q c = true) ->
  Str.all p s = true -> Str.all q s = true.
Proof.
  intros Hpq. induction s as [|c s IH]; simpl; [reflexivity|].
  intros H. apply andb_prop in H as [Hc Hs]. rewrite (Hpq c Hc), (IH Hs).
  reflexivity.
Qed.

(** The digit loop of [int] on a text of digits reads it to its end. *)
Lemma scan_digit_text (base : Z) (s : string) :
  base <= 36 -> Str.all (is_digit base) s = true ->
  forall prev acc k,
    s <> EmptyString \/ Ascii.eqb prev "_" = false ->
    PyInt.scan base s prev acc k =
      Some (positional base s acc, (k + String.length s)%nat, EmptyString).
Proof.
  intros Hb. induction s as [|c s IH]; intros Hall prev acc k Hprev.
  - simpl. destruct Hprev as [H|H]; [congruence|]. rewrite H.
    rewrite Nat.add_0_r. reflexivity.
  - simpl in Hall. apply andb_prop in Hall as [Hc Hs].
    destruct (is_digit_plain base c Hb Hc) as (_ & _ & _ & Hu & _).
    cbn [PyInt.scan positional String.length]. rewrite Hu.
    unfold is_digit in Hc. rewrite Hc.
    rewrite (IH Hs c _ _ (or_intror Hu)). do 3 f_equal. lia.
Qed.

Lemma over_limit_power_of_two (base : Z) (digits : nat) :
  PyInt.is_power_of_two base = true ->
  PyInt.over_limit max_str_digits base digits = false.
Proof.
  intros H. unfold PyInt.over_limit. rewrite H.
  destruct (640 <? digits)%nat; reflexivity.
Qed.

Lemma over_limit_short (base : Z) (digits : nat) :
  (digits <= 640)%nat ->
  PyInt.over_limit max_str_digits base digits = false.
Proof.
  intros H. unfold PyInt.over_limit.
  replace (640 <? digits)%nat with false
    by (symmetry; apply Nat.ltb_ge; exact H).
  reflexivity.
Qed.

(** [int] reads a text of digits of the base as the number it spells,
    unless the text is beyond the limit of the interpreter. *)
Lemma from_string_digit_text (base : Z) (ds : string) :
  2 <= base <= 36 ->
  ds <> EmptyString ->
  Str.all (is_digit base) ds = true ->
  PyInt.over_limit max_str_digits base (String.length ds) = false ->
  PyInt.from_string max_str_digits ds base = Ok (positional base ds 0).
Proof.
  intros Hb Hne Hall Hlim. unfold PyInt.from_string.
  assert (Ht : PyInt.transform ds = ds).
  { unfold PyInt.transform.
    rewrite (all_impl (is_digit base) PyInt.is_ascii ds); [reflexivity| |exact Hall].
    intros c Hc. apply (is_digit_plain base c); [lia|exact Hc]. }
  rewrite Ht. destruct ds as [|c0 ds]; [congruence|].
  pose proof Hall as Hall'. simpl in Hall'.
  apply andb_prop in Hall' as [Hc0 Hds].
  destruct (is_digit_plain base c0 ltac:(lia) Hc0)
    as (_ & _ & Hsp & Hu & Hplus & Hminus & _).
  assert (Hskip : PyInt.skip_spaces (String c0 ds) = String c0 ds)
    by (simpl; rewrite Hsp; reflexivity).
  rewrite Hskip. unfold PyInt.take_sign. rewrite Hplus, Hminus.
  assert (Hpre : PyInt.skip_prefix base (String c0 ds) = String c0 ds).
  { unfold PyInt.skip_prefix. destruct ds as [|c1 r]; [reflexivity|].
    simpl in Hds. apply andb_prop in Hds as [Hc1 _].
    destruct (is_digit_plain base c1 ltac:(lia) Hc1) as (_ & _ & _ & _ & _ & _ & Hp).
    rewrite Hp, andb_false_r. reflexivity. }
  rewrite Hpre. cbn [PyInt.starts_with_underscore]. rewrite Hu.
  rewrite (scan_digit_text base _ ltac:(lia) Hall "000"%char 0 O)
    by (left; discriminate).
  cbn [Nat.add]. rewrite Hlim. simpl String.length. cbn [Nat.eqb].
  cbn [PyInt.skip_spaces]. rewrite Z.mul_1_l. reflexivity.
Qed.

Lemma lstrip_plain (s : string) :
  Str.all (fun c => negb (Str.isspace c)) s = true -> Str.lstrip s = s.
Proof.
  destruct s as [|c s]; [reflexivity|]. simpl. intros H.
  apply andb_prop in H as [Hc _]. apply negb_true_iff in Hc. rewrite Hc.
  reflexivity.
Qed.

Lemma rstrip_plain (s : string) :
  Str.all (fun c => negb (Str.isspace c)) s = true -> Str.rstrip s = s.
Proof.
  induction s as [|c s IH]; [reflexivity|]. simpl. intros H.
  apply andb_prop in H as [Hc Hs]. apply negb_true_iff in Hc.
  rewrite (IH Hs), Hc. destruct s; reflexivity.
Qed.

Lemma strip_plain (s : string) :
  Str.all (fun c => negb (Str.isspace c)) s = true -> Str.strip s = s.
Proof.
  intros H. unfold Str.strip. rewrite (lstrip_plain s H). exact (rstrip_plain s H).
Qed.

Lemma strip_digit_text (base : Z) (s : string) :
  base <= 36 -> Str.all (is_digit base) s = true -> Str.strip s = s.
Proof.
  intros Hb H. apply strip_plain. apply (all_impl (is_digit base)); [|exact H].
  intros c Hc. apply negb_true_iff. apply (is_digit_plain base c Hb Hc).
Qed.

Lemma lower_append (s t : string) :
  Str.lower (s +:+ t) = Str.lower s +:+ Str.lower t.
Proof.
  induction s as [|c s IH]; [reflexivity|].
  change (String c s +:+ t) with (String c (s +:+ t)). simpl. rewrite IH.
  reflexivity.
Qed.

Lemma lower_zeros (k : nat) : Str.lower (Fmt.zeros k) = Fmt.zeros k.
Proof. induction k as [|k IH]; simpl; [reflexivity|]. rewrite IH. reflexivity. Qed.

Lemma lower_digits_of (base : N) (up : bool) (fuel : nat) :
  (2 <= base <= 36)%N ->
  forall (n : N) (acc : string),
    Str.lower (Fmt.digits_of fuel base up n acc) =
      Fmt.digits_of fuel base false n (Str.lower acc).
Proof.
  intros Hb. induction fuel as [|fuel IH]; intros n acc; [reflexivity|].
  cbn [Fmt.digits_of]. cbv zeta.
  assert (Hm : (n mod base < 36)%N).
  { pose proof (N.mod_lt n base ltac:(lia)). lia. }
  destruct (digit_char_value up (n mod base) Hm) as [_ Hl].
  destruct (n / base =? 0)%N.
  - simpl. rewrite Hl. reflexivity.
  - rewrite IH. simpl. rewrite Hl. reflexivity.
Qed.

Lemma lower_magnitude (base : N) (up : bool) (n : N) :
  (2 <= base <= 36)%N ->
  Str.lower (Fmt.magnitude base up n) = Fmt.magnitude base false n.
Proof. intros Hb. unfold Fmt.magnitude. rewrite lower_digits_of by exact Hb. reflexivity. Qed.

Lemma zeros_spec (base : Z) (k : nat) :
  2 <= base ->
  Str.all (is_digit base) (Fmt.zeros k) = true /\
  String.length (Fmt.zeros k) = k /\
  forall acc, positional base (Fmt.zeros k) acc = acc * base ^ Z.of_nat k.
Proof.
  intros Hb. induction k as [|k (Ha & Hl & Hp)].
  - repeat split. intros acc. simpl. lia.
  - split; [|split].
    + simpl. rewrite Ha. unfold is_digit. change (PyInt.digit_value "0") with 0.
      rewrite (proj2 (Z.ltb_lt 0 base)) by lia. reflexivity.
    + simpl. rewrite Hl. reflexivity.
    + intros acc. cbn [Fmt.zeros positional]. rewrite Hp.
      change (PyInt.digit_value "0") with 0.
      rewrite Nat2Z.inj_succ, Z.pow_succ_r by lia. ring.
Qed.

(** The text of a number that is not negative, formatted in a base with
    zeros up to a width: digits of the base, lower-case ones once the text is
    put in lower case, that spell the number; the text is as long as the
    width when the number is below [base ^ width]. *)
Lemma format_int_spec (base : N) (up : bool) (width : nat) (n : Z) :
  (2 <= base <= 36)%N -> 0 <= n ->
  let text := Fmt.format_int base up width n in
  Str.lower text = Fmt.format_int base false width n /\
  text <> EmptyString /\
  (up = false -> Str.all (is_digit (Z.of_N base)) text = true) /\
  (up = false -> positional (Z.of_N base) text 0 = n) /\
  (forall w : nat, (1 <= w)%nat -> (width <= w)%nat ->
                   n < Z.of_N base ^ Z.of_nat w ->
                   (String.length text <= w)%nat) /\
  (width <= String.length text)%nat.
Proof.
  intros Hb Hn. unfold Fmt.format_int.
  replace (n <? 0) with false by (symmetry; apply Z.ltb_ge; exact Hn).
  cbv zeta.
  assert (Habs : Z.of_N (Z.abs_N n) = n) by lia.
  pose proof (magnitude_spec base up (Z.abs_N n) Hb) as Hspec.
  rewrite Habs in Hspec. destruct Hspec as [Hall Hne Hval Hmin].
  pose proof (magnitude_spec base false (Z.abs_N n) Hb) as Hspec'.
  rewrite Habs in Hspec'.
  assert (Hlen : String.length (Fmt.magnitude base up (Z.abs_N n)) =
                 String.length (Fmt.magnitude base false (Z.abs_N n))).
  { rewrite <- (lower_magnitude base up) by exact Hb.
    generalize (Fmt.magnitude base up (Z.abs_N n)).
    intros t. induction t as [|c t IH]; simpl; [reflexivity|].
    rewrite IH. reflexivity. }
  set (body := Fmt.magnitude base up (Z.abs_N n)) in *.
  destruct (zeros_spec (Z.of_N base) (width - String.length body) ltac:(lia))
    as (Hza & Hzl & Hzp).
  split; [|split; [|split; [|split; [|split]]]].
  - rewrite lower_append, lower_zeros. subst body.
    rewrite lower_magnitude by exact Hb. rewrite Hlen. reflexivity.
  - intros H. apply (f_equal String.length) in H.
    rewrite length_append in H. simpl in H.
    destruct body; [congruence|simpl in H; lia].
  - intros ->. rewrite all_append, Hza, Hall. reflexivity.
  - intros ->. rewrite positional_append, Hzp. simpl.
    exact Hval.
  - intros w Hw Hww Hlt. rewrite length_append, Hzl.
    assert (HB : 2 <= Z.of_N base) by lia.
    pose proof (digits_length (Z.of_N base) n body w HB
                  (Build_digits_spec _ _ _ Hall Hne Hval Hmin) Hw Hlt).
    lia.
  - rewrite length_append, Hzl. lia.
Qed.

Lemma startswith_two (s : string) (a b : ascii) :
  Str.startswith s (String a (String b "")) =
    match s with
    | String c0 (String c1 _) => Ascii.eqb a c0 && Ascii.eqb b c1
    | _ => false
    end.
Proof.
  unfold Str.startswith. destruct s as [|c0 [|c1 r]]; cbn [String.prefix].
  - reflexivity.
  - destruct (ascii_dec a c0); reflexivity.
  - destruct (ascii_dec a c0) as [->|Ha].
    + rewrite Ascii.eqb_refl. destruct (ascii_dec b c1) as [->|Hb].
      * rewrite Ascii.eqb_refl. destruct r; reflexivity.
      * apply Ascii.eqb_neq in Hb. rewrite Hb. reflexivity.
    + apply Ascii.eqb_neq in Ha. rewrite Ha. reflexivity.
Qed.

Lemma decimal_no_prefix (s : string) :
  Str.all (is_digit 10) s = true ->
  Str.startswith s "0x" = false /\ Str.startswith s "0b" = false /\
  Str.startswith s "0o" = false.
Proof.
  intros H. rewrite !startswith_two.
  destruct s as [|c0 [|c1 r]]; [repeat split; reflexivity..|].
  simpl in H. apply andb_prop in H as [_ H]. apply andb_prop in H as [H1 _].
  assert (Hx : Ascii.eqb "x" c1 = false)
    by (apply Ascii.eqb_neq; intros <-; discriminate H1).
  assert (Hb : Ascii.eqb "b" c1 = false)
    by (apply Ascii.eqb_neq; intros <-; discriminate H1).
  assert (Ho : Ascii.eqb "o" c1 = false)
    by (apply Ascii.eqb_neq; intros <-; discriminate H1).
  rewrite Hx, Hb, Ho, !andb_false_r. repeat split; reflexivity.
Qed.

Lemma digit_text_no_space (base : Z) (s : string) :
  base <= 36 -> Str.all (is_digit base) s = true ->
  Str.all (fun c => negb (Str.isspace c)) s = true.
Proof.
  intros Hb. apply all_impl. intros c Hc. apply negb_true_iff.
  apply (is_digit_plain base c Hb Hc).
Qed.

(** A number of at most 640 digits, 639 behind a sign, is within every
    limit. *)
Lemma format_limit_short (n : Z) :
  - 10 ^ 639 < n < 10 ^ 640 -> Fmt.over_limit max_str_digits n = false.
Proof.
  intros Hn. unfold Fmt.over_limit. cbv zeta.
  pose proof (magnitude_spec 10 false (Z.abs_N n) ltac:(lia)) as Hs.
  rewrite N2Z.inj_abs_N in Hs. change (Z.of_N 10) with 10 in Hs.
  set (body := Fmt.magnitude 10 false (Z.abs_N n)) in *.
  destruct (Z.ltb_spec n 0) as [Hneg | Hpos].
  - assert (Hl : (String.length body <= 639)%nat).
    { apply (digits_length 10 (Z.abs n)); [lia|exact Hs|lia|].
      change (Z.of_nat 639) with 639. lia. }
    replace (640 <? S (String.length body))%nat with false; [reflexivity|].
    symmetry. apply Nat.ltb_ge. lia.
  - assert (Hl : (String.length body <= 640)%nat).
    { apply (digits_length 10 (Z.abs n)); [lia|exact Hs|lia|].
      change (Z.of_nat 640) with 640. lia. }
    replace (640 <? String.length body)%nat with false; [reflexivity|].
    symmetry. apply Nat.ltb_ge. exact Hl.
Qed.

Lemma format_d_short (width : nat) (n : Z) :
  - 10 ^ 639 < n < 10 ^ 640 ->
  Fmt.format_d max_str_digits width n =
    Ok (Fmt.format_int 10 false width n).
Proof.
  intros Hn. unfold Fmt.format_d. rewrite (format_limit_short n Hn).
  reflexivity.
Qed.

(** The decimal text of a number that is not negative, when it is made, is
    within the limit of [int] as long as the zeros in front do not make it
    longer than 640 characters. *)
Lemma format_d_within_limit (width : nat) (v : Z) (text : string) :
  0 <= v -> (width <= 640)%nat ->
  Fmt.format_d max_str_digits width v = Ok text ->
  text = Fmt.format_int 10 false width v /\
  PyInt.over_limit max_str_digits 10 (String.length text) = false.
Proof.
  intros Hv Hw H. unfold Fmt.format_d in H.
  destruct (Fmt.over_limit max_str_digits v) eqn:Hlim; [discriminate|].
  inversion H; subst text; clear H. split; [reflexivity|].
  unfold Fmt.over_limit in Hlim. cbv zeta in Hlim.
  unfold Fmt.format_int. cbv zeta.
  replace (v <? 0) with false in * by (symmetry; apply Z.ltb_ge; exact Hv).
  set (body := Fmt.magnitude 10 false (Z.abs_N v)) in *.
  rewrite length_append, (proj1 (proj2 (zeros_spec 10 _ ltac:(lia)))).
  unfold PyInt.over_limit.
  destruct (Nat.ltb_spec 640 (String.length body)) as [Hb | Hb].
  - replace (width - String.length body + String.length body)%nat
      with (String.length body) by lia.
    rewrite (proj2 (Nat.ltb_lt _ _) Hb). simpl in Hlim |- *. exact Hlim.
  - replace (640 <? width - String.length body + String.length body)%nat
      with false; [reflexivity|].
    symmetry. apply Nat.ltb_ge. lia.
Qed.

(** A decimal text of the dump within the limit of [int] is read back. *)
Lemma decimal_text_read_back (width : nat) (v : Z) :
  0 <= v ->
  let text := Fmt.format_int 10 false width v in
  PyInt.over_limit max_str_digits 10 (String.length text) = false ->
  parse_number max_str_digits text = Ok v.
Proof.
  intros Hv text Hlim.
  destruct (format_int_spec 10 false width v ltac:(lia) Hv)
    as (Hlow & Hne & Hall & Hval & _).
  specialize (Hall eq_refl). specialize (Hval eq_refl).
  change (Z.of_N 10) with 10 in Hall, Hval.
  fold text in Hlow, Hne, Hall, Hval.
  unfold parse_number. cbv zeta.
  rewrite (strip_digit_text 10 text ltac:(lia) Hall), Hlow.
  destruct (decimal_no_prefix text Hall) as (-> & -> & ->).
  rewrite (from_string_digit_text 10 text ltac:(lia) Hne Hall Hlim), Hval.
  reflexivity.
Qed.

(** A number that is not negative, as the dump shows it, is read back by
    [parse_number] as the same number: in decimal, with or without zeros in
    front, as long as the zeros do not make the text longer than 640
    characters (the text is made whenever the number has no more than 640
    digits, and whatever text is made is read back); in hexadecimal behind
    [0x]; and in binary behind [0b]. *)
Theorem dump_numbers_read_back (v : Z) (width : nat) :
  0 <= v ->
  ((width <= 640)%nat -> v < 10 ^ 640 ->
   exists text,
     Fmt.format_d max_str_digits width v = Ok text /\
     parse_number max_str_digits text = Ok v) /\
  ((width <= 640)%nat ->
   forall text,
     Fmt.format_d max_str_digits width v = Ok text ->
     parse_number max_str_digits text = Ok v) /\
  parse_number max_str_digits ("0x" +:+ Fmt.format_X v) = Ok v /\
  parse_number max_str_digits ("0b" +:+ Fmt.format_b width v) = Ok v.
Proof.
  intros Hv.
  assert (Hback : (width <= 640)%nat ->
                  forall text,
                    Fmt.format_d max_str_digits width v = Ok text ->
                    parse_number max_str_digits text = Ok v).
  { intros Hw text H.
    destruct (format_d_within_limit width v text Hv Hw H) as [-> Hlim].
    exact (decimal_text_read_back width v Hv Hlim). }
  split; [|split; [exact Hback|split]].
  - intros Hw Hlt.
    assert (Hn : - 10 ^ 639 < v < 10 ^ 640) by (split; [lia|exact Hlt]).
    exists (Fmt.format_int 10 false width v).
    split; [exact (format_d_short width v Hn)|].
    exact (Hback Hw _ (format_d_short width v Hn)).
  - unfold Fmt.format_X.
    destruct (format_int_spec 16 true 0 v ltac:(lia) Hv) as (Hlow & _).
    destruct (format_int_spec 16 false 0 v ltac:(lia) Hv)
      as (_ & Hne & Hall & Hval & _).
    specialize (Hall eq_refl). specialize (Hval eq_refl).
    change (Z.of_N 16) with 16 in Hall, Hval.
    set (text := Fmt.format_int 16 true 0 v) in *.
    set (low := Fmt.format_int 16 false 0 v) in *.
    change ("0x" +:+ text) with (String "0" (String "x" text)).
    unfold parse_number. cbv zeta.
    assert (Hns : Str.all (fun c => negb (Str.isspace c)) text = true).
    { assert (Ht : Str.all (fun c => negb (Str.isspace c)) (Str.lower text)
                   = true)
        by (rewrite Hlow; exact (digit_text_no_space 16 low ltac:(lia) Hall)).
      revert Ht. clear. induction text as [|c t IH]; simpl; [reflexivity|].
      rewrite isspace_lower_char. intros H. apply andb_prop in H as [-> H].
      rewrite (IH H). reflexivity. }
    rewrite strip_plain by (simpl; exact Hns).
    change (Str.lower (String "0" (String "x" text)))
      with (String "0" (String "x" (Str.lower text))).
    rewrite Hlow.
    rewrite startswith_two. cbn [Ascii.eqb Bool.eqb andb].
    change (Str.drop 2 (String "0" (String "x" low))) with low.
    rewrite (from_string_digit_text 16 low ltac:(lia) Hne Hall), Hval;
      [reflexivity|].
    apply over_limit_power_of_two. reflexivity.
  - unfold Fmt.format_b.
    destruct (format_int_spec 2 false width v ltac:(lia) Hv)
      as (Hlow & Hne & Hall & Hval & _).
    specialize (Hall eq_refl). specialize (Hval eq_refl).
    change (Z.of_N 2) with 2 in Hall, Hval.
    set (text := Fmt.format_int 2 false width v) in *.
    change ("0b" +:+ text) with (String "0" (String "b" text)).
    unfold parse_number. cbv zeta.
    rewrite strip_plain
      by (simpl; exact (digit_text_no_space 2 text ltac:(lia) Hall)).
    change (Str.lower (String "0" (String "b" text)))
      with (String "0" (String "b" (Str.lower text))).
    rewrite Hlow.
    rewrite !startswith_two. cbn [Ascii.eqb Bool.eqb andb].
    change (Str.drop 2 (String "0" (String "b" text))) with text.
    rewrite (from_string_digit_text 2 text ltac:(lia) Hne Hall), Hval;
      [reflexivity|].
    apply over_limit_power_of_two. reflexivity.
Qed.

(** The name under which the table holds an opcode. *)
Lemma MNEMONICS_name (m : string) (op : Opcode) :
  MNEMONICS !! m = Some op ->
  m = match op with
      | STORE => "store"
      | LOAD => "load"
      | CONST => "const"
      | BITREV => "bitrev"
      end.
Proof.
  intros H. destruct (MNEMONICS_names m op H) as [-> | [-> | [-> | ->]]];
    vm_compute in H; inversion H; reflexivity.
Qed.

Lemma opcode_bits (op : Opcode) :
  let a := Fmt.format_b 6 (opcode_id op) in
  String.length a = 6%nat /\ Str.all (is_digit 2) a = true /\
  positional 2 a 0 = opcode_id op.
Proof. destruct op; repeat split; reflexivity. Qed.

(** The line of a field is made whenever its number is short. *)
Lemma field_line_short (letter range bits : string) (v : Z) :
  - 10 ^ 639 < v < 10 ^ 640 ->
  exists l, field_line max_str_digits letter range bits v = Ok l.
Proof.
  intros Hv. unfold field_line. rewrite (format_d_short 0 v Hv).
  eexists. reflexivity.
Qed.

(** The first line of an instruction with a short operand is made exactly
    when the address is within the limit. *)
Lemma head_line_made (addr : Z) (mnemonic : list N) (operand : option Z) :
  (forall v, operand = Some v -> - 10 ^ 639 < v < 10 ^ 640) ->
  (exists h, head_line max_str_digits addr mnemonic operand = Ok h) <->
  Fmt.over_limit max_str_digits addr = false.
Proof.
  intros Hop. unfold head_line.
  assert (Hd : Fmt.format_d max_str_digits 4 addr =
               if Fmt.over_limit max_str_digits addr then Raise FormatLimit
               else Ok (Fmt.format_int 10 false 4 addr)) by reflexivity.
  rewrite Hd. destruct (Fmt.over_limit max_str_digits addr).
  - split; [intros [h H]; discriminate H|discriminate].
  - split; [reflexivity|intros _].
    destruct operand as [v|]; [|eexists; reflexivity].
    rewrite (format_d_short 0 v (Hop v eq_refl)). eexists. reflexivity.
Qed.

(** The lines of an instruction that is named as the table names its
    opcode. *)
Lemma format_cmd_named (cmd : Cmd) :
  MNEMONICS !! mnemonic cmd = Some (opcode cmd) ->
  let name := code_points match opcode cmd with
                          | STORE => "STORE"
                          | LOAD => "LOAD"
                          | CONST => "CONST"
                          | BITREV => "BITREV"
                          end in
  let a := Fmt.format_b 6 (opcode_id (opcode cmd)) in
  let v := encoded_operand cmd in
  format_cmd max_str_digits cmd =
    match opcode cmd with
    | CONST =>
        h ← head_line max_str_digits (address cmd) name (Some v);
        la ← field_line max_str_digits "A" "0-5" a (opcode_id (opcode cmd));
        lb ← field_line max_str_digits "B" "6-21" (field_bits cmd) v;
        mret [h; la; lb; []]
    | LOAD =>
        h ← head_line max_str_digits (address cmd) name (Some v);
        la ← field_line max_str_digits "A" "0-5" a (opcode_id (opcode cmd));
        lb ← field_line max_str_digits "B" "6-29" (field_bits cmd) v;
        mret [h; la; lb; []]
    | _ =>
        h ← head_line max_str_digits (address cmd) name None;
        la ← field_line max_str_digits "A" "0-5" a (opcode_id (opcode cmd));
        mret [h; la; []]
    end.
Proof.
  intros Hm. apply MNEMONICS_name in Hm. cbv zeta.
  unfold format_cmd, field_bits, encoded_operand. rewrite Hm.
  destruct (opcode cmd); reflexivity.
Qed.

(** The dump agrees with the encoder.  For an instruction that is named as
    the table names its opcode and whose operand fits its field, the dump is
    made exactly when the address is within the limit of the integer string
    conversion; when it is made it shows the line A with the six bits of the
    opcode id and, for CONST and LOAD, the line B with the 16 or 24 bits of
    the operand; the bits of B followed by those of A are the word of
    [encode_instruction] written in binary. *)
Theorem dump_bits_spell_the_word (cmd : Cmd) :
  MNEMONICS !! mnemonic cmd = Some (opcode cmd) ->
  0 <= encoded_operand cmd < 2 ^ Z.of_nat (field_width (opcode cmd)) ->
  let a := Fmt.format_b 6 (opcode_id (opcode cmd)) in
  let b := field_bits cmd in
  ((exists ls, format_cmd max_str_digits cmd = Ok ls) <->
   Fmt.over_limit max_str_digits (address cmd) = false) /\
  (forall ls,
      format_cmd max_str_digits cmd = Ok ls ->
      (exists la,
          field_line max_str_digits "A" "0-5" a (opcode_id (opcode cmd)) =
            Ok la /\
          ls !! 1%nat = Some la) /\
      (opcode cmd = CONST ->
       exists lb,
         field_line max_str_digits "B" "6-21" b (encoded_operand cmd) =
           Ok lb /\
         ls !! 2%nat = Some lb) /\
      (opcode cmd = LOAD ->
       exists lb,
         field_line max_str_digits "B" "6-29" b (encoded_operand cmd) =
           Ok lb /\
         ls !! 2%nat = Some lb)) /\
  String.length a = 6%nat /\
  String.length b = field_width (opcode cmd) /\
  exists (word : list Byte.byte) (w : Z),
    encode_instruction cmd = Some word /\
    struct_unpack_I word = Some w /\
    PyInt.from_string max_str_digits (b +:+ a) 2 = Ok w.
Proof.
  intros Hm Hr a b.
  destruct (opcode_bits (opcode cmd)) as (Hla & Haa & Hva). fold a in Hla, Haa, Hva.
  set (v := encoded_operand cmd) in *.
  set (k := opcode_id (opcode cmd)) in *.
  pose proof (opcode_id_range (opcode cmd)) as Hk. fold k in Hk.
  assert (Hv24 : 0 <= v < 2 ^ 24).
  { destruct (opcode cmd); simpl in Hr; change (2 ^ 24) with 16777216; lia. }
  (* the bits of the operand *)
  assert (Hb : String.length b = field_width (opcode cmd) /\
               Str.all (is_digit 2) b = true /\ positional 2 b 0 = v).
  { subst b v. unfold field_bits, encoded_operand in *.
    destruct (opcode cmd) eqn:Hop; try (repeat split; reflexivity).
    - destruct (format_int_spec 2 false 24 (default 0 (address_arg cmd))
                  ltac:(lia) ltac:(lia)) as (_ & _ & Hall & Hval & Hlen & Hge).
      specialize (Hall eq_refl). specialize (Hval eq_refl).
      change (Z.of_N 2) with 2 in Hall, Hval, Hlen.
      split; [|split; [exact Hall|exact Hval]].
      unfold Fmt.format_b. apply Nat.le_antisymm; [|exact Hge].
      apply Hlen; [simpl; lia|reflexivity|exact (proj2 Hr)].
    - destruct (format_int_spec 2 false 16 (default 0 (value cmd))
                  ltac:(lia) ltac:(lia)) as (_ & _ & Hall & Hval & Hlen & Hge).
      specialize (Hall eq_refl). specialize (Hval eq_refl).
      change (Z.of_N 2) with 2 in Hall, Hval, Hlen.
      split; [|split; [exact Hall|exact Hval]].
      unfold Fmt.format_b. apply Nat.le_antisymm; [|exact Hge].
      apply Hlen; [simpl; lia|reflexivity|exact (proj2 Hr)]. }
  destruct Hb as (Hlb & Hab & Hvb).
  (* the lines *)
  assert (Hshort : forall x, 0 <= x < 2 ^ 24 -> - 10 ^ 639 < x < 10 ^ 640).
  { intros x Hx. change (2 ^ 24) with 16777216 in Hx.
    assert (0 < 10 ^ 639) by (apply Z.pow_pos_nonneg; lia).
    assert (16777216 < 10 ^ 640) by reflexivity. lia. }
  assert (Hk24 : 0 <= k < 2 ^ 24) by (change (2 ^ 24) with 16777216; lia).
  pose proof (format_cmd_named cmd Hm) as Hfmt. cbv zeta in Hfmt.
  fold a k v b in Hfmt.
  destruct (field_line_short "A" "0-5" a k (Hshort k Hk24)) as [la Hfa].
  assert (Hfb : forall range,
             exists lb, field_line max_str_digits "B" range b v = Ok lb)
    by (intros range; apply field_line_short, Hshort, Hv24).
  destruct (Hfb "6-21") as [lb1 Hfb1]. destruct (Hfb "6-29") as [lb2 Hfb2].
  pose proof Hfa as Hfa'. unfold a in Hfa'.
  split; [|split].
  - rewrite <- (head_line_made (address cmd)
                  (code_points match opcode cmd with
                               | STORE => "STORE"
                               | LOAD => "LOAD"
                               | CONST => "CONST"
                               | BITREV => "BITREV"
                               end)
                  match opcode cmd with
                  | CONST | LOAD => Some v
                  | _ => None
                  end).
    + rewrite Hfmt.
      destruct (opcode cmd);
        (split; intros [x Hx];
         [match type of Hx with
          | context [head_line ?m ?p ?n ?o] =>
              destruct (head_line m p n o) as [h|e] eqn:Hh;
              [exists h; reflexivity|discriminate Hx]
          end
         |rewrite Hx; cbn [mbind result_bind];
          rewrite Hfa', ?Hfb1, ?Hfb2; eexists; reflexivity]).
    + intros x Hx. apply Hshort.
      destruct (opcode cmd); inversion Hx; subst x; exact Hv24.
  - intros ls Hls. rewrite Hfmt in Hls.
    destruct (opcode cmd);
      match type of Hls with
      | context [head_line ?m ?p ?n ?o] =>
          destruct (head_line m p n o) as [h|e]; [|discriminate Hls]
      end;
      cbn [mbind result_bind] in Hls;
      rewrite Hfa', ?Hfb1, ?Hfb2 in Hls;
      inversion Hls; subst ls;
      (split; [exists la; split; [exact Hfa|reflexivity]|]);
      split; intros Hop; try discriminate Hop;
      eexists; (split; [eassumption|reflexivity]).
  - split; [exact Hla|]. split; [exact Hlb|].
    (* the word *)
    assert (Hw : 0 <= Z.lor (Z.shiftl v 6) k < 2 ^ 32).
    { rewrite (field_value v k (proj1 Hv24) Hk).
      change (2 ^ 24) with 16777216 in Hv24. change (2 ^ 32) with 4294967296.
      lia. }
    destruct (struct_pack_unpack _ Hw) as (word & Hpack & Hunpack).
    exists word, (Z.lor (Z.shiftl v 6) k).
    split; [rewrite encode_instruction_word; exact Hpack|].
    split; [exact Hunpack|].
    rewrite from_string_digit_text.
    + rewrite positional_append, Hvb, positional_acc, Hva, Hla.
      rewrite (field_value v k (proj1 Hv24) Hk). reflexivity.
    + lia.
    + intros H. apply (f_equal String.length) in H.
      rewrite length_append, Hla in H. simpl in H. lia.
    + rewrite all_append, Hab, Haa. reflexivity.
    + apply over_limit_power_of_two. reflexivity.
Qed.

(** The dump shows an assembled program instruction by instruction: the
    first line of an instruction holds its index as the address, the
    upper-case name of its opcode and its resolved operand, if it has one;
    an instruction takes four lines of the dump if it is a CONST or a LOAD
    and three otherwise, the last of them empty.  The lines are made for
    every program of fewer than 10^640 instructions, which is within every
    limit of the integer string conversion. *)
Theorem dump_shows_assembled_instruction (source : string) (self : Assembler)
        (prog : list Cmd) (i : nat) (cmd : Cmd) :
  fst (assemble max_str_digits source self) = Ok prog ->
  prog !! i = Some cmd ->
  (Z.of_nat (length prog) < 10 ^ 640 ->
   exists ls, format_cmd max_str_digits cmd = Ok ls) /\
  forall ls,
    format_cmd max_str_digits cmd = Ok ls ->
    exists h,
      head_line max_str_digits (Z.of_nat i)
                (code_points match opcode cmd with
                             | STORE => "STORE"
                             | LOAD => "LOAD"
                             | CONST => "CONST"
                             | BITREV => "BITREV"
                             end)
                (operand cmd) = Ok h /\
      ls !! 0%nat = Some h /\
      length ls = match opcode cmd with
                  | CONST | LOAD => 4%nat
                  | STORE | BITREV => 3%nat
                  end /\
      last ls = Some [].
Proof.
  intros H Hi.
  destruct (assembled_cmd_keys _ _ _ _ _ _ H Hi) as (_ & Hm & _ & Hs).
  pose proof (proj2 (assembled_cmd_address _ _ _ _ H) i cmd Hi) as Ha.
  pose proof (format_cmd_named cmd Hm) as Hfmt. cbv zeta in Hfmt.
  rewrite Ha in Hfmt.
  assert (Hop : match opcode cmd with
                | CONST | LOAD => Some (encoded_operand cmd)
                | _ => None
                end = operand cmd).
  { unfold encoded_operand, operand.
    destruct (opcode cmd); try reflexivity;
      destruct Hs as [[v ->] _]; reflexivity. }
  split.
  - intros Hlen.
    assert (H0 : 0 < 10 ^ 639) by (apply Z.pow_pos_nonneg; lia).
    assert (H24 : 16777215 < 10 ^ 640) by reflexivity.
    pose proof (lookup_lt_Some _ _ _ Hi) as Hlt.
    assert (Hv : forall v, operand cmd = Some v -> - 10 ^ 639 < v < 10 ^ 640).
    { intros v Hv.
      pose proof (assembled_operand_bound _ _ _ _ _ _ _ H Hi Hv) as Hb.
      destruct Hb as [Hb | Hb]; [lia|]. destruct (opcode cmd); lia. }
    assert (Hid : - 10 ^ 639 < opcode_id (opcode cmd) < 10 ^ 640)
      by (pose proof (opcode_id_range (opcode cmd)); lia).
    destruct (proj2 (head_line_made (Z.of_nat i)
                (code_points match opcode cmd with
                             | STORE => "STORE"
                             | LOAD => "LOAD"
                             | CONST => "CONST"
                             | BITREV => "BITREV"
                             end) (operand cmd) Hv)) as [h Hh].
    { apply format_limit_short. lia. }
    destruct (field_line_short "A" "0-5"
                (Fmt.format_b 6 (opcode_id (opcode cmd)))
                (opcode_id (opcode cmd)) Hid) as [la Hfa].
    rewrite Hfmt, Hfa. rewrite <- Hop in Hh, Hv.
    destruct (opcode cmd); rewrite Hh;
      try (eexists; reflexivity);
      match goal with
      | |- context [field_line ?m "B" ?r ?b ?v] =>
          destruct (field_line_short "B" r b v (Hv v eq_refl)) as [lb ->]
      end; eexists; reflexivity.
  - intros ls Hls. rewrite Hfmt in Hls. rewrite <- Hop.
    destruct (opcode cmd);
      match type of Hls with
      | context [head_line ?m ?p ?n ?o] =>
          destruct (head_line m p n o) as [h|e]; [|discriminate Hls]
      end;
      match type of Hls with
      | context [field_line ?m "A" ?r ?b ?v] =>
          destruct (field_line m "A" r b v) as [la|e]; [|discriminate Hls]
      end;
      try match type of Hls with
          | context [field_line ?m "B" ?r ?b ?v] =>
              destruct (field_line m "B" r b v) as [lb|e]; [|discriminate Hls]
          end;
      inversion Hls; subst ls; exists h; repeat split; reflexivity.
Qed.

Lemma is_digit_lower_char (base : Z) (c : ascii) :
  base <= 36 -> is_digit base c = true ->
  PyInt.digit_value (Str.lower_char c) = PyInt.digit_value c.
Proof.
  unfold is_digit. intros Hb Hd. apply Z.ltb_lt in Hd.
  assert (H37 : PyInt.digit_value c <> 37) by lia. revert H37. clear.
  destruct c as [[] [] [] [] [] [] [] []]; intros H37;
    try (exfalso; apply H37; reflexivity); reflexivity.
Qed.

Lemma lower_digit_text (base : Z) (s : string) :
  base <= 36 -> Str.all (is_digit base) s = true ->
  Str.all (is_digit base) (Str.lower s) = true /\
  forall acc, positional base (Str.lower s) acc = positional base s acc.
Proof.
  intros Hb. induction s as [|c s IH]; intros H; [split; reflexivity|].
  simpl in H. apply andb_prop in H as [Hc Hs]. destruct (IH Hs) as [Ha Hp].
  pose proof (is_digit_lower_char base c Hb Hc) as Hl. split.
  - simpl. rewrite Ha. unfold is_digit in *. rewrite Hl, Hc. reflexivity.
  - intros acc. simpl. rewrite Hl. apply Hp.
Qed.

(** A literal behind one of the three prefixes, written with digits of the
    base of the prefix in either case, is the number the digits spell. *)
Lemma parse_number_prefixed (x : ascii) (base : Z) (ds : string) :
  x = "x"%char /\ base = 16 \/ x = "b"%char /\ base = 2 \/
  x = "o"%char /\ base = 8 ->
  ds <> EmptyString ->
  Str.all (is_digit base) ds = true ->
  parse_number max_str_digits (String "0" (String x ds)) =
    Ok (positional base ds 0).
Proof.
  intros Hx Hne Hall.
  assert (Hb : 2 <= base <= 36) by (destruct Hx as [[_ ->]|[[_ ->]|[_ ->]]]; lia).
  destruct (lower_digit_text base ds ltac:(lia) Hall) as [Hla Hlp].
  assert (Hlne : Str.lower ds <> EmptyString) by (destruct ds; [congruence|discriminate]).
  assert (Hpow : PyInt.is_power_of_two base = true)
    by (destruct Hx as [[_ ->]|[[_ ->]|[_ ->]]]; reflexivity).
  unfold parse_number. cbv zeta.
  rewrite strip_plain.
  - change (Str.lower (String "0" (String x ds)))
      with (String "0" (String (Str.lower_char x) (Str.lower ds))).
    rewrite !startswith_two.
    destruct Hx as [[-> ->]|[[-> ->]|[-> ->]]];
      match goal with
      | |- context [Str.lower_char ?c] =>
          let r := eval vm_compute in (Str.lower_char c) in
          change (Str.lower_char c) with r
      end;
      cbn [Ascii.eqb Bool.eqb andb];
      change (Str.drop 2 (String "0" (String ?c (Str.lower ds))))
        with (Str.lower ds);
      (rewrite from_string_digit_text;
       [rewrite Hlp; reflexivity|lia|exact Hlne|exact Hla|
        apply over_limit_power_of_two; reflexivity]).
  - cbn [Str.all].
    rewrite (digit_text_no_space base ds ltac:(lia) Hall).
    destruct Hx as [[-> _]|[[-> _]|[-> _]]]; reflexivity.
Qed.

(** What a well-formed literal is worth.  A token of decimal digits, at most
    640 of them, is the number they spell in base 10, zeros in front
    included: a leading zero does not make a literal octal.  A token of
    [0x], [0b] or [0o] and digits of base 16, 2 or 8 is the number the
    digits spell in that base. *)
Theorem literal_value (ds : string) :
  ds <> EmptyString ->
  (Str.all (is_digit 10) ds = true -> (String.length ds <= 640)%nat ->
   parse_number max_str_digits ds = Ok (positional 10 ds 0)) /\
  (Str.all (is_digit 16) ds = true ->
   parse_number max_str_digits ("0x" +:+ ds) = Ok (positional 16 ds 0)) /\
  (Str.all (is_digit 2) ds = true ->
   parse_number max_str_digits ("0b" +:+ ds) = Ok (positional 2 ds 0)) /\
  (Str.all (is_digit 8) ds = true ->
   parse_number max_str_digits ("0o" +:+ ds) = Ok (positional 8 ds 0)).
Proof.
  intros Hne. split; [|split; [|split]].
  - intros Hall Hlen.
    destruct (lower_digit_text 10 ds ltac:(lia) Hall) as [Hla Hlp].
    assert (Hlne : Str.lower ds <> EmptyString)
      by (destruct ds; [congruence|discriminate]).
    assert (Hll : String.length (Str.lower ds) = String.length ds).
    { clear. induction ds as [|c t IH]; simpl; [reflexivity|].
      rewrite IH. reflexivity. }
    unfold parse_number. cbv zeta.
    rewrite (strip_digit_text 10 ds ltac:(lia) Hall).
    destruct (decimal_no_prefix _ Hla) as (-> & -> & ->).
    rewrite from_string_digit_text;
      [rewrite Hlp; reflexivity|lia|exact Hlne|exact Hla|].
    apply over_limit_short. rewrite Hll. exact Hlen.
  - intros Hall. apply (parse_number_prefixed "x" 16 ds); auto.
  - intros Hall. apply (parse_number_prefixed "b" 2 ds); auto.
  - intros Hall. apply (parse_number_prefixed "o" 8 ds); auto.
Qed.

End Dump.

(** ** The further properties at concrete inputs *)

Definition const_125 : Cmd :=
  mkCmd 0 CONST "const" ["125"] "const 125" (Some 125) None None.

Lemma comment_is_ignored_const :
  Str.contains ";" "const 5 " = false /\
  parse_line 4300 ("const 5 " +:+ String ";" " five") Assembler_init =
    parse_line 4300 "const 5 " Assembler_init.
Proof.
  assert (H : Str.contains ";" "const 5 " = false) by reflexivity.
  split; [exact H|].
  exact (comment_is_ignored 4300 "const 5 " " five" Assembler_init H).
Defined.

Lemma assemble_failures_bogus :
  fst (assemble 4300 "bogus" Assembler_init) =
    Raise (AtLine 1 (UnknownMnemonic "bogus")) /\
  ((exists l, AtLine 1 (UnknownMnemonic "bogus") = UnknownLabel l) \/
   (exists n e', AtLine 1 (UnknownMnemonic "bogus") = AtLine n e' /\
                 line_error e' /\
                 1 <= n <= Z.of_nat (length (Str.split "010" "bogus")))).
Proof.
  assert (H : fst (assemble 4300 "bogus" Assembler_init) =
              Raise (AtLine 1 (UnknownMnemonic "bogus"))) by reflexivity.
  split; [exact H|].
  exact (assemble_failures 4300 "bogus" Assembler_init _ H).
Defined.

Lemma duplicate_label_a :
  let source := source_of ["a:"; "store"; "a:"] in
  (0 < 2)%nat /\
  Str.split "010" source !! 0%nat = Some "a:" /\
  Str.split "010" source !! 2%nat = Some "a:" /\
  declares "a:" = Some "a" /\
  exists n e,
    fst (assemble 4300 source Assembler_init) = Raise (AtLine n e) /\
    1 <= n <= Z.of_nat 2 + 1 /\
    (n = Z.of_nat 2 + 1 -> e = DuplicateLabel "a").
Proof.
  intros source.
  assert (H0 : (0 < 2)%nat) by (apply Nat.lt_0_succ).
  assert (H1 : Str.split "010" source !! 0%nat = Some "a:") by reflexivity.
  assert (H2 : Str.split "010" source !! 2%nat = Some "a:") by reflexivity.
  assert (H3 : declares "a:" = Some "a") by reflexivity.
  split; [exact H0|]. split; [exact H1|]. split; [exact H2|].
  split; [exact H3|].
  exact (duplicate_label_is_rejected 4300 source Assembler_init 0 2 "a:" "a:"
           "a" H0 H1 H2 H3 H3).
Defined.

Lemma assembled_addresses_const_125 :
  fst (assemble 4300 "const 125" Assembler_init) = Ok [const_125] /\
  Z.of_nat (length [const_125]) =
    count_instructions (Str.split "010" "const 125") /\
  forall (i : nat) cmd,
    [const_125] !! i = Some cmd -> address cmd = Z.of_nat i.
Proof.
  assert (H : fst (assemble 4300 "const 125" Assembler_init) = Ok [const_125])
    by reflexivity.
  split; [exact H|].
  exact (assembled_addresses 4300 "const 125" Assembler_init _ H).
Defined.

Lemma assembled_keys_const_125 :
  fst (assemble 4300 "const 125" Assembler_init) = Ok [const_125] /\
  [const_125] !! 0%nat = Some const_125 /\
  label const_125 = None /\
  MNEMONICS !! mnemonic const_125 = Some (opcode const_125).
Proof.
  assert (H : fst (assemble 4300 "const 125" Assembler_init) = Ok [const_125])
    by reflexivity.
  assert (Hi : [const_125] !! 0%nat = Some const_125) by reflexivity.
  split; [exact H|]. split; [exact Hi|].
  pose proof (assembled_keys 4300 "const 125" Assembler_init _ 0 _ H Hi)
    as (H1 & H2 & _).
  split; [exact H1|exact H2].
Defined.

Lemma assembled_operands_const_125 :
  fst (assemble 4300 "const 125" Assembler_init) = Ok [const_125] /\
  [const_125] !! 0%nat = Some const_125 /\
  operand const_125 = Some 125 /\
  (Z.of_nat (length [const_125]) <= 65535 -> 0 <= 125 <= 65535).
Proof.
  assert (H : fst (assemble 4300 "const 125" Assembler_init) = Ok [const_125])
    by reflexivity.
  assert (Hi : [const_125] !! 0%nat = Some const_125) by reflexivity.
  assert (Hv : operand const_125 = Some 125) by reflexivity.
  split; [exact H|]. split; [exact Hi|]. split; [exact Hv|].
  exact (proj2 (assembled_operands 4300 "const 125" Assembler_init _ 0 _ 125
                  H Hi Hv)).
Defined.

Lemma blank_line_between_two :
  clean "; note" = EmptyString /\
  Forall (fun w => Str.contains "010" w = false)
         (["store"] ++ "; note" :: ["bitrev"]) /\
  ["store"] ++ ["bitrev"] <> [] /\
  fst (assemble 4300 (source_of (["store"] ++ "; note" :: ["bitrev"]))
                Assembler_init) =
    match fst (assemble 4300 (source_of (["store"] ++ ["bitrev"]))
                        Assembler_init) with
    | Raise (AtLine n e) =>
        Raise (AtLine (if n <=? Z.of_nat (length ["store"]) then n else n + 1)
                      e)
    | other => other
    end.
Proof.
  assert (H1 : clean "; note" = EmptyString) by reflexivity.
  assert (H2 : Forall (fun w => Str.contains "010" w = false)
                      (["store"] ++ "; note" :: ["bitrev"]))
    by (repeat constructor).
  assert (H3 : ["store"] ++ ["bitrev"] <> ([] : list string)) by discriminate.
  split; [exact H1|]. split; [exact H2|]. split; [exact H3|].
  exact (blank_line_is_neutral 4300 ["store"] ["bitrev"] "; note"
           Assembler_init H1 H2 H3).
Defined.

Lemma parse_number_ignores_case_ff :
  Str.lower "0XFF" = Str.lower "0xff" /\
  parse_number 4300 "0XFF" = parse_number 4300 "0xff".
Proof.
  assert (H : Str.lower "0XFF" = Str.lower "0xff") by reflexivity.
  split; [exact H|]. exact (parse_number_ignores_case 4300 "0XFF" "0xff" H).
Defined.

Lemma to_binary_layout_const_125 :
  to_binary [const_125] = Some [Byte.x6a; Byte.x1f; Byte.x00; Byte.x00] /\
  length [Byte.x6a; Byte.x1f; Byte.x00; Byte.x00] =
    (4 * length [const_125])%nat.
Proof.
  assert (H : to_binary [const_125] =
              Some [Byte.x6a; Byte.x1f; Byte.x00; Byte.x00]) by reflexivity.
  split; [exact H|]. exact (proj1 (to_binary_layout _ _ H)).
Defined.

Lemma encode_instruction_injective_const_125 :
  let cmd' := mkCmd 7 CONST "const" ["0x7d"] "CONST 0x7d" (Some 125) None None in
  encode_instruction const_125 =
    Some [Byte.x6a; Byte.x1f; Byte.x00; Byte.x00] /\
  encode_instruction cmd' = Some [Byte.x6a; Byte.x1f; Byte.x00; Byte.x00] /\
  opcode const_125 = opcode cmd' /\
  encoded_operand const_125 = encoded_operand cmd'.
Proof.
  intros cmd'.
  assert (H : encode_instruction const_125 =
              Some [Byte.x6a; Byte.x1f; Byte.x00; Byte.x00]) by reflexivity.
  assert (H' : encode_instruction cmd' =
               Some [Byte.x6a; Byte.x1f; Byte.x00; Byte.x00]) by reflexivity.
  split; [exact H|]. split; [exact H'|].
  exact (encode_instruction_injective const_125 cmd' _ H H').
Defined.

Lemma assembled_program_is_encodable_const_125 :
  fst (assemble 4300 "const 125" Assembler_init) = Ok [const_125] /\
  Z.of_nat (length [const_125]) < 2 ^ 26 /\
  exists image,
    to_binary [const_125] = Some image /\
    length image = (4 * length [const_125])%nat.
Proof.
  assert (H : fst (assemble 4300 "const 125" Assembler_init) = Ok [const_125])
    by reflexivity.
  assert (Hn : Z.of_nat (length [const_125]) < 2 ^ 26) by reflexivity.
  split; [exact H|]. split; [exact Hn|].
  exact (assembled_program_is_encodable 4300 "const 125" Assembler_init _ H Hn).
Defined.

Lemma dump_numbers_read_back_125 :
  0 <= 125 /\
  Fmt.format_d 4300 4 125 = Ok "0125" /\
  parse_number 4300 "0125" = Ok 125 /\
  parse_number 4300 ("0x" +:+ Fmt.format_X 125) = Ok 125 /\
  parse_number 4300 ("0b" +:+ Fmt.format_b 4 125) = Ok 125.
Proof.
  assert (H : 0 <= 125) by discriminate.
  assert (Hw : (4 <= 640)%nat) by (apply Nat.leb_le; reflexivity).
  assert (Hf : Fmt.format_d 4300 4 125 = Ok "0125") by reflexivity.
  pose proof (dump_numbers_read_back 4300 125 4 H) as (_ & Hback & Hx & Hb).
  split; [exact H|]. split; [exact Hf|]. split; [exact (Hback Hw _ Hf)|].
  split; [exact Hx|exact Hb].
Defined.

Lemma dump_bits_spell_the_word_const_125 :
  MNEMONICS !! mnemonic const_125 = Some (opcode const_125) /\
  0 <= encoded_operand const_125
    < 2 ^ Z.of_nat (field_width (opcode const_125)) /\
  (exists ls, format_cmd 4300 const_125 = Ok ls) /\
  exists (word : list Byte.byte) (w : Z),
    encode_instruction const_125 = Some word /\
    struct_unpack_I word = Some w /\
    PyInt.from_string 4300
      (field_bits const_125 +:+ Fmt.format_b 6 (opcode_id (opcode const_125)))
      2 = Ok w.
Proof.
  assert (H : MNEMONICS !! mnemonic const_125 = Some (opcode const_125))
    by reflexivity.
  assert (Hr : 0 <= encoded_operand const_125
               < 2 ^ Z.of_nat (field_width (opcode const_125)))
    by (split; [discriminate|reflexivity]).
  assert (Hl : Fmt.over_limit 4300 (address const_125) = false)
    by reflexivity.
  pose proof (dump_bits_spell_the_word 4300 const_125 H Hr)
    as (Hmade & _ & _ & _ & Hword).
  split; [exact H|]. split; [exact Hr|].
  split; [exact (proj2 Hmade Hl)|exact Hword].
Defined.

Lemma dump_shows_const_125 :
  fst (assemble 4300 "const 125" Assembler_init) = Ok [const_125] /\
  [const_125] !! 0%nat = Some const_125 /\
  Z.of_nat (length [const_125]) < 10 ^ 640 /\
  exists ls h,
    format_cmd 4300 const_125 = Ok ls /\
    head_line 4300 0 (code_points "CONST") (Some 125) = Ok h /\
    ls !! 0%nat = Some h /\ length ls = 4%nat /\ last ls = Some [].
Proof.
  assert (H : fst (assemble 4300 "const 125" Assembler_init) = Ok [const_125])
    by reflexivity.
  assert (Hi : [const_125] !! 0%nat = Some const_125) by reflexivity.
  assert (Hn : Z.of_nat (length [const_125]) < 10 ^ 640) by reflexivity.
  pose proof (dump_shows_assembled_instruction 4300 "const 125"
                Assembler_init _ 0 _ H Hi) as [Hmade Hshape].
  destruct (Hmade Hn) as [ls Hls].
  destruct (Hshape ls Hls) as (h & Hh & H0 & Hlen & Hlast).
  split; [exact H|]. split; [exact Hi|]. split; [exact Hn|].
  exists ls, h. repeat split; assumption.
Defined.

Lemma literal_value_0144 :
  "0144" <> EmptyString /\
  (Str.all (is_digit 10) "0144" = true -> (String.length "0144" <= 640)%nat ->
   parse_number 4300 "0144" = Ok (positional 10 "0144" 0)).
Proof.
  assert (H : "0144" <> EmptyString) by discriminate.
  split; [exact H|]. exact (proj1 (literal_value 4300 "0144" H)).
Defined.
